(** * Ticket lifecycle of the Discord ticket bot (main.py)

    A shallow embedding of the handlers of [main.py]: the intake form
    ([TicketModal.on_submit]), the settings editor
    ([GenericValueModal.on_submit]), the claim button
    ([TicketInitialView.take_button]) and the claimed-state buttons
    ([TicketTakenView.accept_final], [reject_ticket], [delete_ticket],
    [add_moderator]).

    Python [str] values are sequences of Unicode code points, the
    module-level [settings] dict is a finite map, a coroutine is a tree of
    synchronous state accesses and awaited platform calls, and the event
    loop runs the code between two awaits without interruption. *)

From Stdlib Require Import ZArith NArith List Bool Ascii String Lia.
From Stdlib Require Import DecimalString DecimalFacts DecimalPos DecimalN DecimalZ.
From stdpp Require Import base option gmap strings list.

Set Default Proof Using "Type".
Open Scope Z_scope.

(** ** Python strings *)

(** A [str] is a sequence of code points; [len] counts code points. *)
Definition codepoint := N.
Definition pystr := list N.

Definition len (s : pystr) : Z := Z.of_nat (List.length s).

Definition byte_of (a : ascii) : N := N_of_ascii a.

(** String literals of the source are written as UTF-8 text; [py] decodes
    them into code points (a malformed tail is kept byte by byte). *)
Fixpoint py (s : string) : pystr :=
  match s with
  | EmptyString => []
  | String a0 s1 =>
    let b0 := byte_of a0 in
    if (b0 <? 0xC0)%N then b0 :: py s1
    else
      match s1 with
      | EmptyString => [b0]
      | String a1 s2 =>
        let b1 := (byte_of a1 mod 64)%N in
        if (b0 <? 0xE0)%N then ((b0 mod 32) * 64 + b1)%N :: py s2
        else
          match s2 with
          | EmptyString => [b0; byte_of a1]
          | String a2 s3 =>
            let b2 := (byte_of a2 mod 64)%N in
            if (b0 <? 0xF0)%N
            then (((b0 mod 16) * 64 + b1) * 64 + b2)%N :: py s3
            else
              match s3 with
              | EmptyString => [b0; byte_of a1; byte_of a2]
              | String a3 s4 =>
                let b3 := (byte_of a3 mod 64)%N in
                ((((b0 mod 8) * 64 + b1) * 64 + b2) * 64 + b3)%N :: py s4
              end
          end
      end
  end.

Arguments py : simpl never.

(** A string literal of the source: its code points, decoded once where
    the literal is written. *)
Notation "'lit' s" :=
  (ltac:(let v := eval vm_compute in (py s) in exact v))
  (at level 10, s at level 9, only parsing).

(** The line feed of the f-strings. *)
Definition nl : pystr := [10%N].

(** Membership of a code point in a table of inclusive ranges. *)
Definition in_ranges (tbl : list (N * N)) (c : N) : bool :=
  existsb (fun r => (fst r <=? c)%N && (c <=? snd r)%N) tbl.

(** [str.isspace] for one code point (bidirectional class WS, B or S, or
    category Zs; the table of CPython 3.11, Unicode 14). *)
Definition whitespace_ranges : list (N * N) :=
  [ (0x09, 0x0D); (0x1C, 0x20); (0x85, 0x85); (0xA0, 0xA0);
    (0x1680, 0x1680); (0x2000, 0x200A); (0x2028, 0x2029);
    (0x202F, 0x202F); (0x205F, 0x205F); (0x3000, 0x3000) ]%N.

Definition isspace_cp (c : N) : bool := in_ranges whitespace_ranges c.

(** Code points of category Nd.  Every range starts at a digit zero and
    holds whole runs of ten, so the digit value is the offset modulo 10. *)
Definition decimal_ranges : list (N * N) :=
  [ (0x30, 0x39); (0x660, 0x669); (0x6F0, 0x6F9); (0x7C0, 0x7C9);
    (0x966, 0x96F); (0x9E6, 0x9EF); (0xA66, 0xA6F); (0xAE6, 0xAEF);
    (0xB66, 0xB6F); (0xBE6, 0xBEF); (0xC66, 0xC6F); (0xCE6, 0xCEF);
    (0xD66, 0xD6F); (0xDE6, 0xDEF); (0xE50, 0xE59); (0xED0, 0xED9);
    (0xF20, 0xF29); (0x1040, 0x1049); (0x1090, 0x1099); (0x17E0, 0x17E9);
    (0x1810, 0x1819); (0x1946, 0x194F); (0x19D0, 0x19D9); (0x1A80, 0x1A89);
    (0x1A90, 0x1A99); (0x1B50, 0x1B59); (0x1BB0, 0x1BB9); (0x1C40, 0x1C49);
    (0x1C50, 0x1C59); (0xA620, 0xA629); (0xA8D0, 0xA8D9); (0xA900, 0xA909);
    (0xA9D0, 0xA9D9); (0xA9F0, 0xA9F9); (0xAA50, 0xAA59); (0xABF0, 0xABF9);
    (0xFF10, 0xFF19); (0x104A0, 0x104A9); (0x10D30, 0x10D39);
    (0x11066, 0x1106F); (0x110F0, 0x110F9); (0x11136, 0x1113F);
    (0x111D0, 0x111D9); (0x112F0, 0x112F9); (0x11450, 0x11459);
    (0x114D0, 0x114D9); (0x11650, 0x11659); (0x116C0, 0x116C9);
    (0x11730, 0x11739); (0x118E0, 0x118E9); (0x11950, 0x11959);
    (0x11C50, 0x11C59); (0x11D50, 0x11D59); (0x11DA0, 0x11DA9);
    (0x16A60, 0x16A69); (0x16AC0, 0x16AC9); (0x16B50, 0x16B59);
    (0x1D7CE, 0x1D7FF); (0x1E140, 0x1E149); (0x1E2F0, 0x1E2F9);
    (0x1E950, 0x1E959); (0x1FBF0, 0x1FBF9) ]%N.

(** [Py_UNICODE_TODECIMAL]: the digit value of a decimal code point. *)
Definition todecimal (c : N) : option N :=
  match find (fun r => (fst r <=? c)%N && (c <=? snd r)%N) decimal_ranges with
  | Some r => Some ((c - fst r) mod 10)%N
  | None => None
  end.

Definition isdecimal_cp (c : N) : bool :=
  match todecimal c with Some _ => true | None => false end.

(** Code points that are digits without being decimal (superscripts,
    circled digits and the like): numeric type Digit. *)
Definition other_digit_ranges : list (N * N) :=
  [ (0xB2, 0xB3); (0xB9, 0xB9); (0x1369, 0x1371); (0x19DA, 0x19DA);
    (0x2070, 0x2070); (0x2074, 0x2079); (0x2080, 0x2089); (0x2460, 0x2468);
    (0x2474, 0x247C); (0x2488, 0x2490); (0x24EA, 0x24EA); (0x24F5, 0x24FD);
    (0x24FF, 0x24FF); (0x2776, 0x277E); (0x2780, 0x2788); (0x278A, 0x2792);
    (0x10A40, 0x10A43); (0x10E60, 0x10E68); (0x11052, 0x1105A);
    (0x1F100, 0x1F10A) ]%N.

Definition isdigit_cp (c : N) : bool :=
  isdecimal_cp c || in_ranges other_digit_ranges c.

(** [str.isdigit]: every character is a digit and there is at least one. *)
Definition isdigit (s : pystr) : bool :=
  match s with
  | [] => false
  | _ => forallb isdigit_cp s
  end.

(** [str.strip()] without argument removes leading and trailing
    whitespace. *)
Fixpoint lstrip (s : pystr) : pystr :=
  match s with
  | [] => []
  | c :: t => if isspace_cp c then lstrip t else s
  end.

Definition rstrip (s : pystr) : pystr := rev (lstrip (rev s)).

Definition strip (s : pystr) : pystr := rstrip (lstrip s).

(** [str(n)] for an [int]: the decimal numeral.  (The numbers the
    program formats are identifiers of the platform, of 64 bits, and
    integers [int] has returned: none reaches the 4300 digits beyond which
    [str] raises.) *)
Fixpoint digits_of_uint (d : Decimal.uint) : pystr :=
  match d with
  | Decimal.Nil => []
  | Decimal.D0 d => 48%N :: digits_of_uint d
  | Decimal.D1 d => 49%N :: digits_of_uint d
  | Decimal.D2 d => 50%N :: digits_of_uint d
  | Decimal.D3 d => 51%N :: digits_of_uint d
  | Decimal.D4 d => 52%N :: digits_of_uint d
  | Decimal.D5 d => 53%N :: digits_of_uint d
  | Decimal.D6 d => 54%N :: digits_of_uint d
  | Decimal.D7 d => 55%N :: digits_of_uint d
  | Decimal.D8 d => 56%N :: digits_of_uint d
  | Decimal.D9 d => 57%N :: digits_of_uint d
  end.

Definition str_of_int (z : Z) : pystr :=
  match z with
  | Z0 => [48%N]
  | Zpos p => digits_of_uint (Pos.to_uint p)
  | Zneg p => 45%N :: digits_of_uint (Pos.to_uint p)
  end.

(** *** [int(s)] in base 10

    CPython first rewrites the string
    ([_PyUnicode_TransformDecimalAndSpaceToASCII]): a code point below 127
    is kept, another whitespace becomes a space, another decimal digit
    becomes its ASCII digit, and anything else becomes [?] and ends the
    buffer.  [PyLong_FromString] then skips ASCII whitespace, reads an
    optional sign and a run of digits with single underscores between
    digits, skips ASCII whitespace and must be at the end; a numeral of
    more than 4300 digits is refused ([sys.get_int_max_str_digits()], from
    CPython 3.11 on). *)
Fixpoint transform_decimal_and_space (s : pystr) : pystr :=
  match s with
  | [] => []
  | c :: t =>
    if (c <? 127)%N then c :: transform_decimal_and_space t
    else if isspace_cp c then 32%N :: transform_decimal_and_space t
    else match todecimal c with
         | Some d => (48 + d)%N :: transform_decimal_and_space t
         | None => [63%N]
         end
  end.

(** [Py_ISSPACE] of the C locale. *)
Definition ascii_isspace (c : N) : bool :=
  ((9 <=? c) && (c <=? 13))%N || (c =? 32)%N.

Fixpoint skip_ascii_space (s : pystr) : pystr :=
  match s with
  | [] => []
  | c :: t => if ascii_isspace c then skip_ascii_space t else s
  end.

Definition ascii_digit (c : N) : option Z :=
  if ((48 <=? c) && (c <=? 57))%N then Some (Z.of_N (c - 48)) else None.

(** The digit scan of [long_from_non_binary_base]: [prev_us] tells whether
    the previous character was an underscore, [seen] whether a digit was
    read.  The result is the value and the rest of the buffer, or [None]
    for a doubled or trailing underscore. *)
Fixpoint scan_digits (s : pystr) (acc : Z) (prev_us seen : bool)
  : option (Z * bool * pystr) :=
  match s with
  | [] => if prev_us then None else Some (acc, seen, [])
  | c :: t =>
    if (c =? 95)%N then
      if prev_us then None else scan_digits t acc true seen
    else
      match ascii_digit c with
      | Some d => scan_digits t (acc * 10 + d) false true
      | None => if prev_us then None else Some (acc, seen, s)
      end
  end.

Definition long_value (s : pystr) : option Z :=
  let s1 := skip_ascii_space s in
  let '(sign, s2) :=
    match s1 with
    | 43%N :: t => (1, t)
    | 45%N :: t => (-1, t)
    | _ => (1, s1)
    end in
  match s2 with
  | 95%N :: _ => None
  | _ =>
    match scan_digits s2 0 false false with
    | Some (n, true, rest) =>
      match skip_ascii_space rest with
      | [] => Some (sign * n)
      | _ => None
      end
    | _ => None
    end
  end.

(** The [digits] counter of the same scan: the digits of the run of
    digits and underscores the buffer starts with. *)
Fixpoint count_digits (s : pystr) : nat :=
  match s with
  | [] => 0
  | c :: t =>
    if (c =? 95)%N then count_digits t
    else
      match ascii_digit c with
      | Some _ => S (count_digits t)
      | None => 0
      end
  end.

(** [sys.get_int_max_str_digits()], the default. *)
Definition int_max_str_digits : nat := 4300.

(** [PyLong_FromString] in base 10: the digits are counted after the
    whitespace and the sign, and a numeral of more than
    [int_max_str_digits] digits is refused with a [ValueError] like a
    malformed one. *)
Definition after_sign (s : pystr) : pystr :=
  match skip_ascii_space s with
  | 43%N :: t => t
  | 45%N :: t => t
  | s1 => s1
  end.

Definition long_from_string (s : pystr) : option Z :=
  if (int_max_str_digits <? count_digits (after_sign s))%nat then None else long_value s.

(** The integer a text denotes, whatever the number of its digits. *)
Definition int_value (s : pystr) : option Z :=
  long_value (transform_decimal_and_space s).

(** [int(s)]: [None] stands for the [ValueError]. *)
Definition int_of_str (s : pystr) : option Z :=
  long_from_string (transform_decimal_and_space s).

(** [str_to_int_maybe] of the source: [int(s)], or [None] on any
    exception. *)
Definition str_to_int_maybe (s : pystr) : option Z := int_of_str s.

(** *** [re.search(r"\d{17,20}", raw)]

    [\d] matches a decimal code point.  The search tries the start
    positions from the left; at a position the greedy quantifier takes as
    many digits as there are, up to 20, and needs 17. *)
Fixpoint take_digits (n : nat) (s : pystr) : pystr :=
  match n, s with
  | S n', c :: t => if isdecimal_cp c then c :: take_digits n' t else []
  | _, _ => []
  end.

Fixpoint re_search_id (s : pystr) : option pystr :=
  match s with
  | [] => None
  | c :: t =>
    let m := take_digits 20 s in
    if (17 <=? List.length m)%nat then Some m else re_search_id t
  end.

(** [key.endswith(suffix)] on dictionary keys. *)
Fixpoint string_rev_acc (s acc : string) : string :=
  match s with
  | EmptyString => acc
  | String a t => string_rev_acc t (String a acc)
  end.

Definition endswith (s suffix : string) : bool :=
  String.prefix (string_rev_acc suffix EmptyString) (string_rev_acc s EmptyString).


(** ** Settings *)

(** The values of [settings.json]: [null], an integer or a string (the
    documented layout: message texts are strings, identifiers are integers
    or null). *)
Inductive value :=
| VNone
| VInt (n : Z)
| VStr (s : pystr).

#[global] Instance value_eq_dec : EqDecision value.
Proof. solve_decision. Defined.

(** Truth value of an object in [if x:] and [x or y]. *)
Definition truthy (v : value) : bool :=
  match v with
  | VNone => false
  | VInt n => negb (n =? 0)
  | VStr s => match s with [] => false | _ => true end
  end.

(** [int(v)]: [None] stands for the [TypeError] or [ValueError]. *)
Definition int_of_value (v : value) : option Z :=
  match v with
  | VNone => None
  | VInt n => Some n
  | VStr s => int_of_str s
  end.

(** [str(v)] as an f-string renders it. *)
Definition str_of_value (v : value) : pystr :=
  match v with
  | VNone => lit "None"
  | VInt n => str_of_int n
  | VStr s => s
  end.

(** [d.get(k)] and [d.get(k, default)]. *)
Definition dict_get (d : gmap string value) (k : string) : value :=
  default VNone (d !! k).

Definition dict_get_default (d : gmap string value) (k : string) (dflt : value) : value :=
  default dflt (d !! k).

(** The dictionary [load_settings] writes on the first run. *)
Definition default_settings : gmap string value :=
  <["ticket_message_text" := VStr (lit "Нажмите кнопку, чтобы открыть тикет:")]>
  (<["ticket_button_channel_id" := VNone]>
  (<["log_channel_id" := VNone]>
  (<["ticket_category_id" := VNone]>
  (<["staff_role_id" := VNone]>
  (<["accepted_role_id" := VNone]>
  (<["accept_message" := VStr (lit "Ваш тикет был принят!")]>
  (<["reject_message" := VStr (lit "Ваш тикет был отклонён.")]> ∅))))))).

Definition EMBED_COLOR : Z := 0x46009E.

(** ** Platform objects *)

(** A guild member as the handlers read it: [id], [name], [display_name],
    [str(member)], the identifiers of its roles and
    [guild_permissions.administrator]. *)
Record Member := {
  user_id : Z;
  user_name : pystr;
  display_name : pystr;
  user_str : pystr;
  user_roles : list Z;
  administrator : bool
}.

(** The guild cache: [get_role], [get_member] and [get_channel] are
    synchronous lookups. *)
Record Guild := {
  guild_roles : gset Z;
  guild_members : gmap Z Member;
  guild_channels : gset Z;
  default_role : Z;
  me : Member
}.

Definition get_role (g : Guild) (r : Z) : option Z :=
  if decide (r ∈ guild_roles g) then Some r else None.

Definition get_member (g : Guild) (uid : Z) : option Member :=
  guild_members g !! uid.

Definition get_channel (g : Guild) (c : Z) : option Z :=
  if decide (c ∈ guild_channels g) then Some c else None.

Record Interaction := {
  user : Member;
  guild : Guild;
  channel : option Z
}.

(** [member.mention] and [channel.mention]. *)
Definition mention (m : Member) : pystr := lit "<@" ++ str_of_int (user_id m) ++ lit ">".
Definition channel_mention (ch : Z) : pystr := lit "<#" ++ str_of_int ch ++ lit ">".

(** [discord.PermissionOverwrite]: an unset permission is [None]. *)
Record PermissionOverwrite := {
  view_channel : option bool;
  send_messages : option bool;
  read_message_history : option bool
}.

(** The target of an overwrite: a role or a member. *)
Inductive target :=
| TRole (r : Z)
| TMember (uid : Z).

#[global] Instance target_eq_dec : EqDecision target.
Proof. solve_decision. Defined.

(** [d[k] = v] on a dict kept in insertion order. *)
Fixpoint dict_set {K V} `{EqDecision K} (k : K) (v : V) (d : list (K * V)) : list (K * V) :=
  match d with
  | [] => [(k, v)]
  | (k', v') :: d' => if decide (k = k') then (k, v) :: d' else (k', v') :: dict_set k v d'
  end.

Record Embed := {
  embed_title : pystr;
  embed_description : pystr;
  embed_color : Z;
  embed_fields : list (pystr * pystr * bool);
  embed_footer : option pystr
}.

(** The constructor arguments both ticket views keep. *)
Record Ticket := {
  owner : Member;
  nick_text : pystr;
  age : option pystr;
  purpose : option pystr;
  from_where : option pystr;
  read_rules : option pystr
}.

(** [TicketInitialView]: the view is one mutable object, shared by every
    press of its button; [taken_by] is its only mutated attribute. *)
Record TicketInitialView := {
  initial_ticket :> Ticket;
  taken_by : option Z
}.

(** [TicketTakenView]: never mutated after construction.  [taker_id]
    receives [self.taken_by], an [Optional[int]]. *)
Record TicketTakenView := {
  taken_ticket :> Ticket;
  taker_id : option Z
}.

(** The forms a handler opens with [send_modal]. *)
Inductive modal :=
| TicketModal (author : Member)
| GenericValueModal (option_key : string) (title : pystr)
| RejectReasonModal (view : TicketTakenView) (owner_member : option Member)
| AddModeratorModal (view : TicketTakenView).

(** The awaited platform calls. *)
Inductive call :=
| send_message (content : pystr)
    (* interaction.response.send_message(content, ephemeral=True) *)
| edit_message (view : TicketTakenView)
    (* interaction.response.edit_message(view=...) *)
| send_modal (m : modal)
    (* interaction.response.send_modal(...) *)
| create_text_channel (name : pystr) (overwrites : list (target * PermissionOverwrite))
    (category : option Z) (topic : pystr)
| channel_send (ch : Z) (content : pystr) (embed : option Embed) (view : option nat)
    (* channel.send(...); the view is a reference into the store *)
| set_permissions (ch : Z) (t : target) (po : PermissionOverwrite)
| member_edit (uid : Z) (nick : pystr)
| add_roles (uid : Z) (role : Z) (reason : pystr)
| member_send (uid : Z) (e : Embed)
| channel_delete (ch : Z)
| fetch_member (uid : Z).

(** What a call returns when it does not raise. *)
Definition ret_type (c : call) : Type :=
  match c with
  | create_text_channel _ _ _ _ => Z
  | fetch_member _ => Member
  | _ => unit
  end.

Inductive result (R : Type) :=
| Raised
| Returned (r : R).
Arguments Raised {R}.
Arguments Returned {R} r.

(** ** Process state *)

(** What [settings.json] is on disk: no file, a file that is no JSON
    document (what a dump that was cut short leaves behind), or a
    document. *)
Inductive File :=
| Missing
| Damaged
| Holds (d : gmap string value).

(** What the file system does with a write of [settings.json]: it takes
    it; [open] raises and the file stays as it was; or the file is opened,
    and so emptied, and the write raises. *)
Inductive Disk :=
| Works
| Refuses
| Breaks.

(** What the handlers share: the module-level [settings] dict, the file
    [settings.json] and the file system under it, the [TicketInitialView]
    objects alive in the view store, and the tasks [send_log_embed] put on
    the loop with [bot.loop.create_task] (target channel and embed). *)
Record State := {
  settings : gmap string value;
  settings_file : File;
  disk : Disk;
  views : gmap nat TicketInitialView;
  loop_tasks : list (Z * Embed)
}.

Definition set_settings (d : gmap string value) (s : State) : State :=
  {| settings := d; settings_file := settings_file s; disk := disk s; views := views s;
     loop_tasks := loop_tasks s |}.

Definition set_settings_file (f : File) (s : State) : State :=
  {| settings := settings s; settings_file := f; disk := disk s; views := views s;
     loop_tasks := loop_tasks s |}.

Definition set_views (v : gmap nat TicketInitialView) (s : State) : State :=
  {| settings := settings s; settings_file := settings_file s; disk := disk s; views := v;
     loop_tasks := loop_tasks s |}.

Definition set_loop_tasks (l : list (Z * Embed)) (s : State) : State :=
  {| settings := settings s; settings_file := settings_file s; disk := disk s;
     views := views s; loop_tasks := l |}.

(** ** Coroutines *)

(** A coroutine is a tree: it returns, lets an exception escape, reads or
    writes the process state (synchronous, no suspension), or awaits a
    platform call and goes on with what the call returned or raised. *)
Inductive prog (A : Type) : Type :=
| Ret (a : A)
| Raise
| Get (k : State -> prog A)
| Put (s : State) (k : prog A)
| Await (c : call) (k : result (ret_type c) -> prog A).
Arguments Ret {A} a.
Arguments Raise {A}.
Arguments Get {A} k.
Arguments Put {A} s k.
Arguments Await {A} c k.

Fixpoint bind {A B} (p : prog A) (f : A -> prog B) : prog B :=
  match p with
  | Ret a => f a
  | Raise => Raise
  | Get k => Get (fun s => bind (k s) f)
  | Put s k => Put s (bind k f)
  | Await c k => Await c (fun r => bind (k r) f)
  end.

Declare Scope prog_scope.
Delimit Scope prog_scope with prog.
Notation "x ← y ; z" := (bind y (fun x => z))
  (at level 20, y at level 100, z at level 200) : prog_scope.
Notation "x ;; z" := (bind x (fun _ => z))
  (at level 100, z at level 200, right associativity) : prog_scope.
Open Scope prog_scope.

(** [try: body except Exception: handler]. *)
Fixpoint try_except {A} (body handler : prog A) : prog A :=
  match body with
  | Ret a => Ret a
  | Raise => handler
  | Get k => Get (fun s => try_except (k s) handler)
  | Put s k => Put s (try_except k handler)
  | Await c k => Await c (fun r => try_except (k r) handler)
  end.

Definition pass : prog unit := Ret tt.

(** [await call]: the result, or the exception of the call. *)
Definition await (c : call) : prog (ret_type c) :=
  Await c (fun r => match r with Raised => Raise | Returned v => Ret v end).

(** [await call] as a statement: the value of the call is dropped. *)
Definition await_ (c : call) : prog unit :=
  Await c (fun r => match r with Raised => Raise | Returned _ => Ret tt end).

Definition get_state : prog State := Get Ret.
Definition modify (f : State -> State) : prog unit := Get (fun s => Put (f s) (Ret tt)).

(** [int(v)] inside a coroutine. *)
Definition int_ (v : value) : prog Z :=
  match int_of_value v with
  | Some n => Ret n
  | None => Raise
  end.

(** The platform decides what every call returns: the answer may depend on
    how many calls came before. *)
Definition oracle := nat -> forall c : call, result (ret_type c).

(** Running one coroutine to its end, alone on the loop: the value (or
    [None] for an escaped exception), the final state and the calls issued,
    in order. *)
Fixpoint run {A} (p : prog A) (env : oracle) (s : State) (tr : list call)
  : option A * State * list call :=
  match p with
  | Ret a => (Some a, s, tr)
  | Raise => (None, s, tr)
  | Get k => run (k s) env s tr
  | Put s' k => run k env s' tr
  | Await c k => run (k (env (List.length tr) c)) env s (tr ++ [c])
  end.

Definition exec {A} (p : prog A) (env : oracle) (s : State) : option A * State * list call :=
  run p env s [].

(** ** Settings IO *)

(** A code point the UTF-8 codec of the file encodes: any but a
    surrogate. *)
Definition encodable_cp (c : N) : bool := negb ((0xD800 <=? c) && (c <=? 0xDFFF))%N.

Definition encodable_value (v : value) : bool :=
  match v with
  | VStr t => forallb encodable_cp t
  | _ => true
  end.

(** A dictionary [json.dump(..., ensure_ascii=False)] can write to the
    file: a string with a surrogate makes the write raise
    [UnicodeEncodeError]. *)
Definition encodable (data : gmap string value) : bool :=
  bool_decide (map_Forall (fun _ v => encodable_value v = true) data).

(** [save_settings(data)]: the file is opened for writing, which empties
    it, and the dictionary is dumped into it.  When the dump raises, the
    file is left cut short and the exception escapes. *)
Definition save_settings (data : gmap string value) : prog unit :=
  s ← get_state;
  match disk s with
  | Refuses => Raise
  | Breaks => (modify (set_settings_file Damaged);; Raise)
  | Works =>
    if encodable data then modify (set_settings_file (Holds data))
    else (modify (set_settings_file Damaged);; Raise)
  end.

(** [load_settings()]: the defaults are written when the file is missing;
    [json.load] raises on a file that is no JSON document. *)
Definition load_settings : prog (gmap string value) :=
  s ← get_state;
  match settings_file s with
  | Missing => (save_settings default_settings;; Ret default_settings)
  | Damaged => Raise
  | Holds data => Ret data
  end.

(** ** Audit log *)

(** The severities the handlers pass to [send_log_embed]: the keys of its
    [color_map]. *)
Inductive Level := debug | info | warning | error | critical.

Definition color_map (l : Level) : Z :=
  match l with
  | debug => 0x95A5A6
  | info => 0x2ECC71
  | warning => 0xE67E22
  | error => 0xE74C3C
  | critical => 0xC0392B
  end.

Definition level_upper (l : Level) : pystr :=
  match l with
  | debug => lit "DEBUG"
  | info => lit "INFO"
  | warning => lit "WARNING"
  | error => lit "ERROR"
  | critical => lit "CRITICAL"
  end.

Definition nonempty (o : option pystr) : option pystr :=
  match o with
  | Some (c :: t) => Some (c :: t)
  | _ => None
  end.

Definition nonzero (o : option Z) : option Z :=
  match o with
  | Some n => if n =? 0 then None else Some n
  | None => None
  end.

Definition log_fields (moderator : option Member) (owner_id channel_id : option Z)
    (reason : option pystr) : list (pystr * pystr * bool) :=
  match moderator with
  | Some m => [(lit "Модератор", mention m ++ lit " (id=" ++ str_of_int (user_id m) ++ lit ")", true)]
  | None => []
  end ++
  match nonzero owner_id with
  | Some o => [(lit "Владелец", lit "<@" ++ str_of_int o ++ lit "> (id=" ++ str_of_int o ++ lit ")", true)]
  | None => []
  end ++
  match nonzero channel_id with
  | Some c => [(lit "Канал", lit "<#" ++ str_of_int c ++ lit ">", true)]
  | None => []
  end ++
  match nonempty reason with
  | Some r => [(lit "Причина", r, false)]
  | None => []
  end.

Definition log_embed (level : Level) (title description : option pystr)
    (moderator : option Member) (owner_id channel_id : option Z)
    (reason : option pystr) : Embed :=
  {| embed_title := default (level_upper level) (nonempty title);
     embed_description := default [] description;
     embed_color := color_map level;
     embed_fields := log_fields moderator owner_id channel_id reason;
     embed_footer := None |}.

(** [send_log_embed]: nothing happens without a usable [log_channel_id];
    otherwise the sending coroutine is put on the loop.  Every exception is
    swallowed. *)
Definition send_log_embed (level : Level) (title description : option pystr)
    (moderator : option Member) (owner_id channel_id : option Z)
    (reason : option pystr) : prog unit :=
  try_except
    (s ← get_state;
     let target := dict_get (settings s) "log_channel_id" in
     if negb (truthy target) then Ret tt
     else
       match int_of_value target with
       | None => Ret tt
       | Some target_id =>
         let embed := log_embed level title description moderator owner_id channel_id reason in
         try_except
           (modify (fun s => set_loop_tasks (loop_tasks s ++ [(target_id, embed)]) s))
           pass
       end)
    pass.

(** ** Intake form *)

Definition fmt_opt (o : option pystr) : pystr :=
  match o with
  | Some s => s
  | None => lit "None"
  end.

(** The [PermissionOverwrite(view_channel=True, send_messages=True,
    read_message_history=True)] of the source. *)
Definition po_read_write : PermissionOverwrite :=
  {| view_channel := Some true; send_messages := Some true; read_message_history := Some true |}.

Module TicketModal.

Definition info_text (nick_val age_val purpose_val from_where_val read_rules_val : pystr) : pystr :=
  lit "**Ник в майнкрафте:** " ++ nick_val ++ nl ++
  lit "**Возраст:** " ++ age_val ++ nl ++
  lit "**Чем будет заниматься:** " ++ purpose_val ++ nl ++
  lit "**Откуда узнал:** " ++ from_where_val ++ nl ++
  lit "**Прочитал правила:** " ++ read_rules_val.

Definition topic (author : Member) : pystr :=
  lit "ticket_owner:" ++ str_of_int (user_id author).

(** [on_submit]: the five arguments are the [.value] of the text inputs
    as the client sent them. *)
Definition on_submit (author : Member) (nick age purpose from_where read_rules : pystr)
    (interaction : Interaction) : prog unit :=
  let guild := guild interaction in
  let nick_val := strip nick in
  let age_val := strip age in
  let purpose_val := strip purpose in
  let from_where_val := strip from_where in
  let read_rules_val := strip read_rules in
  if negb ((3 <=? len nick_val) && (len nick_val <=? 50)) then
    await_ (send_message (lit "❌ Ник должен быть от 3 до 50 символов."))
  else if negb ((1 <=? len age_val) && (len age_val <=? 2)) || negb (isdigit age_val) then
    await_ (send_message (lit "❌ Возраст должен быть числом из 1-2 цифр."))
  else if negb ((50 <=? len purpose_val) && (len purpose_val <=? 500)) then
    await_ (send_message (lit "❌ Поле 'Чем будете заниматься?' должно содержать от 50 до 500 символов."))
  else if negb ((1 <=? len from_where_val) && (len from_where_val <=? 50)) then
    await_ (send_message (lit "❌ Поле 'Откуда узнали' должно содержать от 1 до 50 символов."))
  else if negb ((1 <=? len read_rules_val) && (len read_rules_val <=? 20)) then
    await_ (send_message (lit "❌ Поле 'Прочитали ли правила?' должно содержать от 1 до 20 символов."))
  else
    s ← get_state;
    let staff_role_id := dict_get (settings s) "staff_role_id" in
    let category_id := dict_get (settings s) "ticket_category_id" in
    let overwrites :=
      dict_set (TMember (user_id (me guild))) po_read_write
        (dict_set (TMember (user_id author)) po_read_write
           (dict_set (TRole (default_role guild))
              {| view_channel := Some false; send_messages := None; read_message_history := None |}
              [])) in
    overwrites ←
      (if truthy staff_role_id then
         r ← int_ staff_role_id;
         match get_role guild r with
         | Some role => Ret (dict_set (TRole role) po_read_write overwrites)
         | None => Ret overwrites
         end
       else Ret overwrites);
    category ←
      (if truthy category_id then
         c ← int_ category_id; Ret (get_channel guild c)
       else Ret None);
    let channel_name := firstn 90 (lit "ticket-" ++ user_name author) in
    channel ← await (create_text_channel channel_name overwrites category (topic author));
    let embed :=
      {| embed_title := lit "Новый тикет";
         embed_description := mention author ++ lit ", ваш тикет создан.";
         embed_color := EMBED_COLOR;
         embed_fields :=
           [(lit "Информация",
             info_text nick_val age_val purpose_val from_where_val read_rules_val, false)];
         embed_footer :=
           Some (lit "Тикет от " ++ display_name author ++ lit " | ID: " ++ str_of_int (user_id author)) |} in
    s ← get_state;
    let view := fresh (dom (views s)) in
    modify (fun s =>
      set_views (<[view :=
        {| initial_ticket :=
             {| owner := author; nick_text := nick_val; age := Some age_val;
                purpose := Some purpose_val; from_where := Some from_where_val;
                read_rules := Some read_rules_val |};
           taken_by := None |}]> (views s)) s);;
    await_ (channel_send channel (mention author) (Some embed) (Some view));;
    await_ (send_message (lit "Тикет создан: " ++ channel_mention channel)).

End TicketModal.

(** ** Settings editor *)

Module GenericValueModal.

Definition on_submit (option_key : string) (new_val : pystr) (interaction : Interaction)
    : prog unit :=
  let key := option_key in
  if endswith key "_id" then
    match str_to_int_maybe new_val with
    | None => await_ (send_message (lit "❌ Значение должно быть числом (ID)."))
    | Some conv =>
      modify (fun s => set_settings (<[key := VInt conv]> (settings s)) s);;
      s ← get_state;
      save_settings (settings s);;
      await_ (send_message (lit "✅ Настройка **" ++ py key ++ lit "** обновлена."))
    end
  else
    modify (fun s => set_settings (<[key := VStr new_val]> (settings s)) s);;
    s ← get_state;
    save_settings (settings s);;
    await_ (send_message (lit "✅ Настройка **" ++ py key ++ lit "** обновлена.")).

End GenericValueModal.

(** The keys the settings menu offers, and its callback. *)
Module SettingsSelect.

Definition options : list string :=
  [ "ticket_message_text"; "ticket_button_channel_id"; "log_channel_id";
    "ticket_category_id"; "staff_role_id"; "accepted_role_id";
    "accept_message"; "reject_message" ]%string.

Definition callback (key : string) (interaction : Interaction) : prog unit :=
  await_ (send_modal (GenericValueModal key (lit "Изменение: " ++ py key))).

End SettingsSelect.

Module OpenTicketView.

Definition open_ticket (interaction : Interaction) : prog unit :=
  await_ (send_modal (TicketModal (user interaction))).

End OpenTicketView.

(** ** Claiming a ticket *)

Module TicketInitialView.

(** Reading [self]: the view object behind the reference. *)
Definition self_ (self : nat) : prog TicketInitialView :=
  s ← get_state;
  match views s !! self with
  | Some v => Ret v
  | None => Raise
  end.

(** [self.taken_by = uid]. *)
Definition set_taken_by (self : nat) (uid : Z) : prog unit :=
  modify (fun s =>
    set_views
      (alter (fun v => {| initial_ticket := initial_ticket v; taken_by := Some uid |}) self (views s))
      s).

(** The body of the [try] block of [take_button]: the staff role loses
    the right to write in the channel, the claimant and the requester
    are given it. *)
Definition restrict_channel (self : nat) (interaction : Interaction) (staff_role_id : value)
    : prog unit :=
  match channel interaction with
  | Some ch =>
    (if truthy staff_role_id then
       r ← int_ staff_role_id;
       match get_role (guild interaction) r with
       | Some role =>
         await_ (set_permissions ch (TRole role)
                  {| view_channel := Some true; send_messages := Some false;
                     read_message_history := Some true |})
       | None => Ret tt
       end
     else Ret tt);;
    await_ (set_permissions ch (TMember (user_id (user interaction))) po_read_write);;
    v ← self_ self;
    match get_member (guild interaction) (user_id (owner v)) with
    | Some owner_member =>
      await_ (set_permissions ch (TMember (user_id owner_member)) po_read_write)
    | None => Ret tt
    end
  | None => Ret tt
  end.

Definition take_button (self : nat) (interaction : Interaction) : prog unit :=
  s ← get_state;
  let staff_role_id := dict_get (settings s) "staff_role_id" in
  if bool_decide (staff_role_id = VNone) then
    await_ (send_message (lit "❌ Роль модераторов не настроена."))
  else
    let allowed := false in
    r ← int_ staff_role_id;
    let role := get_role (guild interaction) r in
    let allowed :=
      match role with
      | Some role => if bool_decide (role ∈ user_roles (user interaction)) then true else allowed
      | None => allowed
      end in
    let allowed := if administrator (user interaction) then true else allowed in
    if negb allowed then
      await_ (send_message (lit "❌ У вас нет прав принять тикет."))
    else
      v ← self_ self;
      if bool_decide (taken_by v ≠ None) then
        await_ (send_message (lit "⚠ Этот тикет уже занят."))
      else
        set_taken_by self (user_id (user interaction));;
        try_except (restrict_channel self interaction staff_role_id) pass;;
        v ← self_ self;
        await_ (edit_message {| taken_ticket := initial_ticket v; taker_id := taken_by v |}).

End TicketInitialView.

(** ** The claimed ticket *)

Module TicketTakenView.

Definition _is_taker_or_admin (self : TicketTakenView) (interaction : Interaction) : bool :=
  bool_decide (Some (user_id (user interaction)) = taker_id self)
  || administrator (user interaction).

Definition ticket_text (self : TicketTakenView) : pystr :=
  lit "**Ник:** " ++ nick_text self ++ nl ++
  lit "**Возраст:** " ++ fmt_opt (age self) ++ nl ++
  lit "**Чем будет заниматься:** " ++ fmt_opt (purpose self) ++ nl ++
  lit "**Откуда узнал:** " ++ fmt_opt (from_where self) ++ nl ++
  lit "**Прочитал правила:** " ++ fmt_opt (read_rules self).

Definition accept_embed (s : State) : Embed :=
  let accept_text := dict_get_default (settings s) "accept_message" VNone in
  let description := lit "-# С уважением команда Abyss" in
  let description :=
    if truthy accept_text then str_of_value accept_text ++ nl ++ nl ++ description
    else description in
  {| embed_title := lit "Ваша заявка принята!"; embed_description := description;
     embed_color := EMBED_COLOR; embed_fields := []; embed_footer := None |}.

Definition accept_final (self : TicketTakenView) (interaction : Interaction) : prog unit :=
  if negb (_is_taker_or_admin self interaction) then
    await_ (send_message (lit "⚠ Только модератор, взявший тикет, может это сделать."))
  else
    let guild := guild interaction in
    match get_member guild (user_id (owner self)) with
    | Some member =>
      try_except (await_ (member_edit (user_id member) (nick_text self))) pass;;
      s ← get_state;
      let accepted_role_id := dict_get (settings s) "accepted_role_id" in
      (if truthy accepted_role_id then
         r ← int_ accepted_role_id;
         match get_role guild r with
         | Some role =>
           try_except (await_ (add_roles (user_id member) role (lit "Тикет принят"))) pass
         | None => Ret tt
         end
       else Ret tt);;
      try_except
        (s ← get_state;
         await_ (member_send (user_id member) (accept_embed s)))
        pass
    | None => Ret tt
    end;;
    await_ (send_message (lit "✔ Тикет принят и пользователь уведомлён (если возможно)."));;
    try_except
      (let chan := channel interaction in
       let taker := user interaction in
       let owner_id := user_id (owner self) in
       let channel_id := chan in
       send_log_embed info (Some (lit "Заявка принята"))
         (Some (lit "Тикет принят модератором " ++ user_str taker ++ lit " (id="
                ++ str_of_int (user_id taker) ++ lit ")" ++ nl ++ nl ++ ticket_text self))
         (Some taker) (Some owner_id) channel_id None;;
       try_except
         (match chan with
          | Some ch => await_ (channel_delete ch)
          | None => Ret tt
          end)
         pass)
      pass.

Definition reject_ticket (self : TicketTakenView) (interaction : Interaction) : prog unit :=
  if negb (_is_taker_or_admin self interaction) then
    await_ (send_message (lit "⚠ Только модератор, взявший тикет, может отклонить."))
  else
    let owner_member := get_member (guild interaction) (user_id (owner self)) in
    await_ (send_modal (RejectReasonModal self owner_member)).

(** [msg + text]: a [TypeError] unless [msg] is a string. *)
Definition add_str (msg : value) (text : pystr) : prog pystr :=
  match msg with
  | VStr s => Ret (s ++ text)
  | _ => Raise
  end.

(** [RejectReasonModal.on_submit]; [reason] is the [.value] of the
    optional text input. *)
Definition RejectReasonModal_on_submit (self : TicketTakenView) (owner_member : option Member)
    (reason : pystr) (modal_interaction : Interaction) : prog unit :=
  s ← get_state;
  let msg := dict_get_default (settings s) "reject_message" (VStr (lit "Ваш тикет был отклонён.")) in
  let msg :=
    match reason with
    | [] => msg
    | _ => VStr (str_of_value msg ++ nl ++ nl ++ lit "**Причина:** " ++ reason)
    end in
  try_except
    (match owner_member with
     | Some owner_member =>
       description ← add_str msg (nl ++ nl ++ lit "-# С уважением команда Abyss");
       await_ (member_send (user_id owner_member)
                {| embed_title := lit "Ваша заявка отклонена!"; embed_description := description;
                   embed_color := EMBED_COLOR; embed_fields := []; embed_footer := None |})
     | None => Ret tt
     end)
    pass;;
  await_ (send_message (lit "❌ Тикет отклонён. Игрок уведомлён (если возможно)."));;
  try_except
    (let taker := user modal_interaction in
     let owner_id := user_id (owner self) in
     let ch_id := channel modal_interaction in
     let reason_text := reason in
     send_log_embed warning (Some (lit "Заявка отклонена"))
       (Some (lit "Тикет отклонён модератором " ++ user_str taker ++ lit " (id="
              ++ str_of_int (user_id taker) ++ lit ")" ++ nl ++ nl ++ ticket_text self))
       (Some taker) (Some owner_id) ch_id (Some reason_text);;
     try_except
       (match channel modal_interaction with
        | Some ch => await_ (channel_delete ch)
        | None => Ret tt
        end)
       pass)
    pass.

Definition delete_ticket (self : TicketTakenView) (interaction : Interaction) : prog unit :=
  if negb (_is_taker_or_admin self interaction) then
    await_ (send_message (lit "⚠ Только модератор, взявший тикет, может удалить канал."))
  else
    await_ (send_message (lit "Канал удаляется..."));;
    try_except
      (match channel interaction with
       | Some ch => await_ (channel_delete ch)
       | None => Raise
       end)
      pass.

Definition add_moderator (self : TicketTakenView) (interaction : Interaction) : prog unit :=
  if negb (_is_taker_or_admin self interaction) then
    await_ (send_message (lit "⚠ Только модератор, взявший тикет, может это сделать."))
  else
    await_ (send_modal (AddModeratorModal self)).

(** [guild.get_member(mid)], then [guild.fetch_member(mid)] when the
    cache has no such member. *)
Definition resolve_member (guild : Guild) (mid : Z) : prog (option Member) :=
  match get_member guild mid with
  | Some member => Ret (Some member)
  | None =>
    try_except (member ← await (fetch_member mid); Ret (Some member)) (Ret None)
  end.

(** [AddModeratorModal.on_submit]; [moderator] is the [.value] of the
    text input. *)
Definition AddModeratorModal_on_submit (moderator : pystr) (modal_interaction : Interaction)
    : prog unit :=
  let raw := strip moderator in
  match re_search_id raw with
  | None => await_ (send_message (lit "❌ Не удалось распознать ID пользователя."))
  | Some m =>
    match int_of_str m with
    | None => await_ (send_message (lit "❌ Неверный ID."))
    | Some mid =>
      let guild := guild modal_interaction in
      member ← resolve_member guild mid;
      match member with
      | None => await_ (send_message (lit "❌ Пользователь не найден на сервере."))
      | Some member =>
        try_except
          (match channel modal_interaction with
           | None => Raise
           | Some ch =>
             await_ (set_permissions ch (TMember (user_id member)) po_read_write);;
             await_ (channel_send ch
                      (mention member ++ lit " Вы были добавлены в тикет " ++ channel_mention ch)
                      None None);;
             await_ (send_message (lit "✔ Модератор добавлен в тикет."));;
             try_except
               (send_log_embed info (Some (lit "Модератор добавлен в тикет"))
                  (Some (lit "Пользователь " ++ mention member ++ lit " добавлен в тикет пользователем "
                         ++ user_str (user modal_interaction) ++ lit " (id="
                         ++ str_of_int (user_id (user modal_interaction)) ++ lit ")"))
                  (Some member) None (Some ch) None)
               pass
           end)
          (await_ (send_message (lit "❌ Не удалось установить права или отправить сообщение.")))
      end
    end
  end.

End TicketTakenView.

(** ** The event loop *)

(** The synchronous stretch of a coroutine: state accesses are executed up
    to the next await, return or exception. *)
Fixpoint advance {A} (p : prog A) (s : State) : State * prog A :=
  match p with
  | Get k => advance (k s) s
  | Put s' k => advance k s'
  | _ => (s, p)
  end.

(** A task: what is left of the coroutine and the calls it has issued. *)
Definition task (A : Type) : Type := prog A * list call.

(** One turn of a task on the loop: its synchronous stretch runs, and at an
    await the call is issued and the task is parked on the answer. *)
Definition turn {A} (answer : forall c : call, result (ret_type c)) (t : task A) (s : State)
  : task A * State :=
  let '(s', p) := advance (fst t) s in
  match p with
  | Await c k => ((k (answer c), snd t ++ [c]), s')
  | _ => ((p, snd t), s')
  end.

Definition finished {A} (t : task A) : bool :=
  match fst t with
  | Ret _ | Raise => true
  | _ => false
  end.

(** Two tasks on the loop; the schedule says which one gets each turn, and
    the platform answers the call of turn [n] with [env n]. *)
Fixpoint interleave {A} (sched : list bool) (env : oracle) (n : nat)
    (t1 t2 : task A) (s : State) : task A * task A * State :=
  match sched with
  | [] => (t1, t2, s)
  | true :: sched' =>
    let '(t1', s') := turn (env n) t1 s in interleave sched' env (S n) t1' t2 s'
  | false :: sched' =>
    let '(t2', s') := turn (env n) t2 s in interleave sched' env (S n) t1 t2' s'
  end.

(** ** Vocabulary of the statements *)

(** The three components of a run. *)
Definition value_of {A} (r : option A * State * list call) : option A := fst (fst r).
Definition state_of {A} (r : option A * State * list call) : State := snd (fst r).
Definition calls_of {A} (r : option A * State * list call) : list call := snd r.

(** The channel [send_log_embed] writes to: a truthy [log_channel_id] that
    [int] accepts. *)
Definition log_target (s : State) : option Z :=
  let target := dict_get (settings s) "log_channel_id" in
  if truthy target then int_of_value target else None.

Definition logged (s : State) (e : Embed) : State :=
  match log_target s with
  | Some t => set_loop_tasks (loop_tasks s ++ [(t, e)]) s
  | None => s
  end.

(** The acknowledgement of [accept_final]. *)
Definition msg_accepted : pystr :=
  lit "✔ Тикет принят и пользователь уведомлён (если возможно).".

(** The role grant of [accept_final] for a resolved requester: one call when
    [accepted_role_id] is set and names a role of the guild, none
    otherwise. *)
Definition accept_role_call (interaction : Interaction) (s : State) (member : Member)
  : list call :=
  let accepted_role_id := dict_get (settings s) "accepted_role_id" in
  if truthy accepted_role_id then
    match int_of_value accepted_role_id with
    | Some r =>
      match get_role (guild interaction) r with
      | Some role => [add_roles (user_id member) role (lit "Тикет принят")]
      | None => []
      end
    | None => []
    end
  else [].

(** The claimant or an administrator. *)
Definition taker_or_administrator (self : TicketTakenView) (interaction : Interaction) : Prop :=
  Some (user_id (user interaction)) = taker_id self \/ administrator (user interaction) = true.

(** An audit entry of the given level and title. *)
Definition audit_entry (level : Level) (title : pystr) (e : Embed) : Prop :=
  embed_color e = color_map level /\ embed_title e = title.

(** ** Sample data *)

Module Sample.

Definition member (uid : Z) (roles : list Z) (adm : bool) : Member :=
  {| user_id := uid; user_name := lit "user" ++ str_of_int uid;
     display_name := lit "User " ++ str_of_int uid; user_str := lit "user" ++ str_of_int uid;
     user_roles := roles; administrator := adm |}.

(** The requester, a staff member holding role 100, a second staff
    member, an outsider and an administrator. *)
Definition requester : Member := member 1 [] false.
Definition staff : Member := member 2 [100] false.
Definition staff' : Member := member 3 [100] false.
Definition outsider : Member := member 4 [] false.
Definition admin : Member := member 5 [] true.
Definition bot : Member := member 9 [] false.

Definition server : Guild :=
  {| guild_roles := {[100; 200]};
     guild_members :=
       <[1 := requester]> (<[2 := staff]> (<[3 := staff']> (<[4 := outsider]> (<[5 := admin]> ∅))));
     guild_channels := {[50]};
     default_role := 10;
     me := bot |}.

(** The same guild after the requester has left. *)
Definition server_left : Guild :=
  {| guild_roles := {[100; 200]};
     guild_members := <[2 := staff]> (<[3 := staff']> (<[4 := outsider]> (<[5 := admin]> ∅)));
     guild_channels := {[50]};
     default_role := 10;
     me := bot |}.

Definition press (g : Guild) (m : Member) : Interaction :=
  {| user := m; guild := g; channel := Some 500 |}.

Definition ticket : Ticket :=
  {| owner := requester; nick_text := lit "Steve"; age := Some (lit "20");
     purpose := Some (lit "build"); from_where := Some (lit "friend");
     read_rules := Some (lit "yes") |}.

Definition taken : TicketTakenView := {| taken_ticket := ticket; taker_id := Some 2 |}.

(** Settings with the staff role set, and the state of a process with
    one open ticket. *)
Definition with_staff : gmap string value := <["staff_role_id" := VInt 100]> default_settings.

Definition state (d : gmap string value) (claimant : option Z) : State :=
  {| settings := d; settings_file := Holds d; disk := Works;
     views := {[ 0%nat := {| initial_ticket := ticket; taken_by := claimant |} ]};
     loop_tasks := [] |}.

(** A platform on which every call succeeds. *)
Definition all_ok : oracle :=
  fun _ c =>
    match c return result (ret_type c) with
    | create_text_channel _ _ _ _ => Returned 500
    | fetch_member uid => Returned (member uid [] false)
    | _ => Returned tt
    end.

(** A platform on which every call fails. *)
Definition all_fail : oracle := fun _ c => Raised.

End Sample.

(** The staff role a claim is checked against: [staff_role_id] when it is
    not [None] and [int] accepts it. *)
Definition staff_role (s : State) : option Z :=
  match dict_get (settings s) "staff_role_id" with
  | VNone => None
  | v => int_of_value v
  end.

(** The actor holds the role (a role of the guild, among the actor's
    roles) or is an administrator. *)
Definition holds_role_or_admin (role : Z) (interaction : Interaction) : Prop :=
  (role ∈ guild_roles (guild interaction) /\ role ∈ user_roles (user interaction))
  \/ administrator (user interaction) = true.

(** The state once [uid] has claimed the ticket of view [self]. *)
Definition claimed (self : nat) (uid : Z) (s : State) : State :=
  set_views
    (alter (fun v => {| initial_ticket := initial_ticket v; taken_by := Some uid |}) self (views s))
    s.

Definition is_set_permissions (c : call) : Prop :=
  exists ch t po, c = set_permissions ch t po.

(** The replies of [take_button]. *)
Definition msg_no_staff_role : pystr := lit "❌ Роль модераторов не настроена.".
Definition msg_not_allowed : pystr := lit "❌ У вас нет прав принять тикет.".
Definition msg_already_taken : pystr := lit "⚠ Этот тикет уже занят.".

(** What [take_button] still has to do once it has recorded the claimant:
    the [try] block and the switch to the claimed view. *)
Definition claim_tail (self : nat) (interaction : Interaction) (staff_role_id : value)
  : prog unit :=
  try_except (TicketInitialView.restrict_channel self interaction staff_role_id) pass;;
  v ← TicketInitialView.self_ self;
  await_ (edit_message {| taken_ticket := initial_ticket v; taker_id := taken_by v |}).

(** A coroutine that has returned or let an exception escape. *)
Definition final (p : prog unit) : Prop := p = Ret tt \/ p = Raise.

(** [finishing s last n p]: run in state [s], the coroutine [p] never
    writes the state and issues at most [n] calls, permission updates
    followed by the call [last], after which it has ended. *)
Inductive finishing (s : State) (last : call) : nat -> prog unit -> Prop :=
| fin_get n k :
    finishing s last n (k s) -> finishing s last n (Get k)
| fin_perm n c k :
    is_set_permissions c -> (forall r, finishing s last n (k r)) ->
    finishing s last (S n) (Await c k)
| fin_last n k :
    (forall r, final (k r)) -> finishing s last (S n) (Await last k).

(** The calls of a successful claim: permission updates, then the switch
    to the claimed view. *)
Definition won_calls (last : call) (tr : list call) : Prop :=
  exists perms, Forall is_set_permissions perms /\ tr = perms ++ [last].

(** A task that has claimed the ticket: still updating permissions, with
    at most [b] turns to go, or done. *)
Definition winning (s : State) (last : call) (b : nat) (t : task unit) : Prop :=
  (exists n, (n <= b)%nat /\ finishing s last n (fst t) /\ Forall is_set_permissions (snd t))
  \/ (final (fst t) /\ won_calls last (snd t)).

(** A task that finds the ticket claimed: not started yet, or refused. *)
Definition losing (p0 : prog unit) (b : nat) (t : task unit) : Prop :=
  (t = (p0, []) /\ (1 <= b)%nat)
  \/ (final (fst t) /\ snd t = [send_message msg_already_taken]).

(** The switch to the claimed view for claimant [uid]. *)
Definition edit_for (v : TicketInitialView) (uid : Z) : call :=
  edit_message {| taken_ticket := initial_ticket v; taker_id := Some uid |}.

(** The number of turns a schedule gives to the first ([true]) or to the
    second ([false]) task. *)
Definition turns (b : bool) (sched : list bool) : nat :=
  List.length (List.filter (Bool.eqb b) sched).

(** Where two interleaved claims on the view [self], open in state [s0],
    can be: nobody has claimed yet, or one task has claimed and the other
    has lost or will.  [b1] and [b2] bound the turns each task still
    needs. *)
Definition two_claims (self : nat) (s0 : State) (v : TicketInitialView)
    (i1 i2 : Interaction) (b1 b2 : nat) (t1 t2 : task unit) (s : State) : Prop :=
  let p1 := TicketInitialView.take_button self i1 in
  let p2 := TicketInitialView.take_button self i2 in
  let uid1 := user_id (user i1) in
  let uid2 := user_id (user i2) in
  (s = s0 /\ t1 = (p1, []) /\ t2 = (p2, []) /\ (4 <= b1)%nat /\ (4 <= b2)%nat)
  \/ (s = claimed self uid1 s0 /\ winning s (edit_for v uid1) b1 t1 /\ losing p2 b2 t2)
  \/ (s = claimed self uid2 s0 /\ losing p1 b1 t1 /\ winning s (edit_for v uid2) b2 t2).

(** The refusals of the intake form, one per field. *)
Definition msg_nick : pystr := lit "❌ Ник должен быть от 3 до 50 символов.".
Definition msg_age : pystr := lit "❌ Возраст должен быть числом из 1-2 цифр.".
Definition msg_purpose : pystr :=
  lit "❌ Поле 'Чем будете заниматься?' должно содержать от 50 до 500 символов.".
Definition msg_from_where : pystr :=
  lit "❌ Поле 'Откуда узнали' должно содержать от 1 до 50 символов.".
Definition msg_read_rules : pystr :=
  lit "❌ Поле 'Прочитали ли правила?' должно содержать от 1 до 20 символов.".

(** The documented length constraints, read on a field value. *)
Definition length_between (lo hi : Z) (s : pystr) : Prop := lo <= len s <= hi.

(** What the age check of the form lets pass: one or two characters that
    [str.isdigit] accepts, which are the decimal digits of every script
    and also the digit characters that are no decimal digits
    (superscripts, circled digits and the like). *)
Definition age_ok (s : pystr) : Prop :=
  length_between 1 2 s /\ Forall (fun c => isdigit_cp c = true) s.

(** A character that is no digit of any kind: [str.isdigit] refuses
    it. *)
Definition no_digit (c : N) : Prop := isdigit_cp c = false.

(** The violations of the age constraint that the form is bound to
    refuse: a length outside 1 to 2, or a character that is no digit of any
    kind.  An age written with digit characters other than the decimal
    digits is left out: the form lets it pass. *)
Definition age_violated (s : pystr) : Prop :=
  ~ length_between 1 2 s \/ Exists no_digit s.

(** A text of ASCII digits only: the plain reading of a numeric field. *)
Definition numeric (s : pystr) : Prop := Forall (fun c => (48 <= c <= 57)%N) s.

(** A handler that refuses: one reply, nothing else, no state change. *)
Definition refused (r : option unit * State * list call) (s : State) (m : pystr) : Prop :=
  state_of r = s /\ calls_of r = [send_message m].

Definition is_create_text_channel (c : call) : bool :=
  match c with
  | create_text_channel _ _ _ _ => true
  | _ => false
  end.

(** A setting that [int] accepts whenever it is truthy: an identifier that
    is usable or switched off. *)
Definition usable_id (v : value) : Prop :=
  truthy v = true -> int_of_value v <> None.

(** Reading the owner back from a channel topic. *)
Definition topic_owner (topic : pystr) : option Z :=
  if decide (take 13 topic = lit "ticket_owner:") then int_value (drop 13 topic) else None.

(** The replies of the add-moderator form. *)
Definition msg_unrecognised : pystr := lit "❌ Не удалось распознать ID пользователя.".
Definition msg_not_found : pystr := lit "❌ Пользователь не найден на сервере.".
Definition msg_added : pystr := lit "✔ Модератор добавлен в тикет.".
Definition msg_add_failed : pystr :=
  lit "❌ Не удалось установить права или отправить сообщение.".

(** The notice posted in the ticket channel. *)
Definition added_notice (member : Member) (ch : Z) : pystr :=
  mention member ++ lit " Вы были добавлены в тикет " ++ channel_mention ch.

Definition decimal_run (d : pystr) : Prop := Forall (fun c => isdecimal_cp c = true) d.

(** [m] is the leftmost run of 17 to 20 decimal digits of [raw], as long
    as the text allows up to 20. *)
Definition first_id_run (raw m : pystr) : Prop :=
  exists pre post,
    raw = pre ++ m ++ post /\ decimal_run m /\ (17 <= List.length m <= 20)%nat /\
    (List.length m = 20%nat \/ post = [] \/ exists c t, post = c :: t /\ isdecimal_cp c = false) /\
    (forall pre' d post', raw = pre' ++ d ++ post' ->
       (List.length pre' < List.length pre)%nat -> decimal_run d -> (List.length d < 17)%nat).

Definition no_id_run (raw : pystr) : Prop :=
  forall pre d post, raw = pre ++ d ++ post -> decimal_run d -> (List.length d < 17)%nat.

(** The identity resolves to [member]: from the guild cache, or by a fetch
    that is then the first call. *)
Definition resolves (g : Guild) (env : oracle) (mid : Z) (member : Member) (fetched : list call)
  : Prop :=
  (get_member g mid = Some member /\ fetched = [])
  \/ (get_member g mid = None /\ env 0%nat (fetch_member mid) = Returned member /\
      fetched = [fetch_member mid]).

(** The replies of the settings form. *)
Definition msg_not_a_number : pystr := lit "❌ Значение должно быть числом (ID).".
Definition msg_updated (key : string) : pystr :=
  lit "✅ Настройка **" ++ py key ++ lit "** обновлена.".

(** Whether [save_settings(data)] goes through in state [s]. *)
Definition dumps (data : gmap string value) (s : State) : bool :=
  match disk s with
  | Works => encodable data
  | _ => false
  end.

(** What [save_settings(data)] leaves on disk. *)
Definition left_on_disk (data : gmap string value) (s : State) : File :=
  match disk s with
  | Refuses => settings_file s
  | Breaks => Damaged
  | Works => if encodable data then Holds data else Damaged
  end.

(** The state after [settings[key] = v] and [save_settings(settings)],
    whether the dump went through or raised. *)
Definition stored (key : string) (v : value) (s : State) : State :=
  set_settings_file (left_on_disk (<[key := v]> (settings s)) s)
    (set_settings (<[key := v]> (settings s)) s).

(** An identifier setting: null or an integer. *)
Definition id_value (v : value) : Prop := v = VNone \/ exists n, v = VInt n.

Definition ids_integer (d : gmap string value) : Prop :=
  forall k, endswith k "_id" = true -> id_value (dict_get d k).

(** An identifier setting as the documented invariant wants it: null or a
    positive integer. *)
Definition id_positive (v : value) : Prop := v = VNone \/ exists n, v = VInt n /\ 0 < n.

Definition ids_positive (d : gmap string value) : Prop :=
  forall k, endswith k "_id" = true -> id_positive (dict_get d k).

(** The number of digits of the decimal numeral of an integer. *)
Definition numeral_digits (z : Z) : nat := List.length (str_of_int (Z.abs z)).

(** ** More of the vocabulary: deletion, rejection, startup *)

(** The overwrite that lets its holder see a channel, write in it and
    read its history. *)
Definition full_access : PermissionOverwrite :=
  {| view_channel := Some true; send_messages := Some true; read_message_history := Some true |}.

(** The acknowledgements of [delete_ticket] and of the rejection form. *)
Definition msg_deleting : pystr := lit "Канал удаляется...".
Definition msg_rejected : pystr := lit "❌ Тикет отклонён. Игрок уведомлён (если возможно).".

(** The notification a rejected requester receives: the configured text,
    the reason when one was typed, and the signature. *)
Definition reject_notice (text reason : pystr) : Embed :=
  {| embed_title := lit "Ваша заявка отклонена!";
     embed_description :=
       match reason with
       | [] => text
       | _ => text ++ nl ++ nl ++ lit "**Причина:** " ++ reason
       end ++ nl ++ nl ++ lit "-# С уважением команда Abyss";
     embed_color := EMBED_COLOR; embed_fields := []; embed_footer := None |}.

(** The configured rejection text: [settings.get("reject_message", ...)]. *)
Definition reject_text (s : State) : value :=
  dict_get_default (settings s) "reject_message" (VStr (lit "Ваш тикет был отклонён.")).

(** [settings = load_settings()], the module-level statement that runs
    when the program starts. *)
Definition startup : prog unit :=
  d ← load_settings;
  modify (set_settings d).

(** The body of the [test_log] command (the administrator check in front
    of it is the framework's). *)
Definition test_log (interaction : Interaction) : prog unit :=
  send_log_embed debug (Some (lit "Тестовый лог"))
    (Some (lit "Test log from " ++ user_str (user interaction) ++ lit " (id="
           ++ str_of_int (user_id (user interaction)) ++ lit ")"))
    (Some (user interaction)) None None None;;
  await_ (send_message (lit "✔ Тестовый лог отправлен (если настроен канал).")).

(** ** More of the vocabulary: the overwrites of a ticket channel *)

(** The overwrite that hides the channel. *)
Definition deny_view : PermissionOverwrite :=
  {| view_channel := Some false; send_messages := None; read_message_history := None |}.

(** The staff role the intake form lets into the channel: a truthy
    [staff_role_id] that [int] accepts and that names a role of the
    guild. *)
Definition granted_role (g : Guild) (s : State) : option Z :=
  let v := dict_get (settings s) "staff_role_id" in
  if truthy v then
    match int_of_value v with
    | Some r => get_role g r
    | None => None
    end
  else None.

(** [overwrites.get(t)]. *)
Definition overwrite_of (t : target) (ow : list (target * PermissionOverwrite))
  : option PermissionOverwrite :=
  match find (fun e => bool_decide (fst e = t)) ow with
  | Some e => Some (snd e)
  | None => None
  end.

(** ** More of the vocabulary: where the log goes *)

(** The tasks one log entry adds to the loop, read off the value of
    [log_channel_id]. *)
Definition log_route (v : value) (e : Embed) : list (Z * Embed) :=
  match v with
  | VNone => []
  | VInt n => if n =? 0 then [] else [(n, e)]
  | VStr t =>
    match int_of_str t with
    | Some n => [(n, e)]
    | None => []
    end
  end.

(** The acknowledgement of [test_log]. *)
Definition msg_test_log : pystr := lit "✔ Тестовый лог отправлен (если настроен канал).".

(** A text made of whitespace only (the empty text included). *)
Definition blank (s : pystr) : Prop := Forall (fun c => isspace_cp c = true) s.

(** Spaces, tabs and line breaks: the whitespace [int] skips as it is
    ([Py_ISSPACE]). *)
Definition padding (ws : pystr) : Prop := Forall (fun c => ascii_isspace c = true) ws.

(** The overwrite that lets a role read a claimed ticket without writing
    in it. *)
Definition po_read_only : PermissionOverwrite :=
  {| view_channel := Some true; send_messages := Some false; read_message_history := Some true |}.

(** The permission updates of a claim in channel [ch], as far as the
    platform lets them go: the staff role, the claimant, the requester. *)
Definition claim_updates (env : oracle) (interaction : Interaction) (role : Z)
    (v : TicketInitialView) (ch : Z) : list call :=
  let lock := set_permissions ch (TRole role) po_read_only in
  let actor := set_permissions ch (TMember (user_id (user interaction))) full_access in
  lock ::
  match env 0%nat lock with
  | Raised => []
  | Returned _ =>
    actor ::
    match env 1%nat actor with
    | Raised => []
    | Returned _ =>
      match get_member (guild interaction) (user_id (owner v)) with
      | Some owner_member =>
        [set_permissions ch (TMember (user_id owner_member)) full_access]
      | None => []
      end
    end
  end.

(** One submission of the settings form, and a run of them. *)
Definition submit (env : oracle) (interaction : Interaction) (s : State)
    (kv : string * pystr) : State :=
  state_of (exec (GenericValueModal.on_submit (fst kv) (snd kv) interaction) env s).

Definition submit_all (env : oracle) (interaction : Interaction)
    (subs : list (string * pystr)) (s : State) : State :=
  fold_left (submit env interaction) subs s.

(* END DEFINITIONS *)

(** * Properties *)

(** ** Running coroutines *)

Lemma run_bind {A B} (p : prog A) (f : A -> prog B) env s tr :
  run (bind p f) env s tr =
  match run p env s tr with
  | (Some a, s', tr') => run (f a) env s' tr'
  | (None, s', tr') => (None, s', tr')
  end.
Proof.
  revert s tr. induction p as [a| |k IH|s' k IH|c k IH]; intros s tr; simpl; auto.
Qed.

Lemma run_try_except {A} (body handler : prog A) env s tr :
  run (try_except body handler) env s tr =
  match run body env s tr with
  | (Some a, s', tr') => (Some a, s', tr')
  | (None, s', tr') => run handler env s' tr'
  end.
Proof.
  revert s tr. induction body as [a| |k IH|s' k IH|c k IH]; intros s tr; simpl; auto.
Qed.

(** A statement-level await issues its call and leaves the state alone;
    it fails exactly when the call raises. *)
Lemma run_await_ c env s tr :
  run (await_ c) env s tr =
  (match env (List.length tr) c with Raised => None | Returned _ => Some tt end, s, tr ++ [c]).
Proof. simpl. destruct (env _ c); reflexivity. Qed.

Lemma run_await c env s tr :
  run (await c) env s tr =
  (match env (List.length tr) c with Raised => None | Returned v => Some v end, s, tr ++ [c]).
Proof. simpl. destruct (env _ c); reflexivity. Qed.

(** A reply to the actor and nothing else. *)
Lemma exec_reply m env s :
  state_of (exec (await_ (send_message m)) env s) = s /\
  calls_of (exec (await_ (send_message m)) env s) = [send_message m].
Proof. unfold exec. rewrite run_await_. split; reflexivity. Qed.

(** [send_log_embed] never fails and issues no call: with a log channel
    configured it puts one task on the loop, otherwise it does nothing. *)
Lemma run_send_log_embed level title description moderator owner_id channel_id reason env s tr :
  run (send_log_embed level title description moderator owner_id channel_id reason) env s tr =
  (Some tt, logged s (log_embed level title description moderator owner_id channel_id reason), tr).
Proof.
  unfold send_log_embed, logged, log_target. simpl.
  destruct (truthy (dict_get (settings s) "log_channel_id")); simpl; [|reflexivity].
  destruct (int_of_value (dict_get (settings s) "log_channel_id")); reflexivity.
Qed.

Lemma logged_settings s e : settings (logged s e) = settings s.
Proof. unfold logged. destruct (log_target s); reflexivity. Qed.

Lemma logged_views s e : views (logged s e) = views s.
Proof. unfold logged. destruct (log_target s); reflexivity. Qed.

Lemma logged_settings_file s e : settings_file (logged s e) = settings_file s.
Proof. unfold logged. destruct (log_target s); reflexivity. Qed.

(** ** Claimed tickets: who may act *)

Lemma not_taker_or_admin self interaction :
  Some (user_id (user interaction)) <> taker_id self ->
  administrator (user interaction) = false ->
  TicketTakenView._is_taker_or_admin self interaction = false.
Proof.
  intros Hne Hadm. unfold TicketTakenView._is_taker_or_admin.
  rewrite Hadm, orb_false_r. apply bool_decide_eq_false. exact Hne.
Qed.

Lemma taker_or_admin self interaction :
  taker_or_administrator self interaction ->
  TicketTakenView._is_taker_or_admin self interaction = true.
Proof.
  intros [Heq|Hadm]; unfold TicketTakenView._is_taker_or_admin.
  - apply orb_true_iff. left. apply bool_decide_eq_true. exact Heq.
  - rewrite Hadm. apply orb_true_r.
Qed.

(** C3. On a claimed ticket, an actor who is neither the recorded claimant
    nor an administrator gets a refusal from each of accept, reject,
    delete and add-collaborator: the only platform call is the reply to
    the actor (no nickname change, role grant, notification, permission
    change, form or channel deletion), and the process state, the ticket
    included, is what it was. *)
Theorem C3_unauthorised_actor_rejected
    (self : TicketTakenView) (interaction : Interaction) (env : oracle) (s : State) :
  Some (user_id (user interaction)) <> taker_id self ->
  administrator (user interaction) = false ->
  (state_of (exec (TicketTakenView.accept_final self interaction) env s) = s /\
   calls_of (exec (TicketTakenView.accept_final self interaction) env s) =
     [send_message (lit "⚠ Только модератор, взявший тикет, может это сделать.")]) /\
  (state_of (exec (TicketTakenView.reject_ticket self interaction) env s) = s /\
   calls_of (exec (TicketTakenView.reject_ticket self interaction) env s) =
     [send_message (lit "⚠ Только модератор, взявший тикет, может отклонить.")]) /\
  (state_of (exec (TicketTakenView.delete_ticket self interaction) env s) = s /\
   calls_of (exec (TicketTakenView.delete_ticket self interaction) env s) =
     [send_message (lit "⚠ Только модератор, взявший тикет, может удалить канал.")]) /\
  (state_of (exec (TicketTakenView.add_moderator self interaction) env s) = s /\
   calls_of (exec (TicketTakenView.add_moderator self interaction) env s) =
     [send_message (lit "⚠ Только модератор, взявший тикет, может это сделать.")]).
Proof.
  intros Hne Hadm.
  pose proof (not_taker_or_admin self interaction Hne Hadm) as Hno.
  unfold TicketTakenView.accept_final, TicketTakenView.reject_ticket,
    TicketTakenView.delete_ticket, TicketTakenView.add_moderator.
  rewrite Hno. simpl negb. cbv iota.
  repeat split; apply exec_reply.
Qed.

(** ** Accepting a claimed ticket *)

(** A call made on a best-effort basis is issued, and its failure is
    swallowed. *)
Lemma run_best_effort c env s tr :
  run (try_except (await_ c) pass) env s tr = (Some tt, s, tr ++ [c]).
Proof. simpl. destruct (env _ c); reflexivity. Qed.

Ltac run_simp :=
  repeat first
    [ rewrite run_best_effort | rewrite run_send_log_embed | rewrite run_await_
    | rewrite run_await | rewrite run_bind | rewrite run_try_except
    | progress cbn [run bind pass get_state modify fst snd length app] ].

Ltac case_env :=
  match goal with
  | |- context [match ?env ?n ?c with Raised => _ | Returned _ => _ end] =>
    destruct (env n c) eqn:?
  end.

(** C10, as stated, fails: the claimant accepts a ticket whose requester
    has left the guild, a log channel is configured, and the platform
    refuses the acknowledgement.  The acknowledgement is the only call:
    no audit entry is handed to the log and the channel is not
    deleted. *)
Lemma C10_counterexample :
  let interaction := Sample.press Sample.server_left Sample.staff in
  let s := Sample.state (<["log_channel_id" := VInt 50]> Sample.with_staff) (Some 2) in
  let r := exec (TicketTakenView.accept_final Sample.taken interaction) Sample.all_fail s in
  taker_or_administrator Sample.taken interaction /\
  get_member (guild interaction) (user_id (owner Sample.taken)) = None /\
  log_target s = Some 50 /\
  value_of r = None /\
  calls_of r = [send_message msg_accepted] /\
  loop_tasks (state_of r) = [].
Proof.
  split; [left; reflexivity|]. repeat split; vm_compute; reflexivity.
Qed.

(** C10 (amended). When the requester of a claimed ticket no longer
    resolves as a guild member, an accept by the claimant or an
    administrator issues no nickname change, role grant or direct
    notification: the first call is the acknowledgement to the actor.
    Once the platform has taken it, the info-level audit entry is handed
    to the log and the ticket channel is deleted; when the platform
    refuses it, the exception escapes, nothing is logged and the channel
    stays. *)
Theorem C10_accept_requester_gone
    (self : TicketTakenView) (interaction : Interaction) (env : oracle) (s : State) :
  taker_or_administrator self interaction ->
  get_member (guild interaction) (user_id (owner self)) = None ->
  let r := exec (TicketTakenView.accept_final self interaction) env s in
  (exists rest, calls_of r = send_message msg_accepted :: rest /\
     (rest = [] \/ exists ch, rest = [channel_delete ch])) /\
  (env 0%nat (send_message msg_accepted) = Returned tt ->
     value_of r = Some tt /\
     (exists e, audit_entry info (lit "Заявка принята") e /\ state_of r = logged s e) /\
     (forall ch, channel interaction = Some ch ->
        calls_of r = [send_message msg_accepted; channel_delete ch])) /\
  (env 0%nat (send_message msg_accepted) = Raised ->
     value_of r = None /\ state_of r = s /\ calls_of r = [send_message msg_accepted]).
Proof.
  intros Hauth Hmem r. subst r.
  unfold exec, TicketTakenView.accept_final, msg_accepted.
  rewrite (taker_or_admin _ _ Hauth). cbn [negb]. cbv zeta. rewrite Hmem.
  destruct (channel interaction) as [ch|] eqn:Hch; run_simp; (split; [case_env|split]).
  - eexists; split; [reflexivity|]. left; reflexivity.
  - run_simp. eexists; split; [reflexivity|]. right. eexists; reflexivity.
  - intros Hack. rewrite Hack. run_simp.
    split; [reflexivity|]. split; [eexists; split; [|reflexivity]; split; [reflexivity|vm_compute; reflexivity]|].
    intros ch' Hch'; inversion Hch'; subst; reflexivity.
  - intros Hack. rewrite Hack. repeat split.
  - eexists; split; [reflexivity|]. left; reflexivity.
  - run_simp. eexists; split; [reflexivity|]. left; reflexivity.
  - intros Hack. rewrite Hack. run_simp.
    split; [reflexivity|]. split; [eexists; split; [|reflexivity]; split; [reflexivity|vm_compute; reflexivity]|].
    intros ch' Hch'; inversion Hch'.
  - intros Hack. rewrite Hack. repeat split.
Qed.

(** The C3 statement at a sample: the outsider presses the four buttons of
    a ticket claimed by the staff member. *)
Lemma C3_witness :
  let self := Sample.taken in
  let interaction := Sample.press Sample.server Sample.outsider in
  let env := Sample.all_ok in
  let s := Sample.state Sample.with_staff (Some 2) in
  (state_of (exec (TicketTakenView.accept_final self interaction) env s) = s /\
   calls_of (exec (TicketTakenView.accept_final self interaction) env s) =
     [send_message (lit "⚠ Только модератор, взявший тикет, может это сделать.")]) /\
  (state_of (exec (TicketTakenView.reject_ticket self interaction) env s) = s /\
   calls_of (exec (TicketTakenView.reject_ticket self interaction) env s) =
     [send_message (lit "⚠ Только модератор, взявший тикет, может отклонить.")]) /\
  (state_of (exec (TicketTakenView.delete_ticket self interaction) env s) = s /\
   calls_of (exec (TicketTakenView.delete_ticket self interaction) env s) =
     [send_message (lit "⚠ Только модератор, взявший тикет, может удалить канал.")]) /\
  (state_of (exec (TicketTakenView.add_moderator self interaction) env s) = s /\
   calls_of (exec (TicketTakenView.add_moderator self interaction) env s) =
     [send_message (lit "⚠ Только модератор, взявший тикет, может это сделать.")]).
Proof.
  apply (C3_unauthorised_actor_rejected Sample.taken
           (Sample.press Sample.server Sample.outsider) Sample.all_ok
           (Sample.state Sample.with_staff (Some 2))).
  - vm_compute. discriminate.
  - reflexivity.
Defined.

(** The C10 statement at a sample: the claimant accepts after the requester
    has left the guild. *)
Lemma C10_witness :
  let r := exec (TicketTakenView.accept_final Sample.taken
                   (Sample.press Sample.server_left Sample.staff))
             Sample.all_ok (Sample.state Sample.with_staff (Some 2)) in
  (exists rest, calls_of r = send_message msg_accepted :: rest /\
     (rest = [] \/ exists ch, rest = [channel_delete ch])) /\
  (Sample.all_ok 0%nat (send_message msg_accepted) = Returned tt ->
     value_of r = Some tt /\
     (exists e, audit_entry info (lit "Заявка принята") e /\
        state_of r = logged (Sample.state Sample.with_staff (Some 2)) e) /\
     (forall ch, channel (Sample.press Sample.server_left Sample.staff) = Some ch ->
        calls_of r = [send_message msg_accepted; channel_delete ch])).
Proof.
  destruct (C10_accept_requester_gone Sample.taken
              (Sample.press Sample.server_left Sample.staff) Sample.all_ok
              (Sample.state Sample.with_staff (Some 2))) as (Hfirst & Hok & _).
  - left. reflexivity.
  - vm_compute. reflexivity.
  - split; [exact Hfirst|exact Hok].
Defined.

(** C6, as stated, fails: the claimant accepts a ticket whose requester
    has left the guild, with no accepted role configured; neither the
    nickname change nor the direct notification is attempted. *)
Lemma C6_counterexample :
  let interaction := Sample.press Sample.server_left Sample.staff in
  let s := Sample.state Sample.with_staff (Some 2) in
  taker_or_administrator Sample.taken interaction /\
  dict_get (settings s) "accepted_role_id" = VNone /\
  calls_of (exec (TicketTakenView.accept_final Sample.taken interaction) Sample.all_ok s) =
    [send_message msg_accepted; channel_delete 500].
Proof.
  split; [left; reflexivity|]. split; vm_compute; reflexivity.
Qed.

(** C6 (amended). For an accept by the claimant or an administrator whose
    requester still resolves as a guild member: the nickname change, the
    role grant when one is configured and resolves, the direct
    notification and the acknowledgement are issued in this order
    whatever each call returns or raises; with no [accepted_role_id] there
    is no role grant; and once the platform has taken the acknowledgement
    the audit entry is handed to the log and the channel is deleted. *)
Theorem C6_accept_best_effort
    (self : TicketTakenView) (interaction : Interaction) (env : oracle) (s : State)
    (member : Member) (ch : Z) :
  taker_or_administrator self interaction ->
  get_member (guild interaction) (user_id (owner self)) = Some member ->
  channel interaction = Some ch ->
  (truthy (dict_get (settings s) "accepted_role_id") = true ->
   int_of_value (dict_get (settings s) "accepted_role_id") <> None) ->
  let r := exec (TicketTakenView.accept_final self interaction) env s in
  let attempted :=
    member_edit (user_id member) (nick_text self)
    :: accept_role_call interaction s member
    ++ [member_send (user_id member) (TicketTakenView.accept_embed s);
        send_message msg_accepted] in
  (dict_get (settings s) "accepted_role_id" = VNone ->
     accept_role_call interaction s member = []) /\
  (exists rest, calls_of r = attempted ++ rest /\ (rest = [] \/ rest = [channel_delete ch])) /\
  ((forall n, env n (send_message msg_accepted) = Returned tt) ->
     value_of r = Some tt /\
     calls_of r = attempted ++ [channel_delete ch] /\
     exists e, audit_entry info (lit "Заявка принята") e /\ state_of r = logged s e).
Proof.
  intros Hauth Hmem Hch Hint r attempted. subst r attempted.
  split.
  { intros Hnone. unfold accept_role_call. rewrite Hnone. reflexivity. }
  unfold exec, TicketTakenView.accept_final, accept_role_call, msg_accepted.
  rewrite (taker_or_admin _ _ Hauth). cbn [negb]. cbv zeta. rewrite Hmem, Hch.
  run_simp.
  assert (Hrole :
    forall tr,
      run (if truthy (dict_get (settings s) "accepted_role_id")
           then
             r ← int_ (dict_get (settings s) "accepted_role_id");
             match get_role (guild interaction) r with
             | Some role =>
               try_except (await_ (add_roles (user_id member) role (lit "Тикет принят"))) pass
             | None => Ret tt
             end
           else Ret tt) env s tr =
      (Some tt, s,
       tr ++ (if truthy (dict_get (settings s) "accepted_role_id")
              then
                match int_of_value (dict_get (settings s) "accepted_role_id") with
                | Some r =>
                  match get_role (guild interaction) r with
                  | Some role => [add_roles (user_id member) role (lit "Тикет принят")]
                  | None => []
                  end
                | None => []
                end
              else []))).
  { intros tr. destruct (truthy (dict_get (settings s) "accepted_role_id")) eqn:Ht.
    - unfold int_.
      destruct (int_of_value (dict_get (settings s) "accepted_role_id")) as [n|];
        [|exfalso; apply Hint; auto].
      run_simp. destruct (get_role (guild interaction) n); run_simp;
        rewrite ?app_nil_r; reflexivity.
    - cbn [run]. rewrite app_nil_r. reflexivity. }
  rewrite Hrole. cbn iota. run_simp.
  set (role_call := if truthy (dict_get (settings s) "accepted_role_id") then _ else _).
  split.
  - repeat first [progress run_simp | case_env]; cbn [calls_of snd];
      rewrite <- ?app_assoc; cbn [app]; rewrite <- ?app_assoc; cbn [app].
    all: lazymatch goal with
         | |- ex (fun rest => (_ :: _ ++ [_; _; _]) = _ /\ _) =>
           exists [channel_delete ch]; split;
             [rewrite <- app_assoc; reflexivity | right; reflexivity]
         | _ => exists []; split; [rewrite app_nil_r; reflexivity | left; reflexivity]
         end.
  - intros Hack.
    repeat first [progress run_simp | rewrite Hack | case_env].
    all: cbn [value_of state_of calls_of fst snd].
    all: (split; [reflexivity|]); (split; [rewrite <- !app_assoc; reflexivity|]).
    all: eexists; (split; [|reflexivity]); split; [reflexivity|vm_compute; reflexivity].
Qed.

(** ** Claiming *)

Lemma views_claimed self uid s v :
  views s !! self = Some v ->
  views (claimed self uid s) !! self = Some {| initial_ticket := initial_ticket v; taken_by := Some uid |}.
Proof. intros H. unfold claimed. cbn [views set_views]. rewrite lookup_alter_eq, H. reflexivity. Qed.

Lemma run_self_ self env s tr v :
  views s !! self = Some v ->
  run (TicketInitialView.self_ self) env s tr = (Some v, s, tr).
Proof. intros H. unfold TicketInitialView.self_. cbn [run bind get_state]. rewrite H. reflexivity. Qed.

Ltac case_lookup :=
  match goal with
  | |- context [match get_member ?g ?u with _ => _ end] => destruct (get_member g u)
  | |- context [match get_role ?g ?r with _ => _ end] => destruct (get_role g r)
  end.

Lemma run_restrict_channel self interaction staff env s tr v :
  views s !! self = Some v ->
  exists perms,
    Forall is_set_permissions perms /\
    run (try_except (TicketInitialView.restrict_channel self interaction staff) pass) env s tr =
      (Some tt, s, tr ++ perms).
Proof.
  intros Hv. unfold TicketInitialView.restrict_channel.
  assert (Hperm : forall ch t po, is_set_permissions (set_permissions ch t po))
    by (intros; do 3 eexists; reflexivity).
  destruct (channel interaction) as [ch|]; [|exists []; split; [constructor|]; run_simp; rewrite app_nil_r; reflexivity].
  destruct (truthy staff); [unfold int_; destruct (int_of_value staff) as [r|]|].
  all: repeat first [progress run_simp | rewrite (run_self_ _ _ _ _ _ Hv) | case_env | case_lookup].
  all: rewrite <- ?app_assoc; cbn [app].
  all: eexists; (split; [|first [reflexivity | symmetry; f_equal; apply app_nil_r]]);
    repeat constructor; apply Hperm.
Qed.
Lemma allowed_iff role interaction :
  (if administrator (user interaction) then true
   else match get_role (guild interaction) role with
        | Some role0 => if bool_decide (role0 ∈ user_roles (user interaction)) then true else false
        | None => false
        end) = true <-> holds_role_or_admin role interaction.
Proof.
  unfold holds_role_or_admin, get_role.
  destruct (administrator (user interaction)); [intuition|].
  case_decide; [case_bool_decide|]; intuition; discriminate.
Qed.

Lemma staff_role_inv s role :
  staff_role s = Some role ->
  dict_get (settings s) "staff_role_id" <> VNone /\
  int_of_value (dict_get (settings s) "staff_role_id") = Some role.
Proof.
  unfold staff_role. destruct (dict_get (settings s) "staff_role_id"); [discriminate| |]; auto.
Qed.


Lemma take_button_no_staff_role self interaction env s :
  dict_get (settings s) "staff_role_id" = VNone ->
  exists res, exec (TicketInitialView.take_button self interaction) env s =
    (res, s, [send_message msg_no_staff_role]).
Proof.
  intros Hnone. unfold exec, TicketInitialView.take_button, msg_no_staff_role.
  cbn [run bind get_state]. rewrite Hnone. rewrite bool_decide_eq_true_2 by reflexivity.
  rewrite run_await_. eexists; reflexivity.
Qed.

Lemma take_button_not_allowed self interaction env s role :
  staff_role s = Some role ->
  ~ holds_role_or_admin role interaction ->
  exists res, exec (TicketInitialView.take_button self interaction) env s =
    (res, s, [send_message msg_not_allowed]).
Proof.
  intros Hrole Hno. apply staff_role_inv in Hrole as [Hne Hint].
  unfold exec, TicketInitialView.take_button, msg_not_allowed.
  cbn [run bind get_state]. rewrite (bool_decide_eq_false_2 _ Hne).
  unfold int_. rewrite Hint. cbn [run bind].
  pose proof (allowed_iff role interaction) as Hall.
  destruct (if administrator (user interaction) then true else _);
    [exfalso; apply Hno, Hall; reflexivity|].
  cbn [negb]. rewrite run_await_. eexists; reflexivity.
Qed.

Lemma take_button_already_taken self interaction env s role v w :
  staff_role s = Some role ->
  holds_role_or_admin role interaction ->
  views s !! self = Some v ->
  taken_by v = Some w ->
  exists res, exec (TicketInitialView.take_button self interaction) env s =
    (res, s, [send_message msg_already_taken]).
Proof.
  intros Hrole Hyes Hv Htaken. apply staff_role_inv in Hrole as [Hne Hint].
  unfold exec, TicketInitialView.take_button, msg_already_taken.
  cbn [run bind get_state]. rewrite (bool_decide_eq_false_2 _ Hne).
  unfold int_. rewrite Hint. cbn [run bind].
  pose proof (allowed_iff role interaction) as Hall.
  destruct (if administrator (user interaction) then true else _);
    [|apply Hall in Hyes; discriminate].
  cbn [negb]. rewrite run_bind, (run_self_ _ _ _ _ _ Hv). cbn iota.
  rewrite Htaken. rewrite bool_decide_eq_true_2 by discriminate.
  rewrite run_await_. eexists; reflexivity.
Qed.

Lemma take_button_claims self interaction env s role v :
  staff_role s = Some role ->
  holds_role_or_admin role interaction ->
  views s !! self = Some v ->
  taken_by v = None ->
  exists res perms,
    Forall is_set_permissions perms /\
    exec (TicketInitialView.take_button self interaction) env s =
      (res, claimed self (user_id (user interaction)) s,
       perms ++ [edit_message {| taken_ticket := initial_ticket v;
                                 taker_id := Some (user_id (user interaction)) |}]).
Proof.
  intros Hrole Hyes Hv Hopen. apply staff_role_inv in Hrole as [Hne Hint].
  unfold exec, TicketInitialView.take_button.
  cbn [run bind get_state]. rewrite (bool_decide_eq_false_2 _ Hne).
  unfold int_ at 1. rewrite Hint. cbn [run bind].
  pose proof (allowed_iff role interaction) as Hall.
  destruct (if administrator (user interaction) then true else _);
    [|apply Hall in Hyes; discriminate].
  cbn [negb]. rewrite run_bind, (run_self_ _ _ _ _ _ Hv). cbn iota.
  rewrite Hopen. rewrite bool_decide_eq_false_2 by (intros H; apply H; reflexivity).
  rewrite run_bind. unfold TicketInitialView.set_taken_by at 1. cbn [run modify].
  fold (claimed self (user_id (user interaction)) s).
  pose proof (views_claimed self (user_id (user interaction)) s v Hv) as Hv'.
  rewrite run_bind.
  destruct (run_restrict_channel self interaction (dict_get (settings s) "staff_role_id")
              env (claimed self (user_id (user interaction)) s) [] _ Hv') as (perms & Hperms & Hrun).
  rewrite Hrun. cbn iota. rewrite run_bind, (run_self_ _ _ _ _ _ Hv'). cbn iota.
  rewrite run_await_. cbn [taken_by initial_ticket app].
  eexists. exists perms. split; [exact Hperms|reflexivity].
Qed.

Lemma claimed_neq self uid s v :
  views s !! self = Some v -> taken_by v = None -> claimed self uid s <> s.
Proof.
  intros Hv Hopen Hs.
  pose proof (views_claimed self uid s v Hv) as Hl. rewrite Hs, Hv in Hl.
  inversion Hl as [Hl']. rewrite Hl' in Hopen. discriminate.
Qed.

(** C7. A claim attempt on an open ticket: with no staff role configured
    it is refused with the configuration message and nothing changes;
    with a staff role configured it records the actor as claimant exactly
    when the actor holds the role or is an administrator, and otherwise it
    is refused with a message and nothing changes. *)
Theorem C7_claim_authorisation
    (self : nat) (interaction : Interaction) (env : oracle) (s : State) (v : TicketInitialView) :
  views s !! self = Some v ->
  taken_by v = None ->
  let r := exec (TicketInitialView.take_button self interaction) env s in
  let uid := user_id (user interaction) in
  (dict_get (settings s) "staff_role_id" = VNone ->
     state_of r = s /\ calls_of r = [send_message msg_no_staff_role]) /\
  (forall role, staff_role s = Some role ->
     (~ holds_role_or_admin role interaction ->
        state_of r = s /\ calls_of r = [send_message msg_not_allowed]) /\
     (holds_role_or_admin role interaction ->
        state_of r = claimed self uid s /\
        exists perms,
          Forall is_set_permissions perms /\
          calls_of r =
            perms ++ [edit_message {| taken_ticket := initial_ticket v; taker_id := Some uid |}]) /\
     (state_of r = claimed self uid s -> holds_role_or_admin role interaction)).
Proof.
  intros Hv Hopen r uid. subst r uid. split.
  - intros Hnone.
    destruct (take_button_no_staff_role self interaction env s Hnone) as [res ->].
    split; reflexivity.
  - intros role Hrole. split; [|split].
    + intros Hno.
      destruct (take_button_not_allowed self interaction env s role Hrole Hno) as [res ->].
      split; reflexivity.
    + intros Hyes.
      destruct (take_button_claims self interaction env s role v Hrole Hyes Hv Hopen)
        as (res & perms & Hperms & ->).
      split; [reflexivity|]. exists perms. split; [exact Hperms|reflexivity].
    + intros Hs. pose proof (allowed_iff role interaction) as Hall.
      match type of Hall with ?b = true <-> _ => destruct b end;
        [apply Hall; reflexivity|].
      assert (Hno : ~ holds_role_or_admin role interaction)
        by (intros H; apply Hall in H; discriminate).
      destruct (take_button_not_allowed self interaction env s role Hrole Hno) as [res Hrun].
      rewrite Hrun in Hs. cbn [state_of fst snd] in Hs.
      symmetry in Hs. exfalso. exact (claimed_neq _ _ _ _ Hv Hopen Hs).
Qed.

(** ** Two claims on the loop *)

Lemma turn_get {A} ans (k : State -> prog A) tr s :
  turn ans (Get k, tr) s = turn ans (k s, tr) s.
Proof. reflexivity. Qed.

Lemma turn_final ans (t : task unit) s : final (fst t) -> turn ans t s = (t, s).
Proof. destruct t as [p tr]. intros [H|H]; cbn in H; subst p; reflexivity. Qed.

Lemma final_finished (t : task unit) : final (fst t) -> finished t = true.
Proof. intros [H|H]; unfold finished; rewrite H; reflexivity. Qed.

(** One turn of a task that is finishing: a permission update goes out and
    the task is still finishing, or the last call goes out and the task
    has ended; the state is untouched. *)
Lemma turn_finishing ans s last n p tr :
  finishing s last n p ->
  exists m c p',
    n = S m /\ turn ans (p, tr) s = ((p', tr ++ [c]), s) /\
    ((is_set_permissions c /\ finishing s last m p') \/ (c = last /\ final p')).
Proof.
  induction 1 as [n k Hk IH|n c k Hc Hk IH|n k Hk].
  - destruct IH as (m & c & p' & Hn & Hturn & Hcase).
    exists m, c, p'. rewrite turn_get. auto.
  - exists n, c, (k (ans c)). split; [reflexivity|]. split; [reflexivity|]. left. auto.
  - exists n, last, (k (ans last)). split; [reflexivity|]. split; [reflexivity|]. right. auto.
Qed.

Lemma turn_winning ans s last b t :
  winning s last b t ->
  exists t', turn ans t s = (t', s) /\ winning s last (pred b) t'.
Proof.
  destruct t as [p tr]. intros [(n & Hn & Hfin & Htr)|[Hfinal Hwon]]; cbn [fst snd] in *.
  - destruct (turn_finishing ans s last n p tr Hfin) as (m & c & p' & -> & Hturn & Hcase).
    exists (p', tr ++ [c]). split; [exact Hturn|].
    destruct Hcase as [[Hc Hfin']|[-> Hfinal]].
    + left. exists m. cbn [fst snd]. split; [lia|]. split; [exact Hfin'|].
      apply Forall_app. split; [exact Htr|]. constructor; [exact Hc|constructor].
    + right. cbn [fst snd]. split; [exact Hfinal|]. exists tr. auto.
  - exists (p, tr). split; [apply turn_final; exact Hfinal|]. right. auto.
Qed.

Lemma finishing_pos s last n p : finishing s last n p -> n <> 0%nat.
Proof. induction 1; auto. Qed.

Lemma winning_finished s last t : winning s last 0 t -> final (fst t) /\ won_calls last (snd t).
Proof.
  intros [(n & Hn & Hfin & _)|H]; [|exact H].
  exfalso. apply (finishing_pos _ _ _ _ Hfin). lia.
Qed.

Lemma winning_mono s last b b' t : (b <= b')%nat -> winning s last b t -> winning s last b' t.
Proof.
  intros Hb [(n & Hn & H)|H]; [left; exists n; split; [lia|exact H]|right; exact H].
Qed.

(** The tail of a claim is finishing: at most three permission updates,
    then the switch to the claimed view. *)
Lemma claim_tail_finishing self interaction staff s v :
  views s !! self = Some v ->
  finishing s (edit_message {| taken_ticket := initial_ticket v; taker_id := taken_by v |}) 4
    (claim_tail self interaction staff).
Proof.
  intros Hv. unfold claim_tail, TicketInitialView.restrict_channel.
  assert (Hperm : forall ch t po, is_set_permissions (set_permissions ch t po))
    by (intros; do 3 eexists; reflexivity).
  assert (Hfinal : forall r : result unit,
            final (match r with Raised => Raise | Returned _ => Ret tt end))
    by (intros [|?]; [right|left]; reflexivity).
  destruct (channel interaction) as [ch|];
    [destruct (truthy staff); [unfold int_; destruct (int_of_value staff) as [r|]|]|].
  all: repeat first
    [ progress cbn [bind try_except await_ pass get_state TicketInitialView.self_]
    | apply fin_get; cbn beta
    | rewrite Hv
    | apply fin_last; intros [|?]; [right|left]; reflexivity
    | apply fin_perm; [apply Hperm | intros [|?]]
    | case_lookup ].
Qed.

Lemma turn_advance {A} ans (p q : prog A) tr s s' :
  advance p s = advance q s' -> turn ans (p, tr) s = turn ans (q, tr) s'.
Proof. intros H. unfold turn. cbn [fst snd]. rewrite H. reflexivity. Qed.

(** The check and the assignment of the claimant lie in one synchronous
    stretch: no call is awaited before [taken_by] is written. *)
Lemma advance_take_button_open self interaction s role v :
  staff_role s = Some role ->
  holds_role_or_admin role interaction ->
  views s !! self = Some v ->
  taken_by v = None ->
  advance (TicketInitialView.take_button self interaction) s =
  advance (claim_tail self interaction (dict_get (settings s) "staff_role_id"))
    (claimed self (user_id (user interaction)) s).
Proof.
  intros Hrole Hyes Hv Hopen. apply staff_role_inv in Hrole as [Hne Hint].
  unfold TicketInitialView.take_button.
  cbn [advance bind get_state]. rewrite (bool_decide_eq_false_2 _ Hne).
  unfold int_ at 1. rewrite Hint. cbn [advance bind].
  pose proof (allowed_iff role interaction) as Hall.
  destruct (if administrator (user interaction) then true else _);
    [|apply Hall in Hyes; discriminate].
  cbn [negb]. unfold TicketInitialView.self_ at 1. cbn [advance bind get_state].
  rewrite Hv. cbn [advance bind]. rewrite Hopen.
  rewrite bool_decide_eq_false_2 by (intros H; apply H; reflexivity).
  unfold TicketInitialView.set_taken_by at 1. cbn [advance bind modify].
  reflexivity.
Qed.

Lemma turn_take_button_taken ans self interaction s role v w :
  staff_role s = Some role ->
  holds_role_or_admin role interaction ->
  views s !! self = Some v ->
  taken_by v = Some w ->
  exists p', final p' /\
    turn ans (TicketInitialView.take_button self interaction, []) s =
      ((p', [send_message msg_already_taken]), s).
Proof.
  intros Hrole Hyes Hv Htaken. apply staff_role_inv in Hrole as [Hne Hint].
  unfold turn, TicketInitialView.take_button, msg_already_taken.
  cbn [fst snd advance bind get_state]. rewrite (bool_decide_eq_false_2 _ Hne).
  unfold int_. rewrite Hint. cbn [advance bind].
  pose proof (allowed_iff role interaction) as Hall.
  destruct (if administrator (user interaction) then true else _);
    [|apply Hall in Hyes; discriminate].
  cbn [negb]. unfold TicketInitialView.self_. cbn [advance bind get_state].
  rewrite Hv. cbn [advance bind]. rewrite Htaken.
  rewrite bool_decide_eq_true_2 by discriminate.
  cbn [advance await_ app]. eexists. split; [|reflexivity].
  destruct (ans _); [right|left]; reflexivity.
Qed.

Lemma staff_role_claimed self uid s : staff_role (claimed self uid s) = staff_role s.
Proof. reflexivity. Qed.

Lemma turn_take_button_open ans self interaction s role v :
  staff_role s = Some role ->
  holds_role_or_admin role interaction ->
  views s !! self = Some v ->
  taken_by v = None ->
  exists t',
    turn ans (TicketInitialView.take_button self interaction, []) s =
      (t', claimed self (user_id (user interaction)) s) /\
    winning (claimed self (user_id (user interaction)) s)
      (edit_for v (user_id (user interaction))) 3 t'.
Proof.
  intros Hrole Hyes Hv Hopen.
  rewrite (turn_advance ans _ _ _ _ _
             (advance_take_button_open self interaction s role v Hrole Hyes Hv Hopen)).
  pose proof (views_claimed self (user_id (user interaction)) s v Hv) as Hv'.
  pose proof (claim_tail_finishing self interaction (dict_get (settings s) "staff_role_id")
                _ _ Hv') as Hfin.
  cbn [taken_by initial_ticket] in Hfin. fold (edit_for v (user_id (user interaction))) in Hfin.
  destruct (turn_finishing ans _ _ _ _ [] Hfin) as (m & c & p' & Hm & Hturn & Hcase).
  injection Hm as <-. exists (p', [] ++ [c]). split; [exact Hturn|].
  destruct Hcase as [[Hc Hfin']|[-> Hfinal]].
  - left. exists 3%nat. cbn [fst snd app]. split; [lia|]. split; [exact Hfin'|].
    constructor; [exact Hc|constructor].
  - right. cbn [fst snd]. split; [exact Hfinal|]. exists []. split; [constructor|reflexivity].
Qed.

Lemma losing_mono p b b' t : (b <= b')%nat -> losing p b t -> losing p b' t.
Proof. intros Hb [[-> H]|H]; [left; split; [reflexivity|lia]|right; exact H]. Qed.

Section TwoClaims.

Variables (self : nat) (s0 : State) (v : TicketInitialView) (role : Z).
Variables (i1 i2 : Interaction) (env : oracle).
Hypothesis Hview : views s0 !! self = Some v.
Hypothesis Hopen : taken_by v = None.
Hypothesis Hrole : staff_role s0 = Some role.
Hypothesis Hallowed1 : holds_role_or_admin role i1.
Hypothesis Hallowed2 : holds_role_or_admin role i2.

Let uid1 := user_id (user i1).
Let uid2 := user_id (user i2).
Let inv := two_claims self s0 v i1 i2.

Lemma turn_losing ans uid i b t :
  holds_role_or_admin role i ->
  losing (TicketInitialView.take_button self i) b t ->
  exists t', turn ans t (claimed self uid s0) = (t', claimed self uid s0) /\
             losing (TicketInitialView.take_button self i) (pred b) t'.
Proof using Hview Hrole.
  intros Hi [[-> Hb]|[Hfinal Hcalls]].
  - destruct (turn_take_button_taken ans self i (claimed self uid s0) role _ uid
                Hrole Hi (views_claimed self uid s0 v Hview) eq_refl) as (p' & Hfinal & Hturn).
    eexists. split; [exact Hturn|]. right. split; [exact Hfinal|reflexivity].
  - exists t. split; [apply turn_final; exact Hfinal|]. right. auto.
Qed.

Lemma two_claims_turn1 ans b1 b2 t1 t2 s :
  inv b1 b2 t1 t2 s ->
  exists t1' s', turn ans t1 s = (t1', s') /\ inv (pred b1) b2 t1' t2 s'.
Proof using All.
  intros [(-> & -> & -> & Hb1 & Hb2)|[(-> & Hw & Hl)|(-> & Hl & Hw)]].
  - destruct (turn_take_button_open ans self i1 s0 role v Hrole Hallowed1 Hview Hopen)
      as (t' & Hturn & Hw).
    exists t', (claimed self uid1 s0). split; [exact Hturn|]. right. left.
    split; [reflexivity|]. split.
    + apply (winning_mono _ _ 3); [lia|exact Hw].
    + left. split; [reflexivity|lia].
  - destruct (turn_winning ans _ _ _ _ Hw) as (t' & Hturn & Hw').
    exists t', (claimed self uid1 s0). split; [exact Hturn|]. right. left. auto.
  - destruct (turn_losing ans uid2 i1 b1 t1 Hallowed1 Hl) as (t' & Hturn & Hl').
    exists t', (claimed self uid2 s0). split; [exact Hturn|]. right. right. auto.
Qed.

Lemma two_claims_turn2 ans b1 b2 t1 t2 s :
  inv b1 b2 t1 t2 s ->
  exists t2' s', turn ans t2 s = (t2', s') /\ inv b1 (pred b2) t1 t2' s'.
Proof using All.
  intros [(-> & -> & -> & Hb1 & Hb2)|[(-> & Hw & Hl)|(-> & Hl & Hw)]].
  - destruct (turn_take_button_open ans self i2 s0 role v Hrole Hallowed2 Hview Hopen)
      as (t' & Hturn & Hw).
    exists t', (claimed self uid2 s0). split; [exact Hturn|]. right. right.
    split; [reflexivity|]. split.
    + left. split; [reflexivity|lia].
    + apply (winning_mono _ _ 3); [lia|exact Hw].
  - destruct (turn_losing ans uid1 i2 b2 t2 Hallowed2 Hl) as (t' & Hturn & Hl').
    exists t', (claimed self uid1 s0). split; [exact Hturn|]. right. left. auto.
  - destruct (turn_winning ans _ _ _ _ Hw) as (t' & Hturn & Hw').
    exists t', (claimed self uid2 s0). split; [exact Hturn|]. right. right. auto.
Qed.

Lemma two_claims_interleave sched :
  forall n b1 b2 t1 t2 s,
    inv b1 b2 t1 t2 s ->
    exists t1' t2' s',
      interleave sched env n t1 t2 s = (t1', t2', s') /\
      inv (b1 - turns true sched) (b2 - turns false sched) t1' t2' s'.
Proof using All.
  induction sched as [|b sched IH]; intros n b1 b2 t1 t2 s Hinv.
  - exists t1, t2, s. split; [reflexivity|]. unfold turns. cbn. rewrite !Nat.sub_0_r. exact Hinv.
  - destruct b.
    + destruct (two_claims_turn1 (env n) _ _ _ _ _ Hinv) as (t1' & s' & Hturn & Hinv').
      destruct (IH (S n) _ _ _ _ _ Hinv') as (u1 & u2 & s'' & Hrun & Hfin).
      exists u1, u2, s''. cbn [interleave]. rewrite Hturn. split; [exact Hrun|].
      unfold turns in *. cbn [List.filter Bool.eqb List.length].
      replace (b1 - S (List.length (List.filter (Bool.eqb true) sched)))%nat
        with (pred b1 - List.length (List.filter (Bool.eqb true) sched))%nat by lia.
      exact Hfin.
    + destruct (two_claims_turn2 (env n) _ _ _ _ _ Hinv) as (t2' & s' & Hturn & Hinv').
      destruct (IH (S n) _ _ _ _ _ Hinv') as (u1 & u2 & s'' & Hrun & Hfin).
      exists u1, u2, s''. cbn [interleave]. rewrite Hturn. split; [exact Hrun|].
      unfold turns in *. cbn [List.filter Bool.eqb List.length].
      replace (b2 - S (List.length (List.filter (Bool.eqb false) sched)))%nat
        with (pred b2 - List.length (List.filter (Bool.eqb false) sched))%nat by lia.
      exact Hfin.
Qed.

End TwoClaims.

Lemma advance_finishing s last n p : finishing s last n p -> fst (advance p s) = s.
Proof. induction 1; cbn [advance fst]; auto. Qed.

Lemma finishing_not_finished s last n p tr : finishing s last n p -> finished (p, tr) = false.
Proof. destruct 1; reflexivity. Qed.

Lemma fresh_not_finished self interaction :
  finished (TicketInitialView.take_button self interaction, []) = false.
Proof. reflexivity. Qed.

Lemma winning_done s last b t :
  winning s last b t -> finished t = true -> won_calls last (snd t).
Proof.
  destruct t as [p tr]. intros [(n & _ & Hfin & _)|[_ Hwon]] Hdone; [|exact Hwon].
  cbn [fst] in Hfin. rewrite (finishing_not_finished _ _ _ _ tr Hfin) in Hdone. discriminate.
Qed.

Lemma losing_done self interaction b t :
  losing (TicketInitialView.take_button self interaction) b t -> finished t = true ->
  snd t = [send_message msg_already_taken].
Proof.
  intros [[-> _]|[_ Hcalls]] Hdone; [|exact Hcalls].
  rewrite fresh_not_finished in Hdone. discriminate.
Qed.

Lemma winning_budget s last t : winning s last 0 t -> finished t = true.
Proof. intros H. apply final_finished, (winning_finished _ _ _ H). Qed.

Lemma losing_budget p t : losing p 0 t -> finished t = true.
Proof. intros [[_ H]|[H _]]; [lia|apply final_finished, H]. Qed.

(** On a claimed ticket a further press of the claim button changes
    nothing and issues at most a reply. *)
Lemma take_button_taken_unchanged self interaction env s v w :
  views s !! self = Some v ->
  taken_by v = Some w ->
  state_of (exec (TicketInitialView.take_button self interaction) env s) = s /\
  (calls_of (exec (TicketInitialView.take_button self interaction) env s) = [] \/
   exists m, calls_of (exec (TicketInitialView.take_button self interaction) env s) =
             [send_message m]).
Proof.
  intros Hv Htaken. unfold exec, TicketInitialView.take_button.
  cbn [run bind get_state].
  destruct (bool_decide (dict_get (settings s) "staff_role_id" = VNone)).
  { rewrite run_await_. split; [reflexivity|]. right. eexists; reflexivity. }
  unfold int_. destruct (int_of_value (dict_get (settings s) "staff_role_id")) as [r|];
    cbn [run bind]; [|split; [reflexivity|left; reflexivity]].
  destruct (negb _).
  { rewrite run_await_. split; [reflexivity|]. right. eexists; reflexivity. }
  rewrite run_bind, (run_self_ _ _ _ _ _ Hv). cbn iota. rewrite Htaken.
  rewrite bool_decide_eq_true_2 by discriminate.
  rewrite run_await_. split; [reflexivity|]. right. eexists; reflexivity.
Qed.

(** C1, as stated, fails: on a ticket already claimed by the staff member,
    a press by an outsider is answered with the missing-rights message,
    not with the already-claimed one. *)
Lemma C1_counterexample :
  let s := Sample.state Sample.with_staff (Some 2) in
  let r := exec (TicketInitialView.take_button 0 (Sample.press Sample.server Sample.outsider))
             Sample.all_ok s in
  (exists v, views s !! 0%nat = Some v /\ taken_by v = Some 2) /\
  calls_of r = [send_message msg_not_allowed] /\
  calls_of r <> [send_message msg_already_taken].
Proof.
  split; [eexists; split; vm_compute; reflexivity|].
  split; [vm_compute; reflexivity|]. vm_compute. discriminate.
Qed.

(** C1 (amended). A ticket is claimed at most once.  On a ticket whose
    claimant is set, a further claim attempt changes no state, issues no
    call but a reply, and, for an actor who passes the staff-role check,
    the reply is the already-claimed message (the configuration and rights
    checks come first and have their own replies).  On an open ticket the
    check and the assignment of the claimant happen in one synchronous
    stretch of the handler, before any awaited call; so of two interleaved
    attempts by actors who pass the staff-role check, whatever the
    schedule and the platform's answers, both end within four turns each,
    exactly one switches the message to the claimed view with itself as
    claimant, and the other is answered with the already-claimed
    message. *)
Theorem C1_claimed_at_most_once
    (self : nat) (s0 : State) (v : TicketInitialView) (role : Z)
    (i1 i2 : Interaction) (env : oracle) (sched : list bool) :
  views s0 !! self = Some v ->
  staff_role s0 = Some role ->
  holds_role_or_admin role i1 ->
  holds_role_or_admin role i2 ->
  (forall w, taken_by v = Some w ->
     forall interaction,
       let r := exec (TicketInitialView.take_button self interaction) env s0 in
       state_of r = s0 /\
       (calls_of r = [] \/ exists m, calls_of r = [send_message m]) /\
       (holds_role_or_admin role interaction -> calls_of r = [send_message msg_already_taken])) /\
  (taken_by v = None ->
     fst (advance (TicketInitialView.take_button self i1) s0) = claimed self (user_id (user i1)) s0 /\
     exists t1 t2 s',
       interleave sched env 0
         (TicketInitialView.take_button self i1, [])
         (TicketInitialView.take_button self i2, []) s0 = (t1, t2, s') /\
       ((4 <= turns true sched)%nat -> finished t1 = true) /\
       ((4 <= turns false sched)%nat -> finished t2 = true) /\
       (finished t1 = true -> finished t2 = true ->
          (won_calls (edit_for v (user_id (user i1))) (snd t1) /\
           snd t2 = [send_message msg_already_taken] /\
           s' = claimed self (user_id (user i1)) s0)
          \/
          (snd t1 = [send_message msg_already_taken] /\
           won_calls (edit_for v (user_id (user i2))) (snd t2) /\
           s' = claimed self (user_id (user i2)) s0))).
Proof.
  intros Hv Hrole H1 H2. split.
  - intros w Htaken interaction r. subst r.
    destruct (take_button_taken_unchanged self interaction env s0 v w Hv Htaken) as [Hs Hc].
    split; [exact Hs|]. split; [exact Hc|]. intros Hi.
    destruct (take_button_already_taken self interaction env s0 role v w Hrole Hi Hv Htaken)
      as [res ->]. reflexivity.
  - intros Hopen. split.
    + rewrite (advance_take_button_open self i1 s0 role v Hrole H1 Hv Hopen).
      eapply advance_finishing.
      apply claim_tail_finishing with (v := {| initial_ticket := initial_ticket v;
                                               taken_by := Some (user_id (user i1)) |}).
      apply views_claimed. exact Hv.
    + destruct (two_claims_interleave self s0 v role i1 i2 env Hv Hopen Hrole H1 H2 sched
                  0%nat 4%nat 4%nat
                  (TicketInitialView.take_button self i1, [])
                  (TicketInitialView.take_button self i2, []) s0)
        as (t1 & t2 & s' & Hrun & Hinv).
      { left. repeat split; lia. }
      exists t1, t2, s'. split; [exact Hrun|].
      destruct Hinv as [(-> & -> & -> & Hb1 & Hb2)|[(-> & Hw & Hl)|(-> & Hl & Hw)]].
      * split; [intros; lia|]. split; [intros; lia|].
        intros Hf _. rewrite fresh_not_finished in Hf. discriminate.
      * split; [|split].
        -- intros Hb. replace (4 - turns true sched)%nat with 0%nat in Hw by lia.
           exact (winning_budget _ _ _ Hw).
        -- intros Hb. replace (4 - turns false sched)%nat with 0%nat in Hl by lia.
           exact (losing_budget _ _ Hl).
        -- intros Hf1 Hf2. left. split; [exact (winning_done _ _ _ _ Hw Hf1)|].
           split; [exact (losing_done _ _ _ _ Hl Hf2)|reflexivity].
      * split; [|split].
        -- intros Hb. replace (4 - turns true sched)%nat with 0%nat in Hl by lia.
           exact (losing_budget _ _ Hl).
        -- intros Hb. replace (4 - turns false sched)%nat with 0%nat in Hw by lia.
           exact (winning_budget _ _ _ Hw).
        -- intros Hf1 Hf2. right. split; [exact (losing_done _ _ _ _ Hl Hf1)|].
           split; [exact (winning_done _ _ _ _ Hw Hf2)|reflexivity].
Qed.

(** ** Samples for the claim statements *)

Lemma sample_staff_allowed : holds_role_or_admin 100 (Sample.press Sample.server Sample.staff).
Proof. left. split; [cbn; set_solver|constructor]. Defined.

Lemma sample_staff'_allowed : holds_role_or_admin 100 (Sample.press Sample.server Sample.staff').
Proof. left. split; [cbn; set_solver|constructor]. Defined.

(** The C1 statement at a sample: two staff members press the claim button
    of an open ticket and their handlers alternate on the loop; both end,
    and the state records one of them. *)
Lemma C1_witness :
  exists t1 t2 s',
    interleave [true; false; true; false; true; false; true; false] Sample.all_ok 0
      (TicketInitialView.take_button 0 (Sample.press Sample.server Sample.staff), [])
      (TicketInitialView.take_button 0 (Sample.press Sample.server Sample.staff'), [])
      (Sample.state Sample.with_staff None) = (t1, t2, s') /\
    finished t1 = true /\ finished t2 = true /\
    (s' = claimed 0 2 (Sample.state Sample.with_staff None) \/
     s' = claimed 0 3 (Sample.state Sample.with_staff None)).
Proof.
  destruct (C1_claimed_at_most_once 0 (Sample.state Sample.with_staff None)
              {| initial_ticket := Sample.ticket; taken_by := None |} 100
              (Sample.press Sample.server Sample.staff)
              (Sample.press Sample.server Sample.staff')
              Sample.all_ok [true; false; true; false; true; false; true; false])
    as [_ Hopen].
  - vm_compute. reflexivity.
  - vm_compute. reflexivity.
  - exact sample_staff_allowed.
  - exact sample_staff'_allowed.
  - destruct (Hopen eq_refl) as (_ & t1 & t2 & s' & Hrun & Hf1 & Hf2 & Hone).
    exists t1, t2, s'. split; [exact Hrun|].
    assert (Hd1 : finished t1 = true) by (apply Hf1; vm_compute; lia).
    assert (Hd2 : finished t2 = true) by (apply Hf2; vm_compute; lia).
    split; [exact Hd1|]. split; [exact Hd2|].
    destruct (Hone Hd1 Hd2) as [(_ & _ & Hs)|(_ & _ & Hs)]; [left|right]; exact Hs.
Defined.

(** The C6 statement at a sample: the claimant accepts while the requester
    is a member and no accepted role is configured. *)
Lemma C6_witness :
  calls_of (exec (TicketTakenView.accept_final Sample.taken
                    (Sample.press Sample.server Sample.staff))
              Sample.all_ok (Sample.state Sample.with_staff (Some 2))) =
  [member_edit 1 (lit "Steve");
   member_send 1 (TicketTakenView.accept_embed (Sample.state Sample.with_staff (Some 2)));
   send_message msg_accepted; channel_delete 500].
Proof.
  destruct (C6_accept_best_effort Sample.taken (Sample.press Sample.server Sample.staff)
              Sample.all_ok (Sample.state Sample.with_staff (Some 2)) Sample.requester 500)
    as (Hnone & _ & Hack).
  - left. reflexivity.
  - vm_compute. reflexivity.
  - reflexivity.
  - vm_compute. discriminate.
  - destruct (Hack (fun n => eq_refl)) as (_ & Hcalls & _).
    rewrite Hcalls, Hnone; [reflexivity|vm_compute; reflexivity].
Defined.

(** The C7 statement at a sample: the staff member claims an open ticket,
    the outsider is refused. *)
Lemma C7_witness :
  state_of (exec (TicketInitialView.take_button 0 (Sample.press Sample.server Sample.outsider))
              Sample.all_ok (Sample.state Sample.with_staff None)) =
    Sample.state Sample.with_staff None /\
  state_of (exec (TicketInitialView.take_button 0 (Sample.press Sample.server Sample.staff))
              Sample.all_ok (Sample.state Sample.with_staff None)) =
    claimed 0 2 (Sample.state Sample.with_staff None).
Proof.
  split.
  - destruct (C7_claim_authorisation 0 (Sample.press Sample.server Sample.outsider)
                Sample.all_ok (Sample.state Sample.with_staff None)
                {| initial_ticket := Sample.ticket; taken_by := None |})
      as [_ Hrole]; [vm_compute; reflexivity|reflexivity|].
    destruct (Hrole 100) as (Hno & _ & _); [vm_compute; reflexivity|].
    apply Hno. intros [[_ Hin]|Hadm]; [inversion Hin|discriminate].
  - destruct (C7_claim_authorisation 0 (Sample.press Sample.server Sample.staff)
                Sample.all_ok (Sample.state Sample.with_staff None)
                {| initial_ticket := Sample.ticket; taken_by := None |})
      as [_ Hrole]; [vm_compute; reflexivity|reflexivity|].
    destruct (Hrole 100) as (_ & Hyes & _); [vm_compute; reflexivity|].
    apply Hyes. exact sample_staff_allowed.
Defined.


(** ** Python strings: facts *)

Lemma lstrip_length s : (List.length (lstrip s) <= List.length s)%nat.
Proof. induction s as [|c t IH]; cbn [lstrip]; [lia|]. destruct (isspace_cp c); cbn; lia. Qed.

Lemma strip_len s : len (strip s) <= len s.
Proof.
  unfold len, strip, rstrip. rewrite length_rev.
  pose proof (lstrip_length (rev (lstrip s))) as H1. rewrite length_rev in H1.
  pose proof (lstrip_length s). lia.
Qed.

Lemma isdigit_spec s :
  isdigit s = true <-> s <> [] /\ Forall (fun c => isdigit_cp c = true) s.
Proof.
  unfold isdigit. destruct s as [|c t].
  - split; [discriminate|intros [H _]; contradiction].
  - rewrite forallb_forall, Forall_forall. split.
    + intros H. split; [discriminate|]. intros x Hx. apply H. apply list_elem_of_In. exact Hx.
    + intros [_ H] x Hx. apply H. apply list_elem_of_In. exact Hx.
Qed.

Lemma age_check s :
  (negb ((1 <=? len s) && (len s <=? 2)) || negb (isdigit s)) = false <-> age_ok s.
Proof.
  unfold age_ok, length_between. rewrite orb_false_iff, !negb_false_iff, andb_true_iff.
  rewrite !Z.leb_le, isdigit_spec. split.
  - intros [Hlen [_ Hd]]. auto.
  - intros [Hlen Hd]. split; [exact Hlen|]. split; [|exact Hd].
    intros ->. unfold len in Hlen. cbn in Hlen. lia.
Qed.

Lemma length_check lo hi s :
  negb ((lo <=? len s) && (len s <=? hi)) = false <-> length_between lo hi s.
Proof.
  unfold length_between. rewrite negb_false_iff, andb_true_iff, !Z.leb_le. reflexivity.
Qed.

(** ** The intake form *)

Section Intake.

Variables (author : Member) (nick age purpose from_where read_rules : pystr).
Variables (interaction : Interaction) (env : oracle) (s : State).

Let r := exec (TicketModal.on_submit author nick age purpose from_where read_rules interaction)
           env s.

Lemma on_submit_nick : ~ length_between 3 50 (strip nick) -> refused r s msg_nick.
Proof using Type.
  intros H. subst r. unfold exec, TicketModal.on_submit, refused, msg_nick. cbv zeta.
  destruct (negb ((3 <=? len (strip nick)) && (len (strip nick) <=? 50))) eqn:Hb;
    [|apply length_check in Hb; contradiction].
  rewrite run_await_. split; reflexivity.
Qed.

Lemma on_submit_age :
  length_between 3 50 (strip nick) -> ~ age_ok (strip age) -> refused r s msg_age.
Proof using Type.
  intros H1 H. subst r. unfold exec, TicketModal.on_submit, refused, msg_age. cbv zeta.
  apply length_check in H1. rewrite H1.
  destruct (negb ((1 <=? len (strip age)) && (len (strip age) <=? 2)) || negb (isdigit (strip age)))
    eqn:Hb; [|apply age_check in Hb; contradiction].
  rewrite run_await_. split; reflexivity.
Qed.

Lemma on_submit_purpose :
  length_between 3 50 (strip nick) -> age_ok (strip age) ->
  ~ length_between 50 500 (strip purpose) -> refused r s msg_purpose.
Proof using Type.
  intros H1 H2 H. subst r. unfold exec, TicketModal.on_submit, refused, msg_purpose. cbv zeta.
  apply length_check in H1. rewrite H1. apply age_check in H2. rewrite H2.
  destruct (negb ((50 <=? len (strip purpose)) && (len (strip purpose) <=? 500))) eqn:Hb;
    [|apply length_check in Hb; contradiction].
  rewrite run_await_. split; reflexivity.
Qed.

Lemma on_submit_from_where :
  length_between 3 50 (strip nick) -> age_ok (strip age) ->
  length_between 50 500 (strip purpose) ->
  ~ length_between 1 50 (strip from_where) -> refused r s msg_from_where.
Proof using Type.
  intros H1 H2 H3 H. subst r. unfold exec, TicketModal.on_submit, refused, msg_from_where.
  cbv zeta.
  apply length_check in H1. rewrite H1. apply age_check in H2. rewrite H2.
  apply length_check in H3. rewrite H3.
  destruct (negb ((1 <=? len (strip from_where)) && (len (strip from_where) <=? 50))) eqn:Hb;
    [|apply length_check in Hb; contradiction].
  rewrite run_await_. split; reflexivity.
Qed.

Lemma on_submit_read_rules :
  length_between 3 50 (strip nick) -> age_ok (strip age) ->
  length_between 50 500 (strip purpose) -> length_between 1 50 (strip from_where) ->
  ~ length_between 1 20 (strip read_rules) -> refused r s msg_read_rules.
Proof using Type.
  intros H1 H2 H3 H4 H. subst r. unfold exec, TicketModal.on_submit, refused, msg_read_rules.
  cbv zeta.
  apply length_check in H1. rewrite H1. apply age_check in H2. rewrite H2.
  apply length_check in H3. rewrite H3. apply length_check in H4. rewrite H4.
  destruct (negb ((1 <=? len (strip read_rules)) && (len (strip read_rules) <=? 20))) eqn:Hb;
    [|apply length_check in Hb; contradiction].
  rewrite run_await_. split; reflexivity.
Qed.

End Intake.

Section IntakeAccepted.

Variables (author : Member) (nick age purpose from_where read_rules : pystr).
Variables (interaction : Interaction) (env : oracle) (s : State).

(** A valid form creates the channel, with the owner in its topic; once
    the channel exists the summary is posted there with the claim
    button of a fresh, unclaimed view. *)
Lemma on_submit_accepted :
  length_between 3 50 (strip nick) -> age_ok (strip age) ->
  length_between 50 500 (strip purpose) -> length_between 1 50 (strip from_where) ->
  length_between 1 20 (strip read_rules) ->
  usable_id (dict_get (settings s) "staff_role_id") ->
  usable_id (dict_get (settings s) "ticket_category_id") ->
  exists name overwrites category res st calls,
    exec (TicketModal.on_submit author nick age purpose from_where read_rules interaction)
      env s = (res, st, calls) /\
    let c := create_text_channel name overwrites category (TicketModal.topic author) in
    match env 0%nat c with
    | Raised => calls = [c] /\ st = s
    | Returned ch =>
      exists e view rest,
        calls = c :: channel_send ch (mention author) (Some e) (Some view) :: rest /\
        (rest = [] \/ rest = [send_message (lit "Тикет создан: " ++ channel_mention ch)]) /\
        views s !! view = None /\
        exists v : TicketInitialView,
          views st = <[view := v]> (views s) /\ owner v = author /\ taken_by v = None
    end.
Proof using Type.
  intros H1 H2 H3 H4 H5 Hstaff Hcat.
  unfold exec, TicketModal.on_submit. cbv zeta.
  apply length_check in H1. rewrite H1. apply age_check in H2. rewrite H2.
  apply length_check in H3. rewrite H3. apply length_check in H4. rewrite H4.
  apply length_check in H5. rewrite H5.
  cbn [run bind get_state]. unfold usable_id in *.
  destruct (truthy (dict_get (settings s) "staff_role_id"));
    [unfold int_ at 1;
     destruct (int_of_value (dict_get (settings s) "staff_role_id")) as [sr|];
       [|exfalso; apply Hstaff; reflexivity]|];
    cbn [run bind];
    try (destruct (get_role (guild interaction) sr); cbn [run bind]).
  all: destruct (truthy (dict_get (settings s) "ticket_category_id"));
    [unfold int_;
     destruct (int_of_value (dict_get (settings s) "ticket_category_id")) as [cat|];
       [|exfalso; apply Hcat; reflexivity]|];
    cbn [run bind].
  all: rewrite run_bind, run_await; cbn [length].
  all: match goal with
       | |- context [create_text_channel ?n ?o ?c ?t] => exists n, o, c
       end.
  all: match goal with |- context [env 0%nat ?c] => destruct (env 0%nat c) as [|ch] end.
  all: try (do 3 eexists; split; [reflexivity|]; cbv zeta; split; reflexivity).
  all: cbn iota; cbn [run bind get_state modify].
  all: assert (Hfresh : views s !! fresh (dom (views s)) = None)
         by (apply not_elem_of_dom, is_fresh).
  all: repeat first [progress run_simp | case_env].
  all: do 3 eexists; (split; [reflexivity|]); cbv zeta.
  all: do 3 eexists; (split; [reflexivity|]);
       (split; [first [left; reflexivity | right; reflexivity]|]);
       (split; [exact Hfresh|]); eexists; (split; [reflexivity|]); split; reflexivity.
Qed.

End IntakeAccepted.

(** ** Decimal numerals: [int(str(n)) == n] *)

Lemma scan_digits_uint :
  forall d acc seen,
    scan_digits (digits_of_uint d) acc false seen =
    Some (Z.of_N (Unsigned.of_lu (Decimal.rev d)) + acc * 10 ^ Z.of_N (Unsigned.usize d),
          match d with Decimal.Nil => seen | _ => true end, []).
Proof.
  assert (Hstep : forall d0 k acc,
    Z.of_N (Unsigned.of_lu (Decimal.rev d0)) + (acc * 10 + Z.of_N k) * 10 ^ Z.of_N (Unsigned.usize d0) =
    Z.of_N (Unsigned.of_lu (Decimal.rev d0) + k * 10 ^ Unsigned.usize d0) +
    acc * 10 ^ Z.of_N (N.succ (Unsigned.usize d0))).
  { intros d0 k acc. rewrite N2Z.inj_add, N2Z.inj_mul, N2Z.inj_pow, N2Z.inj_succ.
    rewrite Z.pow_succ_r by lia. change (Z.of_N 10) with 10. ring. }
  intros d. induction d as [|d IH|d IH|d IH|d IH|d IH|d IH|d IH|d IH|d IH|d IH]; intros acc seen.
  1: { cbn. f_equal. f_equal. f_equal. lia. }
  all: cbn [digits_of_uint scan_digits]; cbn [N.eqb Pos.eqb ascii_digit]; cbn.
  all: unfold Decimal.rev; cbn [Decimal.revapp]; rewrite Unsigned.of_lu_revapp.
  all: cbn [Unsigned.of_lu Unsigned.usize].
  all: rewrite IH.
  all: rewrite ?N.mul_0_r, ?N.add_0_r.
  all: match goal with
       | |- context [Z.of_N (?a - 48)] =>
         let v := eval vm_compute in (Z.of_N (a - 48)) in change (Z.of_N (a - 48)) with v
       end.
  all: match goal with
       | |- Some (?a, ?b, ?c) = Some (?a', ?b', ?c') =>
         cut (a = a'); [intros ->; destruct d; reflexivity|]
       end.
  all: rewrite ?N2Z.inj_add, ?N2Z.inj_mul, ?N2Z.inj_pow, ?N2Z.inj_succ.
  all: rewrite Z.pow_succ_r by lia.
  all: change (Z.of_N 10) with 10; cbn [Z.of_N]; ring.
Qed.

Lemma digits_of_uint_head d :
  d <> Decimal.Nil -> exists c t, digits_of_uint d = c :: t /\ (48 <= c <= 57)%N.
Proof. destruct d; [contradiction|..]; intros _; do 2 eexists; (split; [reflexivity|lia]). Qed.

Lemma transform_digits d :
  transform_decimal_and_space (digits_of_uint d) = digits_of_uint d.
Proof. induction d; cbn; congruence. Qed.

(** A buffer that starts with an ASCII digit and is digits to its end
    parses to its value, and to the opposite after a minus sign. *)
Lemma long_value_digits c t n :
  (48 <= c <= 57)%N ->
  scan_digits (c :: t) 0 false false = Some (n, true, []) ->
  long_value (c :: t) = Some n /\ long_value (45%N :: c :: t) = Some (- n).
Proof.
  intros Hc Hscan.
  assert (Hsp : ascii_isspace c = false).
  { unfold ascii_isspace. apply orb_false_iff. split.
    - apply andb_false_iff. right. apply N.leb_gt. lia.
    - apply N.eqb_neq. lia. }
  assert (Hcases : (c = 48 \/ c = 49 \/ c = 50 \/ c = 51 \/ c = 52 \/ c = 53 \/ c = 54 \/
                   c = 55 \/ c = 56 \/ c = 57)%N) by lia.
  unfold long_value. cbn [skip_ascii_space]. rewrite Hsp.
  change (ascii_isspace 45) with false. cbv iota.
  repeat (destruct Hcases as [->|Hcases]); try subst c;
    rewrite Hscan; cbn [skip_ascii_space]; split; f_equal; lia.
Qed.

Lemma long_value_uint d :
  d <> Decimal.Nil ->
  long_value (digits_of_uint d) = Some (Z.of_N (Pos.of_uint d)) /\
  long_value (45%N :: digits_of_uint d) = Some (- Z.of_N (Pos.of_uint d)).
Proof.
  intros Hd. destruct (digits_of_uint_head d Hd) as (c & t & Heq & Hc).
  rewrite Heq. apply long_value_digits; [exact Hc|].
  rewrite <- Heq, scan_digits_uint, Unsigned.of_uint_alt.
  destruct d; [contradiction|..]; do 3 f_equal; lia.
Qed.

(** Printing an integer and parsing it back gives the integer. *)
Lemma int_value_of_int z : int_value (str_of_int z) = Some z.
Proof.
  unfold int_value, str_of_int. destruct z as [|p|p].
  - reflexivity.
  - rewrite transform_digits.
    destruct (long_value_uint (Pos.to_uint p) (DecimalPos.Unsigned.to_uint_nonnil p)) as [-> _].
    rewrite DecimalPos.Unsigned.of_to. reflexivity.
  - cbn [transform_decimal_and_space]. change (45 <? 127)%N with true. cbv iota.
    rewrite transform_digits.
    destruct (long_value_uint (Pos.to_uint p) (DecimalPos.Unsigned.to_uint_nonnil p)) as [_ ->].
    rewrite DecimalPos.Unsigned.of_to. reflexivity.
Qed.

(** The topic of a ticket channel names its owner. *)
Lemma topic_owner_topic author : topic_owner (TicketModal.topic author) = Some (user_id author).
Proof.
  unfold topic_owner, TicketModal.topic.
  cbn [take drop app]. rewrite decide_True by reflexivity.
  apply int_value_of_int.
Qed.

Lemma length_between_dec lo hi s : length_between lo hi s \/ ~ length_between lo hi s.
Proof. unfold length_between. lia. Qed.

Lemma age_ok_dec s : age_ok s \/ ~ age_ok s.
Proof.
  destruct (negb ((1 <=? len s) && (len s <=? 2)) || negb (isdigit s)) eqn:Hb.
  - right. intros H. apply age_check in H. congruence.
  - left. apply age_check. exact Hb.
Qed.

(** Any violated constraint, read on the stripped values, ends the
    submission with one of the five refusals. *)
Lemma on_submit_refused author nick age purpose from_where read_rules interaction env s :
  ~ (length_between 3 50 (strip nick) /\ age_ok (strip age) /\
     length_between 50 500 (strip purpose) /\ length_between 1 50 (strip from_where) /\
     length_between 1 20 (strip read_rules)) ->
  exists m,
    In m [msg_nick; msg_age; msg_purpose; msg_from_where; msg_read_rules] /\
    refused (exec (TicketModal.on_submit author nick age purpose from_where read_rules interaction)
               env s) s m.
Proof.
  intros Hbad.
  destruct (length_between_dec 3 50 (strip nick)) as [H1|H1];
    [|exists msg_nick; split; [left; reflexivity|apply on_submit_nick; exact H1]].
  destruct (age_ok_dec (strip age)) as [H2|H2];
    [|exists msg_age; split; [right; left; reflexivity|apply on_submit_age; assumption]].
  destruct (length_between_dec 50 500 (strip purpose)) as [H3|H3];
    [|exists msg_purpose; split; [do 2 right; left; reflexivity|apply on_submit_purpose; assumption]].
  destruct (length_between_dec 1 50 (strip from_where)) as [H4|H4];
    [|exists msg_from_where; split; [do 3 right; left; reflexivity|apply on_submit_from_where; assumption]].
  destruct (length_between_dec 1 20 (strip read_rules)) as [H5|H5];
    [|exists msg_read_rules; split; [do 4 right; left; reflexivity|apply on_submit_read_rules; assumption]].
  exfalso. apply Hbad. auto.
Qed.

(** C2, as stated, fails: an age of two characters, the digit 5 and a
    space, contains a character that is no digit, and the submission is
    accepted: the channel is created. *)
Lemma C2_counterexample :
  let age := lit "5 " in
  let r := exec (TicketModal.on_submit Sample.requester (lit "Steve") age
                   (lit "I would like to build a railway station and a farm")
                   (lit "a friend") (lit "yes")
                   (Sample.press Sample.server Sample.requester))
             Sample.all_ok (Sample.state Sample.with_staff None) in
  age = [53%N; 32%N] /\ ~ numeric age /\ Exists no_digit age /\
  existsb is_create_text_channel (calls_of r) = true.
Proof.
  cbv zeta. split; [reflexivity|]. split; [|split].
  - intros H. inversion H as [|? ? _ H']. inversion H' as [|? ? Hc _]. lia.
  - right. left. vm_compute. reflexivity.
  - vm_compute. reflexivity.
Qed.

Lemma digits_or_not s :
  Forall (fun c => isdigit_cp c = true) s \/ Exists no_digit s.
Proof.
  induction s as [|c t [IH|IH]].
  - left. constructor.
  - destruct (isdigit_cp c) eqn:Hc; [left; constructor; assumption|right; left; exact Hc].
  - right. right. exact IH.
Qed.

Lemma age_violated_iff s : age_violated s <-> ~ age_ok s.
Proof.
  unfold age_violated, age_ok. split.
  - intros [Hlen|Hex] [Hlen' Hall]; [contradiction|].
    unfold no_digit in Hex. rewrite Exists_exists in Hex. rewrite Forall_forall in Hall.
    destruct Hex as (c & Hin & Hc). rewrite (Hall c Hin) in Hc. discriminate.
  - intros Hbad. destruct (length_between_dec 1 2 s) as [Hlen|Hlen]; [|left; exact Hlen].
    destruct (digits_or_not s) as [Hall|Hex]; [|right; exact Hex].
    exfalso. apply Hbad. split; assumption.
Qed.

(** C2 (amended). The five constraints are checked on the field values
    with leading and trailing whitespace removed.  A nickname of a length
    outside 3 to 50, an age of a length outside 1 to 2 or with a character
    that is no digit of any kind, a purpose of a length outside 50 to 500,
    a referral source outside 1 to 50 or a rules acknowledgement outside
    1 to 20 is a violation.  The first violation, in this order, ends the
    submission with the message of its field; no other call is issued, so
    no channel is created, and the state is unchanged.  (An age written
    with digit characters other than the decimal digits is no violation in
    this sense, and nothing is said of it.) *)
Theorem C2_intake_validation
    (author : Member) (nick age purpose from_where read_rules : pystr)
    (interaction : Interaction) (env : oracle) (s : State) :
  let r := exec (TicketModal.on_submit author nick age purpose from_where read_rules interaction)
             env s in
  let nick_bad := ~ length_between 3 50 (strip nick) in
  let age_bad := age_violated (strip age) in
  let purpose_bad := ~ length_between 50 500 (strip purpose) in
  let from_where_bad := ~ length_between 1 50 (strip from_where) in
  let read_rules_bad := ~ length_between 1 20 (strip read_rules) in
  (nick_bad -> refused r s msg_nick) /\
  (~ nick_bad -> age_bad -> refused r s msg_age) /\
  (~ nick_bad -> ~ age_bad -> purpose_bad -> refused r s msg_purpose) /\
  (~ nick_bad -> ~ age_bad -> ~ purpose_bad -> from_where_bad -> refused r s msg_from_where) /\
  (~ nick_bad -> ~ age_bad -> ~ purpose_bad -> ~ from_where_bad -> read_rules_bad ->
     refused r s msg_read_rules) /\
  (nick_bad \/ age_bad \/ purpose_bad \/ from_where_bad \/ read_rules_bad ->
     state_of r = s /\ existsb is_create_text_channel (calls_of r) = false /\
     exists m, In m [msg_nick; msg_age; msg_purpose; msg_from_where; msg_read_rules] /\
               calls_of r = [send_message m]).
Proof.
  cbv zeta.
  assert (Hnn : forall lo hi f, ~ ~ length_between lo hi f -> length_between lo hi f)
    by (intros lo hi f H; destruct (length_between_dec lo hi f); [assumption|contradiction]).
  assert (Hage : ~ age_violated (strip age) -> age_ok (strip age)).
  { intros H. destruct (age_ok_dec (strip age)) as [Hok|Hno]; [exact Hok|].
    exfalso. apply H, age_violated_iff, Hno. }
  split; [|split; [|split; [|split; [|split]]]].
  - intros H. apply on_submit_nick; exact H.
  - intros H1 H2. apply on_submit_age; [apply Hnn, H1|apply age_violated_iff, H2].
  - intros H1 H2 H3. apply on_submit_purpose; auto.
  - intros H1 H2 H3 H4. apply on_submit_from_where; auto.
  - intros H1 H2 H3 H4 H5. apply on_submit_read_rules; auto.
  - intros Hbad.
    destruct (on_submit_refused author nick age purpose from_where read_rules interaction env s)
      as (m & Hin & Hs & Hc).
    + intros (H1 & H2 & H3 & H4 & H5).
      destruct Hbad as [H|[H|[H|[H|H]]]]; try contradiction.
      apply age_violated_iff in H. contradiction.
    + split; [exact Hs|]. split; [rewrite Hc; reflexivity|]. exists m. auto.
Qed.

(** The C2 statement at a sample: an age with a letter in it. *)
Lemma C2_witness :
  refused (exec (TicketModal.on_submit Sample.requester (lit "Steve") (lit "2x")
                   (lit "I would like to build a railway station and a farm")
                   (lit "a friend") (lit "yes")
                   (Sample.press Sample.server Sample.requester))
             Sample.all_ok (Sample.state Sample.with_staff None))
    (Sample.state Sample.with_staff None) msg_age.
Proof.
  destruct (C2_intake_validation Sample.requester (lit "Steve") (lit "2x")
              (lit "I would like to build a railway station and a farm")
              (lit "a friend") (lit "yes")
              (Sample.press Sample.server Sample.requester)
              Sample.all_ok (Sample.state Sample.with_staff None)) as (_ & Hage & _).
  apply Hage.
  - intros H. apply H. vm_compute. split; discriminate.
  - right. right. left. vm_compute. reflexivity.
Defined.

(** C9, as stated, fails: a purpose of exactly 50 characters whose last
    character is a space is refused, the other fields being valid; no
    channel is created. *)
Lemma C9_counterexample :
  let purpose := lit "I would like to build a railway station and farms " in
  let s := Sample.state Sample.with_staff None in
  len purpose = 50 /\
  refused (exec (TicketModal.on_submit Sample.requester (lit "Steve") (lit "20") purpose
                   (lit "a friend") (lit "yes")
                   (Sample.press Sample.server Sample.requester))
             Sample.all_ok s) s msg_purpose.
Proof. split; [vm_compute; reflexivity|]. split; vm_compute; reflexivity. Qed.

(** C9 (amended). A submission whose purpose has 49 characters is refused
    and no channel is created; with the other fields valid the refusal is
    the one of the purpose field.  A submission whose purpose has exactly
    50 characters once leading and trailing whitespace is removed, the
    other fields valid and the configured identifiers usable, asks the
    platform for a channel whose topic names the owner, and on success
    posts the summary there. *)
Theorem C9_purpose_boundary
    (author : Member) (nick age purpose from_where read_rules : pystr)
    (interaction : Interaction) (env : oracle) (s : State) :
  let r := exec (TicketModal.on_submit author nick age purpose from_where read_rules interaction)
             env s in
  (len purpose = 49 ->
     (exists m, refused r s m) /\
     (length_between 3 50 (strip nick) -> age_ok (strip age) -> refused r s msg_purpose)) /\
  (len (strip purpose) = 50 ->
     length_between 3 50 (strip nick) -> age_ok (strip age) ->
     length_between 1 50 (strip from_where) -> length_between 1 20 (strip read_rules) ->
     usable_id (dict_get (settings s) "staff_role_id") ->
     usable_id (dict_get (settings s) "ticket_category_id") ->
     topic_owner (TicketModal.topic author) = Some (user_id author) /\
     exists name overwrites category,
       let c := create_text_channel name overwrites category (TicketModal.topic author) in
       match env 0%nat c with
       | Raised => calls_of r = [c] /\ state_of r = s
       | Returned ch =>
         exists e view rest,
           calls_of r = c :: channel_send ch (mention author) (Some e) (Some view) :: rest /\
           (rest = [] \/ rest = [send_message (lit "Тикет создан: " ++ channel_mention ch)])
       end).
Proof.
  cbv zeta. split.
  - intros Hlen.
    assert (Hbad : ~ length_between 50 500 (strip purpose)).
    { unfold length_between. pose proof (strip_len purpose). lia. }
    split.
    + destruct (on_submit_refused author nick age purpose from_where read_rules interaction env s)
        as (m & _ & Hm); [|exists m; exact Hm].
      intros (_ & _ & H & _). contradiction.
    + intros H1 H2. apply on_submit_purpose; assumption.
  - intros Hlen H1 H2 H4 H5 Hstaff Hcat. split; [apply topic_owner_topic|].
    destruct (on_submit_accepted author nick age purpose from_where read_rules interaction env s
                H1 H2) as (name & ov & cat & res & st & calls & Hrun & Hcase);
      [unfold length_between; lia|assumption..|].
    exists name, ov, cat. rewrite Hrun. cbv zeta in *. cbn [calls_of state_of fst snd].
    destruct (env 0%nat _) as [|ch]; [exact Hcase|].
    destruct Hcase as (e & view & rest & Hc & Hrest & _). exists e, view, rest. auto.
Qed.

(** The C9 statement at a sample: a purpose of exactly 50 characters. *)
Lemma C9_witness :
  exists name overwrites category e view,
    calls_of (exec (TicketModal.on_submit Sample.requester (lit "Steve") (lit "20")
                      (lit "I would like to build a railway station and a farm")
                      (lit "a friend") (lit "yes")
                      (Sample.press Sample.server Sample.requester))
                Sample.all_ok (Sample.state Sample.with_staff None)) =
    [create_text_channel name overwrites category (lit "ticket_owner:1");
     channel_send 500 (mention Sample.requester) (Some e) (Some view);
     send_message (lit "Тикет создан: <#500>")].
Proof.
  destruct (C9_purpose_boundary Sample.requester (lit "Steve") (lit "20")
              (lit "I would like to build a railway station and a farm")
              (lit "a friend") (lit "yes")
              (Sample.press Sample.server Sample.requester)
              Sample.all_ok (Sample.state Sample.with_staff None)) as [_ H50].
  destruct H50 as (_ & name & ov & cat & Hcase).
  - vm_compute. reflexivity.
  - vm_compute. split; discriminate.
  - split; [vm_compute; split; discriminate|].
    assert (Hd : forallb isdigit_cp (strip (lit "20")) = true) by (vm_compute; reflexivity).
    rewrite forallb_forall in Hd. apply Forall_forall. intros x Hx. apply Hd.
    apply list_elem_of_In. exact Hx.
  - vm_compute. split; discriminate.
  - vm_compute. split; discriminate.
  - intros _. vm_compute. discriminate.
  - intros H. vm_compute in H. discriminate.
  - cbv zeta in Hcase. cbn [Sample.all_ok] in Hcase.
    destruct Hcase as (e & view & rest & Hc & Hrest).
    exists name, ov, cat, e, view. rewrite Hc.
    destruct Hrest as [->| ->].
    + exfalso. vm_compute in Hc. discriminate.
    + vm_compute. reflexivity.
Defined.


(** ** The identifier search *)

Lemma take_digits_prefix n s : exists post, s = take_digits n s ++ post.
Proof.
  revert s. induction n as [|n IH]; intros s; [exists s; reflexivity|].
  destruct s as [|c t]; [exists []; reflexivity|]. cbn [take_digits].
  destruct (isdecimal_cp c); [|exists (c :: t); reflexivity].
  destruct (IH t) as [post Hpost]. exists post. cbn [app]. congruence.
Qed.

Lemma take_digits_decimal n s : Forall (fun c => isdecimal_cp c = true) (take_digits n s).
Proof.
  revert s. induction n as [|n IH]; intros s; [constructor|].
  destruct s as [|c t]; [constructor|]. cbn [take_digits].
  destruct (isdecimal_cp c) eqn:Hc; [|constructor]. constructor; [exact Hc|apply IH].
Qed.

Lemma take_digits_length n s : (List.length (take_digits n s) <= n)%nat.
Proof.
  revert s. induction n as [|n IH]; intros s; [cbn; lia|].
  destruct s as [|c t]; [cbn; lia|]. cbn [take_digits].
  destruct (isdecimal_cp c); [cbn [List.length]; specialize (IH t); lia|cbn; lia].
Qed.

(** The quantifier is greedy: it stops at the bound, at the end of the
    text or before a character that is not a decimal digit. *)
Lemma take_digits_greedy n s post :
  s = take_digits n s ++ post ->
  List.length (take_digits n s) = n \/ post = [] \/
  exists c t, post = c :: t /\ isdecimal_cp c = false.
Proof.
  revert s. induction n as [|n IH]; intros s Hs; [left; reflexivity|].
  destruct s as [|c t]; [right; left; destruct post; [reflexivity|discriminate]|].
  cbn [take_digits] in *. destruct (isdecimal_cp c) eqn:Hc.
  - cbn [app] in Hs. injection Hs as Hs. destruct (IH t Hs) as [H|[H|H]]; auto.
    left. cbn [List.length]. lia.
  - cbn [app] in Hs. subst post. right. right. exists c, t. auto.
Qed.

(** It takes every leading digit up to the bound. *)
Lemma take_digits_ge n d post :
  Forall (fun c => isdecimal_cp c = true) d ->
  (Nat.min n (List.length d) <= List.length (take_digits n (d ++ post)))%nat.
Proof.
  revert d. induction n as [|n IH]; intros d Hd; [cbn; lia|].
  destruct d as [|c t]; [cbn; lia|]. inversion Hd as [|? ? Hc Ht]; subst.
  cbn [app take_digits]. rewrite Hc. cbn [List.length]. specialize (IH t Ht). lia.
Qed.

Lemma re_search_id_cons c t :
  re_search_id (c :: t) =
  if (17 <=? List.length (take_digits 20 (c :: t)))%nat
  then Some (take_digits 20 (c :: t)) else re_search_id t.
Proof. reflexivity. Qed.

(** No match: the text has no run of 17 decimal digits. *)
Lemma re_search_id_none s :
  re_search_id s = None ->
  forall pre d post, s = pre ++ d ++ post ->
    Forall (fun c => isdecimal_cp c = true) d -> (List.length d < 17)%nat.
Proof.
  induction s as [|c t IH]; intros Hnone pre d post Hs Hd.
  - destruct pre; [|discriminate]. destruct d; [cbn; lia|discriminate].
  - rewrite re_search_id_cons in Hnone.
    destruct (17 <=? List.length (take_digits 20 (c :: t)))%nat eqn:Hlen; [discriminate|].
    apply Nat.leb_gt in Hlen.
    destruct pre as [|c' pre].
    + cbn [app] in Hs. rewrite Hs in Hlen.
      pose proof (take_digits_ge 20 d post Hd). lia.
    + cbn [app] in Hs. injection Hs as _ Hs. exact (IH Hnone pre d post Hs Hd).
Qed.

(** A match is the leftmost run of at least 17 decimal digits, cut after
    20. *)
Lemma re_search_id_some s m :
  re_search_id s = Some m ->
  exists pre post,
    s = pre ++ m ++ post /\
    Forall (fun c => isdecimal_cp c = true) m /\
    (17 <= List.length m <= 20)%nat /\
    (List.length m = 20%nat \/ post = [] \/ exists c t, post = c :: t /\ isdecimal_cp c = false) /\
    (forall pre' d post', s = pre' ++ d ++ post' ->
       (List.length pre' < List.length pre)%nat ->
       Forall (fun c => isdecimal_cp c = true) d -> (List.length d < 17)%nat).
Proof.
  revert m. induction s as [|c t IH]; intros m Hsome; [discriminate|].
  rewrite re_search_id_cons in Hsome.
  destruct (17 <=? List.length (take_digits 20 (c :: t)))%nat eqn:Hlen.
  - assert (Hm : take_digits 20 (c :: t) = m) by congruence. subst m. clear Hsome.
    apply Nat.leb_le in Hlen.
    destruct (take_digits_prefix 20 (c :: t)) as [post Hpost].
    exists [], post. split; [exact Hpost|]. split; [apply take_digits_decimal|].
    split; [pose proof (take_digits_length 20 (c :: t)); lia|].
    split; [apply take_digits_greedy; exact Hpost|].
    intros pre' d post' _ Hlt. cbn in Hlt. lia.
  - apply Nat.leb_gt in Hlen.
    destruct (IH m Hsome) as (pre & post & Hs & Hdec & Hm & Hgreedy & Hfirst).
    exists (c :: pre), post. split; [cbn [app]; congruence|]. split; [exact Hdec|].
    split; [exact Hm|]. split; [exact Hgreedy|].
    intros pre' d post' Hs' Hlt Hd. destruct pre' as [|c' pre'].
    + cbn [app] in Hs'. rewrite Hs' in Hlen.
      pose proof (take_digits_ge 20 d post' Hd). lia.
    + cbn [app] in Hs'. injection Hs' as _ Hs'. cbn [List.length] in Hlt.
      apply (Hfirst pre' d post' Hs'); [lia|exact Hd].
Qed.

(** ** Decimal digits always parse *)

Lemma find_range_none (tbl : list (N * N)) c :
  Forall (fun r => (c < fst r)%N) tbl ->
  find (fun r => (fst r <=? c)%N && (c <=? snd r)%N) tbl = None.
Proof.
  induction 1 as [|r tbl Hr _ IH]; [reflexivity|]. cbn [find].
  replace (fst r <=? c)%N with false by (symmetry; apply N.leb_gt; exact Hr).
  exact IH.
Qed.

(** Below 127 the only decimal digits are the ASCII ones. *)
Lemma decimal_ascii c :
  (c < 127)%N -> isdecimal_cp c = true -> (48 <= c <= 57)%N.
Proof.
  intros Hc Hd. unfold isdecimal_cp, todecimal in Hd.
  assert (Hsplit : decimal_ranges = (48, 57)%N :: tl decimal_ranges) by reflexivity.
  rewrite Hsplit in Hd.
  assert (Hfind : forall (p : N * N -> bool) x l,
            find p (x :: l) = if p x then Some x else find p l) by reflexivity.
  rewrite Hfind in Hd. cbn [fst snd] in Hd.
  destruct ((48 <=? c)%N && (c <=? 57)%N) eqn:Hb.
  - apply andb_true_iff in Hb as [H1 H2]. apply N.leb_le in H1, H2. lia.
  - rewrite find_range_none in Hd; [discriminate|].
    unfold decimal_ranges. cbn [tl].
    repeat (constructor; [cbn [fst]; lia|]). constructor.
Qed.

(** No whitespace is a decimal digit. *)
Lemma space_not_decimal c : isspace_cp c = true -> isdecimal_cp c = false.
Proof.
  intros Hs. unfold isspace_cp, in_ranges, whitespace_ranges in Hs.
  cbn [existsb fst snd] in Hs.
  repeat (apply orb_true_iff in Hs as [Hs|Hs];
          [apply andb_true_iff in Hs as [H1 H2]; apply N.leb_le in H1, H2|]);
    [..|discriminate].
  all: assert (Hcases :
         (c = 9 \/ c = 10 \/ c = 11 \/ c = 12 \/ c = 13 \/ c = 28 \/ c = 29 \/ c = 30 \/
          c = 31 \/ c = 32 \/ c = 133 \/ c = 160 \/ c = 5760 \/ c = 8192 \/ c = 8193 \/
          c = 8194 \/ c = 8195 \/ c = 8196 \/ c = 8197 \/ c = 8198 \/ c = 8199 \/
          c = 8200 \/ c = 8201 \/ c = 8202 \/ c = 8232 \/ c = 8233 \/ c = 8239 \/
          c = 8287 \/ c = 12288)%N) by lia.
  all: clear H1 H2.
  all: repeat (destruct Hcases as [->|Hcases]; [vm_compute; reflexivity|]).
  all: subst c; vm_compute; reflexivity.
Qed.

Lemma todecimal_lt c d : todecimal c = Some d -> (d < 10)%N.
Proof.
  unfold todecimal. destruct (find _ _) as [r|]; [|discriminate].
  intros H. injection H as <-. apply N.mod_lt. discriminate.
Qed.

(** The rewriting step of [int] turns decimal digits into ASCII digits. *)
Lemma transform_decimal m :
  Forall (fun c => isdecimal_cp c = true) m ->
  Forall (fun c => (48 <= c <= 57)%N) (transform_decimal_and_space m) /\
  List.length (transform_decimal_and_space m) = List.length m.
Proof.
  induction 1 as [|c t Hc _ [IH1 IH2]]; [split; [constructor|reflexivity]|].
  cbn [transform_decimal_and_space].
  destruct (c <? 127)%N eqn:Hlt.
  - apply N.ltb_lt in Hlt. pose proof (decimal_ascii c Hlt Hc).
    split; [constructor; assumption|cbn [List.length]; congruence].
  - destruct (isspace_cp c) eqn:Hs; [apply space_not_decimal in Hs; congruence|].
    unfold isdecimal_cp in Hc. destruct (todecimal c) as [d|] eqn:Hd; [|discriminate].
    pose proof (todecimal_lt c d Hd).
    split; [constructor; [lia|assumption]|cbn [List.length]; congruence].
Qed.

Lemma scan_ascii_digits l :
  Forall (fun c => (48 <= c <= 57)%N) l ->
  forall acc seen, 0 <= acc ->
    exists n, 0 <= n /\
      scan_digits l acc false seen = Some (n, match l with [] => seen | _ => true end, []).
Proof.
  induction 1 as [|c t Hc _ IH]; intros acc seen Hacc; [exists acc; auto|].
  cbn [scan_digits].
  replace (c =? 95)%N with false by (symmetry; apply N.eqb_neq; lia).
  unfold ascii_digit.
  replace ((48 <=? c)%N && (c <=? 57)%N) with true
    by (symmetry; apply andb_true_iff; split; apply N.leb_le; lia).
  destruct (IH (acc * 10 + Z.of_N (c - 48)) true) as (n & Hn & Hscan); [lia|].
  exists n. split; [exact Hn|]. rewrite Hscan. destruct t; reflexivity.
Qed.

(** A non-empty run of decimal digits, of any script, is an integer
    literal: [int] accepts it and the value is not negative. *)
Lemma int_value_decimal m :
  m <> [] -> Forall (fun c => isdecimal_cp c = true) m ->
  exists n, 0 <= n /\ int_value m = Some n.
Proof.
  intros Hne Hdec. destruct (transform_decimal m Hdec) as [Hascii Hlen].
  unfold int_value. destruct (transform_decimal_and_space m) as [|c t] eqn:Ht.
  - destruct m; [contradiction|discriminate].
  - destruct (scan_ascii_digits (c :: t) Hascii 0 false) as (n & Hn & Hscan); [lia|].
    inversion Hascii as [|? ? Hc _]; subst.
    destruct (long_value_digits c t n Hc Hscan) as [Hparse _].
    exists n. auto.
Qed.

(** *** The limit on the number of digits *)

Lemma count_digits_ascii l :
  Forall (fun c => (48 <= c <= 57)%N) l -> count_digits l = List.length l.
Proof.
  induction 1 as [|c t Hc _ IH]; [reflexivity|]. cbn [count_digits List.length].
  replace (c =? 95)%N with false by (symmetry; apply N.eqb_neq; lia).
  unfold ascii_digit.
  replace ((48 <=? c)%N && (c <=? 57)%N) with true
    by (symmetry; apply andb_true_iff; split; apply N.leb_le; lia).
  rewrite IH. reflexivity.
Qed.

Lemma after_sign_digit c t :
  (48 <= c <= 57)%N -> after_sign (c :: t) = c :: t /\ after_sign (45%N :: c :: t) = c :: t.
Proof.
  intros Hc.
  assert (Hsp : ascii_isspace c = false).
  { unfold ascii_isspace. apply orb_false_iff. split.
    - apply andb_false_iff. right. apply N.leb_gt. lia.
    - apply N.eqb_neq. lia. }
  assert (Hcases : (c = 48 \/ c = 49 \/ c = 50 \/ c = 51 \/ c = 52 \/ c = 53 \/ c = 54 \/
                   c = 55 \/ c = 56 \/ c = 57)%N) by lia.
  unfold after_sign. cbn [skip_ascii_space]. rewrite Hsp.
  change (ascii_isspace 45) with false. cbv iota.
  repeat (destruct Hcases as [->|Hcases]); try subst c; split; reflexivity.
Qed.

Lemma long_from_string_capped s :
  (count_digits (after_sign s) <= int_max_str_digits)%nat ->
  long_from_string s = long_value s.
Proof.
  intros Hle. unfold long_from_string.
  replace (int_max_str_digits <? count_digits (after_sign s))%nat with false;
    [reflexivity|]. symmetry. apply Nat.ltb_ge. exact Hle.
Qed.

(** What [int] accepts is the value of the text. *)
Lemma int_of_str_value s n : int_of_str s = Some n -> int_value s = Some n.
Proof.
  unfold int_of_str, int_value, long_from_string.
  destruct (int_max_str_digits <? _)%nat; [discriminate|auto].
Qed.

Lemma int_value_none s : int_value s = None -> int_of_str s = None.
Proof.
  unfold int_of_str, int_value, long_from_string. intros ->.
  destruct (int_max_str_digits <? _)%nat; reflexivity.
Qed.

(** A non-empty run of at most 4300 decimal digits, of any script, is an
    integer literal: [int] accepts it and the value is not negative. *)
Lemma int_of_str_decimal m :
  m <> [] -> Forall (fun c => isdecimal_cp c = true) m ->
  (List.length m <= int_max_str_digits)%nat ->
  exists n, 0 <= n /\ int_of_str m = Some n.
Proof.
  intros Hne Hdec Hlen. destruct (int_value_decimal m Hne Hdec) as (n & Hn & Hval).
  exists n. split; [exact Hn|]. unfold int_of_str. unfold int_value in Hval.
  destruct (transform_decimal m Hdec) as [Hascii Hlen'].
  rewrite long_from_string_capped; [exact Hval|].
  destruct (transform_decimal_and_space m) as [|c t] eqn:Ht.
  - cbn. lia.
  - inversion Hascii as [|? ? Hc _]; subst.
    destruct (after_sign_digit c t Hc) as [-> _].
    rewrite count_digits_ascii by exact Hascii. lia.
Qed.

Lemma digits_of_uint_ascii d : Forall (fun c => (48 <= c <= 57)%N) (digits_of_uint d).
Proof. induction d; constructor; first [lia | assumption]. Qed.

(** [int(str(n)) == n] for every integer of at most 4300 digits. *)
Lemma int_of_str_of_int z :
  (numeral_digits z <= int_max_str_digits)%nat -> int_of_str (str_of_int z) = Some z.
Proof.
  intros Hle. pose proof (int_value_of_int z) as Hval.
  unfold int_of_str. unfold int_value in Hval.
  rewrite long_from_string_capped; [exact Hval|]. clear Hval.
  unfold numeral_digits in Hle. destruct z as [|p|p].
  - exact Hle.
  - change (str_of_int (Z.abs (Z.pos p))) with (digits_of_uint (Pos.to_uint p)) in Hle.
    change (str_of_int (Z.pos p)) with (digits_of_uint (Pos.to_uint p)).
    rewrite transform_digits.
    destruct (digits_of_uint_head _ (DecimalPos.Unsigned.to_uint_nonnil p))
      as (c & t & Heq & Hc).
    pose proof (digits_of_uint_ascii (Pos.to_uint p)) as Hascii.
    rewrite Heq in *. destruct (after_sign_digit c t Hc) as [-> _].
    rewrite count_digits_ascii by exact Hascii. exact Hle.
  - change (str_of_int (Z.abs (Z.neg p))) with (digits_of_uint (Pos.to_uint p)) in Hle.
    change (str_of_int (Z.neg p)) with (45%N :: digits_of_uint (Pos.to_uint p)).
    cbn [transform_decimal_and_space]. change (45 <? 127)%N with true. cbv iota.
    rewrite transform_digits.
    destruct (digits_of_uint_head _ (DecimalPos.Unsigned.to_uint_nonnil p))
      as (c & t & Heq & Hc).
    pose proof (digits_of_uint_ascii (Pos.to_uint p)) as Hascii.
    rewrite Heq in *. destruct (after_sign_digit c t Hc) as [_ ->].
    rewrite count_digits_ascii by exact Hascii. exact Hle.
Qed.

(** ** Adding a moderator *)

Lemma re_search_id_first raw m : re_search_id raw = Some m -> first_id_run raw m.
Proof. intros H. exact (re_search_id_some raw m H). Qed.

Lemma re_search_id_no_run raw : re_search_id raw = None -> no_id_run raw.
Proof. intros H. exact (re_search_id_none raw H). Qed.

Lemma first_id_run_nonempty raw m : first_id_run raw m -> m <> [].
Proof. intros (pre & post & _ & _ & Hlen & _) ->. cbn in Hlen. lia. Qed.

Section AddModerator.

Variables (moderator : pystr) (modal_interaction : Interaction) (env : oracle) (s : State).

Let run_modal := exec (TicketTakenView.AddModeratorModal_on_submit moderator modal_interaction) env s.

Lemma add_moderator_unrecognised :
  re_search_id (strip moderator) = None -> refused run_modal s msg_unrecognised.
Proof using Type.
  intros Hnone. subst run_modal.
  unfold exec, TicketTakenView.AddModeratorModal_on_submit, refused, msg_unrecognised.
  cbv zeta. rewrite Hnone. rewrite run_await_. split; reflexivity.
Qed.

Lemma add_moderator_not_found m mid :
  re_search_id (strip moderator) = Some m -> int_of_str m = Some mid ->
  get_member (guild modal_interaction) mid = None ->
  env 0%nat (fetch_member mid) = Raised ->
  state_of run_modal = s /\ calls_of run_modal = [fetch_member mid; send_message msg_not_found].
Proof using Type.
  intros Hm Hmid Hcache Hfetch. subst run_modal.
  unfold exec, TicketTakenView.AddModeratorModal_on_submit, msg_not_found,
    TicketTakenView.resolve_member.
  cbv zeta. rewrite Hm, Hmid, Hcache.
  rewrite run_bind, run_try_except, run_bind, run_await. cbn [length].
  rewrite Hfetch. cbn [run]. rewrite run_await_. split; reflexivity.
Qed.

Lemma add_moderator_added m mid member fetched ch :
  re_search_id (strip moderator) = Some m -> int_of_str m = Some mid ->
  resolves (guild modal_interaction) env mid member fetched ->
  channel modal_interaction = Some ch ->
  (forall n t, env n (set_permissions ch t po_read_write) = Returned tt) ->
  (forall n c, env n (channel_send ch c None None) = Returned tt) ->
  (forall n, env n (send_message msg_added) = Returned tt) ->
  exists e,
    audit_entry info (lit "Модератор добавлен в тикет") e /\
    run_modal =
      (Some tt, logged s e,
       fetched ++ [set_permissions ch (TMember (user_id member)) po_read_write;
                   channel_send ch (added_notice member ch) None None;
                   send_message msg_added]).
Proof using Type.
  intros Hm Hmid Hres Hch Hperm Hsend Hack. subst run_modal.
  unfold exec, TicketTakenView.AddModeratorModal_on_submit, msg_added, added_notice,
    TicketTakenView.resolve_member in *.
  cbv zeta. rewrite Hm, Hmid, Hch.
  destruct Hres as [[Hcache ->]|(Hcache & Hfetch & ->)]; rewrite Hcache.
  - cbn [run bind]. run_simp. rewrite Hperm. run_simp. rewrite Hsend. run_simp.
    rewrite Hack. run_simp.
    eexists. split; [|reflexivity]. split; [reflexivity|vm_compute; reflexivity].
  - rewrite run_bind, run_try_except, run_bind, run_await. cbn [length].
    rewrite Hfetch. cbn [run]. run_simp. rewrite Hperm. run_simp. rewrite Hsend. run_simp.
    rewrite Hack. run_simp.
    eexists. split; [|reflexivity]. split; [reflexivity|vm_compute; reflexivity].
Qed.

End AddModerator.

(** C8. The add-moderator button, pressed by the claimant or an
    administrator, opens the form.  On submission the leftmost run of 17
    to 20 decimal digits of the stripped input is the identity (the sample
    of the specification yields 123456789012345678); it always parses.
    With no such run, or when the identity resolves neither in the guild
    cache nor by a fetch, the reply says so and nothing else happens.
    When the member resolves and the platform accepts the calls, the
    member's overwrite on the ticket channel is set to view, send and
    history all granted, the notice that starts with the member's mention
    is posted there, the actor is acknowledged, the info-level audit entry
    is handed to the log, and neither the views nor the settings
    change. *)
Theorem C8_add_collaborator
    (self : TicketTakenView) (interaction modal_interaction : Interaction)
    (moderator : pystr) (env : oracle) (s : State) :
  taker_or_administrator self interaction ->
  let opened := exec (TicketTakenView.add_moderator self interaction) env s in
  let r := exec (TicketTakenView.AddModeratorModal_on_submit moderator modal_interaction) env s in
  let raw := strip moderator in
  (state_of opened = s /\ calls_of opened = [send_modal (AddModeratorModal self)]) /\
  (re_search_id (strip (lit "please add <@123456789012345678> thanks")) =
     Some (lit "123456789012345678") /\
   int_of_str (lit "123456789012345678") = Some 123456789012345678) /\
  (re_search_id raw = None -> no_id_run raw /\ refused r s msg_unrecognised) /\
  (forall m, re_search_id raw = Some m ->
     first_id_run raw m /\
     exists mid, 0 <= mid /\ int_of_str m = Some mid /\
       (get_member (guild modal_interaction) mid = None ->
        env 0%nat (fetch_member mid) = Raised ->
        state_of r = s /\ calls_of r = [fetch_member mid; send_message msg_not_found]) /\
       (forall member fetched ch,
          resolves (guild modal_interaction) env mid member fetched ->
          channel modal_interaction = Some ch ->
          (forall n t po, env n (set_permissions ch t po) = Returned tt) ->
          (forall n c, env n (channel_send ch c None None) = Returned tt) ->
          (forall n, env n (send_message msg_added) = Returned tt) ->
          calls_of r =
            fetched ++
            [set_permissions ch (TMember (user_id member))
               {| view_channel := Some true; send_messages := Some true;
                  read_message_history := Some true |};
             channel_send ch
               (mention member ++ lit " Вы были добавлены в тикет " ++ channel_mention ch)
               None None;
             send_message msg_added] /\
          (exists e, audit_entry info (lit "Модератор добавлен в тикет") e /\
                     state_of r = logged s e) /\
          views (state_of r) = views s /\ settings (state_of r) = settings s)).
Proof.
  intros Hauth opened r raw. subst opened r raw. split; [|split; [|split]].
  - unfold exec, TicketTakenView.add_moderator. rewrite (taker_or_admin _ _ Hauth).
    cbn [negb]. rewrite run_await_. split; reflexivity.
  - split; vm_compute; reflexivity.
  - intros Hnone. split; [apply re_search_id_no_run; exact Hnone|].
    apply add_moderator_unrecognised; exact Hnone.
  - intros m Hm. pose proof (re_search_id_first _ _ Hm) as Hfirst.
    split; [exact Hfirst|].
    destruct (int_of_str_decimal m (first_id_run_nonempty _ _ Hfirst)) as (mid & Hpos & Hmid).
    { destruct Hfirst as (_ & _ & _ & Hd & _). exact Hd. }
    { destruct Hfirst as (_ & _ & _ & _ & Hlen & _). unfold int_max_str_digits. lia. }
    exists mid. split; [exact Hpos|]. split; [exact Hmid|]. split.
    + intros Hcache Hfetch.
      exact (add_moderator_not_found moderator modal_interaction env s m mid Hm Hmid Hcache Hfetch).
    + intros member fetched ch Hres Hch Hperm Hsend Hack.
      destruct (add_moderator_added moderator modal_interaction env s m mid member fetched ch
                  Hm Hmid Hres Hch (fun n t => Hperm n t po_read_write) Hsend Hack)
        as (e & He & Hrun).
      rewrite Hrun. cbn [calls_of state_of fst snd].
      split; [reflexivity|]. split; [exists e; split; [exact He|reflexivity]|].
      split; [apply logged_views|apply logged_settings].
Qed.

(** The C8 statement at a sample: the claimant adds the second staff
    member, written as a zero-padded identity inside a mention. *)
Lemma C8_witness :
  calls_of (exec (TicketTakenView.AddModeratorModal_on_submit
                    (lit "please add <@00000000000000003> thanks")
                    (Sample.press Sample.server Sample.staff))
              Sample.all_ok (Sample.state Sample.with_staff (Some 2))) =
    [set_permissions 500 (TMember 3)
       {| view_channel := Some true; send_messages := Some true;
          read_message_history := Some true |};
     channel_send 500 (lit "<@3> Вы были добавлены в тикет <#500>") None None;
     send_message msg_added] /\
  calls_of (exec (TicketTakenView.add_moderator Sample.taken
                    (Sample.press Sample.server Sample.staff))
              Sample.all_ok (Sample.state Sample.with_staff (Some 2))) =
    [send_modal (AddModeratorModal Sample.taken)].
Proof.
  destruct (C8_add_collaborator Sample.taken (Sample.press Sample.server Sample.staff)
              (Sample.press Sample.server Sample.staff)
              (lit "please add <@00000000000000003> thanks")
              Sample.all_ok (Sample.state Sample.with_staff (Some 2)))
    as ((_ & Hopen) & _ & _ & Hsome).
  - left. reflexivity.
  - split; [|exact Hopen].
    destruct (Hsome (lit "00000000000000003")) as (_ & mid & _ & Hmid & _ & Hadd);
      [vm_compute; reflexivity|].
    assert (mid = 3) as -> by (vm_compute in Hmid; congruence).
    destruct (Hadd Sample.staff' [] 500) as (Hcalls & _).
    + left. split; vm_compute; reflexivity.
    + reflexivity.
    + intros n t po. reflexivity.
    + intros n c. reflexivity.
    + intros n. reflexivity.
    + rewrite Hcalls. vm_compute. reflexivity.
Defined.

(** ** The settings form *)

(** [save_settings(data)]: whether it returns, and what it leaves on
    disk. *)
Lemma run_save_settings data env s tr :
  run (save_settings data) env s tr =
  (if dumps data s then Some tt else None, set_settings_file (left_on_disk data s) s, tr).
Proof.
  unfold save_settings, dumps, left_on_disk. cbn [run bind get_state].
  destruct s as [d f [| |] v l]; cbn [disk settings_file set_settings_file];
    [destruct (encodable data)| |]; reflexivity.
Qed.

Section SettingsForm.
Variables (key : string) (new_val : pystr) (interaction : Interaction).
Variables (env : oracle) (s : State).

Let submitted := exec (GenericValueModal.on_submit key new_val interaction) env s.

Lemma settings_form_stored v :
  (endswith key "_id" = true /\ exists n, str_to_int_maybe new_val = Some n /\ v = VInt n) \/
  (endswith key "_id" = false /\ v = VStr new_val) ->
  let d := <[key := v]> (settings s) in
  state_of submitted = stored key v s /\
  calls_of submitted = (if dumps d s then [send_message (msg_updated key)] else []) /\
  (dumps d s = false -> value_of submitted = None).
Proof using Type.
  intros Hcase d. subst submitted d. unfold exec, GenericValueModal.on_submit.
  assert (Hrun : forall v',
    run (modify (fun s0 => set_settings (<[key := v']> (settings s0)) s0);;
         s0 ← get_state;
         save_settings (settings s0);;
         await_ (send_message (lit "✅ Настройка **" ++ py key ++ lit "** обновлена.")))
      env s [] =
    (if dumps (<[key := v']> (settings s)) s
     then match env 0%nat (send_message (msg_updated key)) with
          | Raised => None
          | Returned _ => Some tt
          end
     else None,
     stored key v' s,
     if dumps (<[key := v']> (settings s)) s then [send_message (msg_updated key)] else [])).
  { intros v'. rewrite run_bind. cbn [run modify]. rewrite run_bind. cbn [run get_state].
    rewrite run_bind, run_save_settings. cbn [settings set_settings].
    change (dumps (<[key := v']> (settings s)) (set_settings (<[key := v']> (settings s)) s))
      with (dumps (<[key := v']> (settings s)) s).
    destruct (dumps (<[key := v']> (settings s)) s); [|reflexivity].
    rewrite run_await_. reflexivity. }
  destruct Hcase as [[Hkey (n & Hconv & ->)]|[Hkey ->]]; rewrite Hkey; [rewrite Hconv|];
    rewrite Hrun; cbn [state_of calls_of value_of fst snd];
    (split; [reflexivity|]; split; [reflexivity|]); intros ->; reflexivity.
Qed.

Lemma settings_form_id_stored n :
  endswith key "_id" = true -> str_to_int_maybe new_val = Some n ->
  let d := <[key := VInt n]> (settings s) in
  state_of submitted = stored key (VInt n) s /\
  calls_of submitted = (if dumps d s then [send_message (msg_updated key)] else []) /\
  (dumps d s = false -> value_of submitted = None).
Proof using Type.
  intros Hkey Hconv. apply settings_form_stored. left. split; [exact Hkey|].
  exists n. split; [exact Hconv|reflexivity].
Qed.

Lemma settings_form_id_rejected :
  endswith key "_id" = true -> str_to_int_maybe new_val = None ->
  refused submitted s msg_not_a_number.
Proof using Type.
  intros Hkey Hconv. subst submitted. unfold exec, GenericValueModal.on_submit.
  rewrite Hkey, Hconv. run_simp.
  destruct (env 0%nat _); split; reflexivity.
Qed.

Lemma settings_form_text_stored :
  endswith key "_id" = false ->
  let d := <[key := VStr new_val]> (settings s) in
  state_of submitted = stored key (VStr new_val) s /\
  calls_of submitted = (if dumps d s then [send_message (msg_updated key)] else []) /\
  (dumps d s = false -> value_of submitted = None).
Proof using Type.
  intros Hkey. apply settings_form_stored. right. split; [exact Hkey|reflexivity].
Qed.

End SettingsForm.

Lemma dict_get_insert d k v : dict_get (<[k := v]> d) k = v.
Proof. unfold dict_get. rewrite lookup_insert_eq. reflexivity. Qed.

Lemma dict_get_insert_ne d k k' v : k <> k' -> dict_get (<[k := v]> d) k' = dict_get d k'.
Proof. intros Hne. unfold dict_get. rewrite lookup_insert_ne by exact Hne. reflexivity. Qed.

Lemma stored_settings key v s : settings (stored key v s) = <[key := v]> (settings s).
Proof. reflexivity. Qed.

(** After a dump that went through, the file holds the settings in
    memory. *)
Lemma stored_settings_file key v s :
  dumps (<[key := v]> (settings s)) s = true ->
  settings_file (stored key v s) = Holds (settings (stored key v s)).
Proof.
  unfold dumps, stored, left_on_disk. cbn [settings_file set_settings_file settings set_settings].
  destruct (disk s); [|discriminate..]. intros ->. reflexivity.
Qed.

Lemma load_settings_file env s d :
  settings_file s = Holds d -> exec load_settings env s = (Some d, s, []).
Proof.
  intros Hfile. unfold exec, load_settings. cbn [run bind get_state]. rewrite Hfile.
  reflexivity.
Qed.

Lemma ids_positive_default : ids_positive default_settings.
Proof.
  intros k Hk. unfold default_settings.
  repeat match goal with
  | |- id_positive (dict_get (<[?k' := _]> _) k) =>
    destruct (decide (k' = k)) as [<-|Hne];
      [rewrite dict_get_insert; first [left; reflexivity | vm_compute in Hk; discriminate]
      |rewrite (dict_get_insert_ne _ _ _ _ Hne); clear Hne]
  end.
  left. reflexivity.
Qed.

Lemma ids_positive_integer d : ids_positive d -> ids_integer d.
Proof.
  intros Hd k Hk. destruct (Hd k Hk) as [->|(n & -> & _)]; [left|right; exists n]; reflexivity.
Qed.

Lemma endswith_neq k k' : endswith k "_id" = true -> endswith k' "_id" = false -> k' <> k.
Proof. intros Hk Hk' ->. congruence. Qed.

(** C4, as the specification words it, fails: on the settings of a first
    run (every identifier null) the form stores [-5] under
    [staff_role_id], which is neither null nor positive. *)
Lemma C4_counterexample :
  let s := Sample.state default_settings None in
  let r := exec (GenericValueModal.on_submit "staff_role_id" (lit "-5")
                   (Sample.press Sample.server Sample.admin)) Sample.all_ok s in
  ids_positive (settings s) /\
  dict_get (settings (state_of r)) "staff_role_id" = VInt (-5) /\
  ~ ids_positive (settings (state_of r)).
Proof.
  cbn zeta. split; [exact ids_positive_default|].
  assert (dict_get (settings (state_of (exec (GenericValueModal.on_submit "staff_role_id"
            (lit "-5") (Sample.press Sample.server Sample.admin)) Sample.all_ok
            (Sample.state default_settings None)))) "staff_role_id" = VInt (-5)) as Hget.
  { destruct (settings_form_id_stored "staff_role_id" (lit "-5")
                (Sample.press Sample.server Sample.admin) Sample.all_ok
                (Sample.state default_settings None) (-5)) as [-> _];
      [reflexivity|vm_compute; reflexivity|].
    rewrite stored_settings. apply dict_get_insert. }
  split; [exact Hget|].
  intros Hpos. specialize (Hpos "staff_role_id" eq_refl). rewrite Hget in Hpos.
  destruct Hpos as [Hnone|(n & Hn & Hlt)]; [discriminate|].
  injection Hn as <-. lia.
Qed.

(** C4, amended.  The settings form keeps every [_id] field of the
    settings null or an integer, whether or not the write to the file
    goes through: under a key ending in [_id] it stores exactly the
    integer [int] read from the input, or stores nothing and answers that
    a number is wanted; a write to another key leaves the [_id] fields
    alone.  The integer is not checked for its sign: for every integer
    [z] of at most 4300 digits, zero and the negative ones included,
    submitting its numeral stores [z]. *)
Theorem C4_id_fields_integer
    (key : string) (new_val : pystr) (interaction : Interaction)
    (env : oracle) (s : State) :
  ids_integer (settings s) ->
  let r := exec (GenericValueModal.on_submit key new_val interaction) env s in
  ids_integer (settings (state_of r)) /\
  (endswith key "_id" = true ->
     match str_to_int_maybe new_val with
     | Some n => dict_get (settings (state_of r)) key = VInt n
     | None => refused r s msg_not_a_number
     end) /\
  (endswith key "_id" = false ->
     forall k, endswith k "_id" = true ->
       dict_get (settings (state_of r)) k = dict_get (settings s) k) /\
  (endswith key "_id" = true ->
     forall z, (numeral_digits z <= int_max_str_digits)%nat ->
       dict_get (settings (state_of
         (exec (GenericValueModal.on_submit key (str_of_int z) interaction) env s)))
         key = VInt z).
Proof.
  intros Hinv r. subst r. split; [|split; [|split]].
  - destruct (endswith key "_id") eqn:Hkey.
    + destruct (str_to_int_maybe new_val) as [n|] eqn:Hconv.
      * destruct (settings_form_id_stored key new_val interaction env s n Hkey Hconv) as [-> _].
        rewrite stored_settings. intros k Hk. destruct (decide (key = k)) as [<-|Hne].
        -- rewrite dict_get_insert. right. exists n. reflexivity.
        -- rewrite dict_get_insert_ne by exact Hne. apply Hinv, Hk.
      * destruct (settings_form_id_rejected key new_val interaction env s Hkey Hconv) as [-> _].
        exact Hinv.
    + destruct (settings_form_text_stored key new_val interaction env s Hkey) as [-> _].
      rewrite stored_settings. intros k Hk.
      rewrite dict_get_insert_ne by (apply (endswith_neq k key Hk Hkey)). apply Hinv, Hk.
  - intros Hkey. destruct (str_to_int_maybe new_val) as [n|] eqn:Hconv.
    + destruct (settings_form_id_stored key new_val interaction env s n Hkey Hconv) as [-> _].
      rewrite stored_settings. apply dict_get_insert.
    + apply settings_form_id_rejected; assumption.
  - intros Hkey k Hk.
    destruct (settings_form_text_stored key new_val interaction env s Hkey) as [-> _].
    rewrite stored_settings. apply dict_get_insert_ne, (endswith_neq k key Hk Hkey).
  - intros Hkey z Hz.
    destruct (settings_form_id_stored key (str_of_int z) interaction env s z Hkey
                (int_of_str_of_int z Hz)) as [-> _].
    rewrite stored_settings. apply dict_get_insert.
Qed.

(** The C4 statement at a sample: an administrator sets the staff role on
    the settings of a first run. *)
Lemma C4_witness :
  ids_integer (settings (Sample.state default_settings None)) /\
  ids_integer (settings (state_of
    (exec (GenericValueModal.on_submit "staff_role_id" (lit "100")
             (Sample.press Sample.server Sample.admin)) Sample.all_ok
          (Sample.state default_settings None)))).
Proof.
  split; [exact (ids_positive_integer _ ids_positive_default)|].
  apply (C4_id_fields_integer "staff_role_id" (lit "100")
           (Sample.press Sample.server Sample.admin) Sample.all_ok
           (Sample.state default_settings None)).
  exact (ids_positive_integer _ ids_positive_default).
Defined.

(** C5. Under a key ending in [_id], an input that [int] accepts is
    stored as that integer: a later read of the key gives it, whatever
    becomes of the write to the file.  When that write goes through, the
    file holds the integer too, a reload of the file gives it back, and
    the only call is the acknowledgement; when it raises, the exception
    escapes and the actor gets no reply.  The sample of the specification
    parses to 123456789012345678, and the numeral of every integer of at
    most 4300 digits parses back to it.  An input that [int] refuses is
    answered with the validation message before anything is written:
    neither the settings nor the file change. *)
Theorem C5_id_round_trip
    (key : string) (new_val : pystr) (interaction : Interaction)
    (env env' : oracle) (s : State) :
  endswith key "_id" = true ->
  let r := exec (GenericValueModal.on_submit key new_val interaction) env s in
  (forall n, str_to_int_maybe new_val = Some n ->
     dict_get (settings (state_of r)) key = VInt n /\
     (dumps (<[key := VInt n]> (settings s)) s = true ->
        settings_file (state_of r) = Holds (settings (state_of r)) /\
        (exists d, value_of (exec load_settings env' (state_of r)) = Some d /\
                   dict_get d key = VInt n) /\
        calls_of r = [send_message (msg_updated key)]) /\
     (dumps (<[key := VInt n]> (settings s)) s = false ->
        value_of r = None /\ calls_of r = [])) /\
  (str_to_int_maybe new_val = None ->
     settings (state_of r) = settings s /\
     settings_file (state_of r) = settings_file s /\
     refused r s msg_not_a_number) /\
  str_to_int_maybe (lit "123456789012345678") = Some 123456789012345678 /\
  (forall z, (numeral_digits z <= int_max_str_digits)%nat ->
     str_to_int_maybe (str_of_int z) = Some z).
Proof.
  intros Hkey r. subst r. split; [|split; [|split]].
  - intros n Hconv.
    destruct (settings_form_id_stored key new_val interaction env s n Hkey Hconv)
      as (Hstate & Hcalls & Hvalue).
    cbv zeta in Hcalls, Hvalue. rewrite Hstate, Hcalls.
    rewrite stored_settings, dict_get_insert. split; [reflexivity|]. split.
    + intros Hdumps. rewrite Hdumps.
      pose proof (stored_settings_file key (VInt n) s Hdumps) as Hfile.
      split; [exact Hfile|]. split; [|reflexivity].
      exists (<[key := VInt n]> (settings s)).
      rewrite (load_settings_file env' _ _ Hfile).
      split; [reflexivity|apply dict_get_insert].
    + intros Hdumps. rewrite Hdumps. split; [apply Hvalue; exact Hdumps|reflexivity].
  - intros Hconv.
    pose proof (settings_form_id_rejected key new_val interaction env s Hkey Hconv) as Href.
    destruct Href as [Hst Hcalls]. rewrite Hst. repeat split; assumption.
  - vm_compute. reflexivity.
  - exact int_of_str_of_int.
Qed.

(** The C5 statement at a sample: the identifier of the specification,
    written to the log channel setting. *)
Lemma C5_witness :
  dict_get (settings (state_of
    (exec (GenericValueModal.on_submit "log_channel_id" (lit "123456789012345678")
             (Sample.press Sample.server Sample.admin)) Sample.all_ok
          (Sample.state default_settings None)))) "log_channel_id" =
  VInt 123456789012345678.
Proof.
  destruct (C5_id_round_trip "log_channel_id" (lit "123456789012345678")
              (Sample.press Sample.server Sample.admin) Sample.all_ok Sample.all_ok
              (Sample.state default_settings None)) as (Hstore & _).
  - reflexivity.
  - destruct (Hstore 123456789012345678) as (Hget & _); [vm_compute; reflexivity|exact Hget].
Defined.

(** * Further properties of the handlers *)

(** ** Deleting and rejecting a claimed ticket *)

(** X1. [delete_ticket], pressed by the claimant or an administrator,
    never touches the state.  Once the acknowledgement has been sent the
    channel deletion is attempted and its failure is swallowed: the
    handler returns normally.  When the acknowledgement itself fails the
    exception escapes and the channel is not deleted. *)
Theorem X1_delete_ticket
    (self : TicketTakenView) (interaction : Interaction) (env : oracle) (s : State) :
  taker_or_administrator self interaction ->
  let r := exec (TicketTakenView.delete_ticket self interaction) env s in
  state_of r = s /\
  match env 0%nat (send_message msg_deleting) with
  | Returned _ =>
    value_of r = Some tt /\
    calls_of r = send_message msg_deleting ::
                 match channel interaction with
                 | Some ch => [channel_delete ch]
                 | None => []
                 end
  | Raised => value_of r = None /\ calls_of r = [send_message msg_deleting]
  end.
Proof.
  intros Hauth r. subst r. unfold exec, TicketTakenView.delete_ticket.
  rewrite (taker_or_admin _ _ Hauth). cbn [negb]. fold msg_deleting.
  rewrite run_bind, run_await_. cbn [length app].
  destruct (env 0%nat (send_message msg_deleting)) as [|[]].
  - repeat split.
  - rewrite run_try_except. destruct (channel interaction) as [ch|].
    + rewrite run_await_. cbn [length app].
      destruct (env 1%nat (channel_delete ch)) as [|[]]; repeat split.
    + repeat split.
Qed.

Lemma X1_witness :
  calls_of (exec (TicketTakenView.delete_ticket Sample.taken
                    (Sample.press Sample.server Sample.staff))
              Sample.all_ok (Sample.state Sample.with_staff (Some 2))) =
    [send_message msg_deleting; channel_delete 500].
Proof.
  destruct (X1_delete_ticket Sample.taken (Sample.press Sample.server Sample.staff)
              Sample.all_ok (Sample.state Sample.with_staff (Some 2))) as (_ & _ & Hcalls).
  - left. reflexivity.
  - exact Hcalls.
Defined.

(** What the rejection form does after the notification, whatever became
    of it: the acknowledgement, then the audit entry and the deletion of
    the channel. *)
Lemma reject_tail self reason modal_interaction env s tr ch :
  channel modal_interaction = Some ch ->
  let taker := user modal_interaction in
  let e := log_embed warning (Some (lit "Заявка отклонена"))
             (Some (lit "Тикет отклонён модератором " ++ user_str taker ++ lit " (id="
                    ++ str_of_int (user_id taker) ++ lit ")" ++ nl ++ nl
                    ++ TicketTakenView.ticket_text self))
             (Some taker) (Some (user_id (owner self))) (Some ch) (Some reason) in
  run (await_ (send_message msg_rejected);;
       try_except
         (send_log_embed warning (Some (lit "Заявка отклонена"))
            (Some (lit "Тикет отклонён модератором " ++ user_str taker ++ lit " (id="
                   ++ str_of_int (user_id taker) ++ lit ")" ++ nl ++ nl
                   ++ TicketTakenView.ticket_text self))
            (Some taker) (Some (user_id (owner self))) (channel modal_interaction)
            (Some reason);;
          try_except
            (match channel modal_interaction with
             | Some ch => await_ (channel_delete ch)
             | None => Ret tt
             end)
            pass)
         pass) env s tr =
  match env (List.length tr) (send_message msg_rejected) with
  | Returned _ => (Some tt, logged s e, tr ++ [send_message msg_rejected; channel_delete ch])
  | Raised => (None, s, tr ++ [send_message msg_rejected])
  end.
Proof.
  intros Hch taker e. subst e taker. rewrite Hch.
  rewrite run_bind, run_await_.
  destruct (env (List.length tr) (send_message msg_rejected)) as [|[]]; [reflexivity|].
  rewrite run_try_except, run_bind, run_send_log_embed, run_try_except, run_await_.
  rewrite <- app_assoc. cbn [app].
  destruct (env _ (channel_delete ch)) as [|[]]; reflexivity.
Qed.

Lemma log_embed_reason level title description moderator owner_id channel_id reason :
  reason <> [] ->
  In (lit "Причина", reason, false)
     (embed_fields (log_embed level title description moderator owner_id channel_id
                      (Some reason))).
Proof.
  intros Hne. cbn [log_embed embed_fields]. unfold log_fields.
  rewrite !in_app_iff. do 3 right.
  destruct reason as [|c t]; [contradiction|]. left. reflexivity.
Qed.

Lemma reject_dm_run (m : Member) description env s tr :
  run (try_except
         (description ← TicketTakenView.add_str (VStr description)
                           (nl ++ nl ++ lit "-# С уважением команда Abyss");
          await_ (member_send (user_id m)
                    {| embed_title := lit "Ваша заявка отклонена!";
                       embed_description := description;
                       embed_color := EMBED_COLOR; embed_fields := [];
                       embed_footer := None |}))
         pass) env s tr =
  (Some tt, s,
   tr ++ [member_send (user_id m)
            {| embed_title := lit "Ваша заявка отклонена!";
               embed_description :=
                 description ++ nl ++ nl ++ lit "-# С уважением команда Abyss";
               embed_color := EMBED_COLOR; embed_fields := [];
               embed_footer := None |}]).
Proof. cbn [TicketTakenView.add_str bind]. apply run_best_effort. Qed.

(** X2. The rejection form, for a requester still in the guild and a
    configured text that is a string: the requester is sent the text,
    followed by the reason when one was typed, and the signature; then
    the actor is acknowledged.  A failed notification changes nothing of
    what follows.  Once the acknowledgement has returned, a
    warning-level audit entry carrying the reason is handed to the log,
    the channel deletion is attempted and the handler returns normally;
    when the acknowledgement fails, nothing is logged or deleted. *)
Theorem X2_reject_notifies
    (self : TicketTakenView) (m : Member) (reason : pystr) (modal_interaction : Interaction)
    (env : oracle) (s : State) (text : pystr) (ch : Z) :
  reject_text s = VStr text ->
  channel modal_interaction = Some ch ->
  let r := exec (TicketTakenView.RejectReasonModal_on_submit self (Some m) reason
                   modal_interaction) env s in
  let dm := member_send (user_id m) (reject_notice text reason) in
  exists e,
    audit_entry warning (lit "Заявка отклонена") e /\
    (reason <> [] -> In (lit "Причина", reason, false) (embed_fields e)) /\
    match env 1%nat (send_message msg_rejected) with
    | Returned _ =>
      value_of r = Some tt /\ state_of r = logged s e /\
      calls_of r = [dm; send_message msg_rejected; channel_delete ch]
    | Raised =>
      value_of r = None /\ state_of r = s /\ calls_of r = [dm; send_message msg_rejected]
    end.
Proof.
  intros Htext Hch r dm. subst r dm.
  eexists. split; [|split]; cycle 2.
  - unfold exec, TicketTakenView.RejectReasonModal_on_submit.
    rewrite run_bind. cbn [run get_state]. cbv iota.
    unfold reject_text in Htext. rewrite Htext.
    assert (match reason with
            | [] => VStr text
            | _ :: _ => VStr (str_of_value (VStr text) ++ nl ++ nl ++ lit "**Причина:** " ++ reason)
            end =
            VStr (match reason with
                  | [] => text
                  | _ => text ++ nl ++ nl ++ lit "**Причина:** " ++ reason
                  end)) as -> by (destruct reason; reflexivity).
    rewrite run_bind, reject_dm_run. cbv iota.
    fold msg_rejected.
    rewrite (reject_tail self reason modal_interaction env s _ ch Hch).
    change (List.length ([] ++ [_])) with 1%nat.
    unfold reject_notice.
    destruct (env 1%nat (send_message msg_rejected)) as [|[]]; repeat split.
  - split; vm_compute; reflexivity.
  - apply log_embed_reason.
Qed.

Lemma X2_witness :
  calls_of (exec (TicketTakenView.RejectReasonModal_on_submit Sample.taken
                    (Some Sample.requester) (lit "too young")
                    (Sample.press Sample.server Sample.staff))
              Sample.all_ok (Sample.state Sample.with_staff (Some 2))) =
    [member_send 1 (reject_notice (lit "Ваш тикет был отклонён.") (lit "too young"));
     send_message msg_rejected; channel_delete 500].
Proof.
  destruct (X2_reject_notifies Sample.taken Sample.requester (lit "too young")
              (Sample.press Sample.server Sample.staff) Sample.all_ok
              (Sample.state Sample.with_staff (Some 2))
              (lit "Ваш тикет был отклонён.") 500) as (e & _ & _ & _ & _ & Hcalls).
  - vm_compute. reflexivity.
  - reflexivity.
  - exact Hcalls.
Defined.

(** X3. When the requester has left the guild, the reject button of the
    claimant or an administrator opens the reason form with no member to
    notify, and the form then sends no direct message at all: its first
    call is the acknowledgement; once that has returned the warning-level
    audit entry is handed to the log and the channel is deleted. *)
Theorem X3_reject_requester_gone
    (self : TicketTakenView) (interaction modal_interaction : Interaction)
    (reason : pystr) (env env' : oracle) (s s' : State) (ch : Z) :
  taker_or_administrator self interaction ->
  get_member (guild interaction) (user_id (owner self)) = None ->
  channel modal_interaction = Some ch ->
  let opened := exec (TicketTakenView.reject_ticket self interaction) env s in
  let r := exec (TicketTakenView.RejectReasonModal_on_submit self None reason
                   modal_interaction) env' s' in
  state_of opened = s /\
  calls_of opened = [send_modal (RejectReasonModal self None)] /\
  match env' 0%nat (send_message msg_rejected) with
  | Returned _ =>
    value_of r = Some tt /\
    calls_of r = [send_message msg_rejected; channel_delete ch] /\
    exists e, audit_entry warning (lit "Заявка отклонена") e /\ state_of r = logged s' e
  | Raised =>
    value_of r = None /\ calls_of r = [send_message msg_rejected] /\ state_of r = s'
  end.
Proof.
  intros Hauth Hgone Hch opened r. subst opened r. split; [|split].
  - unfold exec, TicketTakenView.reject_ticket. rewrite (taker_or_admin _ _ Hauth).
    cbn [negb]. rewrite run_await_. reflexivity.
  - unfold exec, TicketTakenView.reject_ticket. rewrite (taker_or_admin _ _ Hauth).
    cbn [negb]. rewrite run_await_, Hgone. reflexivity.
  - unfold exec, TicketTakenView.RejectReasonModal_on_submit.
    rewrite run_bind. cbn [run get_state]. cbv iota.
    rewrite run_bind. cbn [run try_except]. cbv iota. fold msg_rejected.
    rewrite (reject_tail self reason modal_interaction env' s' _ ch Hch).
    change (List.length (@nil call)) with 0%nat.
    destruct (env' 0%nat (send_message msg_rejected)) as [|[]]; [repeat split|].
    split; [reflexivity|]. split; [reflexivity|].
    eexists. split; [|reflexivity]. split; vm_compute; reflexivity.
Qed.

Lemma X3_witness :
  calls_of (exec (TicketTakenView.RejectReasonModal_on_submit Sample.taken None
                    (lit "too young") (Sample.press Sample.server_left Sample.staff))
              Sample.all_ok (Sample.state Sample.with_staff (Some 2))) =
    [send_message msg_rejected; channel_delete 500].
Proof.
  destruct (X3_reject_requester_gone Sample.taken
              (Sample.press Sample.server_left Sample.staff)
              (Sample.press Sample.server_left Sample.staff) (lit "too young")
              Sample.all_ok Sample.all_ok
              (Sample.state Sample.with_staff (Some 2))
              (Sample.state Sample.with_staff (Some 2)) 500) as (_ & _ & _ & Hcalls & _).
  - left. reflexivity.
  - reflexivity.
  - reflexivity.
  - exact Hcalls.
Defined.

(** ** From the claim to the claimed view *)

(** X4. A successful claim ends by switching the message to the claimed
    view of the same ticket, and the buttons of that view obey exactly the
    actor who claimed and the administrators. *)
Theorem X4_claimant_controls
    (self : nat) (interaction : Interaction) (env : oracle) (s : State)
    (role : Z) (v : TicketInitialView) :
  staff_role s = Some role ->
  holds_role_or_admin role interaction ->
  views s !! self = Some v ->
  taken_by v = None ->
  exists view,
    last (calls_of (exec (TicketInitialView.take_button self interaction) env s)) =
      Some (edit_message view) /\
    taken_ticket view = initial_ticket v /\
    forall other : Interaction,
      TicketTakenView._is_taker_or_admin view other = true <->
      user_id (user other) = user_id (user interaction) \/ administrator (user other) = true.
Proof.
  intros Hrole Hyes Hv Hopen.
  destruct (take_button_claims self interaction env s role v Hrole Hyes Hv Hopen)
    as (res & perms & _ & Hrun).
  eexists. split; [|split].
  - rewrite Hrun. cbn [calls_of snd]. apply last_snoc.
  - reflexivity.
  - intros other. unfold TicketTakenView._is_taker_or_admin. cbn [taker_id].
    rewrite orb_true_iff, bool_decide_eq_true. split.
    + intros [Heq|Hadm]; [left; congruence|right; exact Hadm].
    + intros [Heq|Hadm]; [left; congruence|right; exact Hadm].
Qed.

Lemma X4_witness :
  exists view,
    last (calls_of (exec (TicketInitialView.take_button 0 (Sample.press Sample.server Sample.staff))
                      Sample.all_ok (Sample.state Sample.with_staff None))) =
      Some (edit_message view) /\
    TicketTakenView._is_taker_or_admin view (Sample.press Sample.server Sample.staff) = true /\
    TicketTakenView._is_taker_or_admin view (Sample.press Sample.server Sample.staff') = false.
Proof.
  destruct (X4_claimant_controls 0 (Sample.press Sample.server Sample.staff) Sample.all_ok
              (Sample.state Sample.with_staff None) 100
              {| initial_ticket := Sample.ticket; taken_by := None |})
    as (view & Hlast & _ & Hwho).
  - reflexivity.
  - exact sample_staff_allowed.
  - reflexivity.
  - reflexivity.
  - exists view. split; [exact Hlast|]. split.
    + apply Hwho. left. reflexivity.
    + destruct (TicketTakenView._is_taker_or_admin view
                  (Sample.press Sample.server Sample.staff')) eqn:Hb; [|reflexivity].
      apply Hwho in Hb. destruct Hb as [Hb|Hb]; discriminate Hb.
Defined.

(** ** The settings form *)

Lemma stored_file_cases key v s :
  settings_file (stored key v s) = settings_file s \/
  settings_file (stored key v s) = Holds (settings (stored key v s)) \/
  settings_file (stored key v s) = Damaged.
Proof.
  unfold stored, left_on_disk.
  cbn [settings_file set_settings_file settings set_settings].
  destruct (disk s); [destruct (encodable _)| |]; auto.
Qed.

(** X5. A submission of the settings form changes nothing but the
    submitted key: every other setting reads as before, and the views and
    the queued log entries are untouched.  After it the settings file is
    as it was, or holds exactly the settings in memory, or was cut short
    by a write that failed: it never holds a document that differs from
    the settings in memory, unless it did before.  Under a key that does
    not end in [_id] the text is stored as typed. *)
Theorem X5_settings_form_frame
    (key : string) (new_val : pystr) (interaction : Interaction) (env : oracle) (s : State) :
  let r := exec (GenericValueModal.on_submit key new_val interaction) env s in
  (forall k, k <> key -> settings (state_of r) !! k = settings s !! k) /\
  views (state_of r) = views s /\
  loop_tasks (state_of r) = loop_tasks s /\
  (settings_file (state_of r) = settings_file s \/
   settings_file (state_of r) = Holds (settings (state_of r)) \/
   settings_file (state_of r) = Damaged) /\
  (endswith key "_id" = false -> settings (state_of r) !! key = Some (VStr new_val)).
Proof.
  intros r. subst r.
  assert (forall v,
    (forall k, k <> key -> settings (stored key v s) !! k = settings s !! k) /\
    views (stored key v s) = views s /\ loop_tasks (stored key v s) = loop_tasks s /\
    settings (stored key v s) !! key = Some v) as Hstored.
  { intros v. rewrite stored_settings. repeat split.
    - intros k Hk. apply lookup_insert_ne. congruence.
    - apply lookup_insert_eq. }
  destruct (endswith key "_id") eqn:Hkey.
  - destruct (str_to_int_maybe new_val) as [n|] eqn:Hconv.
    + destruct (settings_form_id_stored key new_val interaction env s n Hkey Hconv) as [-> _].
      destruct (Hstored (VInt n)) as (H1 & H2 & H3 & _).
      split; [exact H1|]. split; [exact H2|]. split; [exact H3|].
      split; [apply stored_file_cases|discriminate].
    + destruct (settings_form_id_rejected key new_val interaction env s Hkey Hconv) as [-> _].
      split; [reflexivity|]. split; [reflexivity|]. split; [reflexivity|].
      split; [left; reflexivity|discriminate].
  - destruct (settings_form_text_stored key new_val interaction env s Hkey) as [-> _].
    destruct (Hstored (VStr new_val)) as (H1 & H2 & H3 & H5).
    split; [exact H1|]. split; [exact H2|]. split; [exact H3|].
    split; [apply stored_file_cases|]. intros _. exact H5.
Qed.

(** ** What [int] refuses *)

(** [PyLong_FromString] on a buffer, with the tests on the sign and the
    leading underscore written as comparisons. *)
Lemma long_value_cases s :
  long_value s =
  match skip_ascii_space s with
  | [] => None
  | c :: t =>
    let s2 := if ((c =? 43) || (c =? 45))%N then t else c :: t in
    let sign := if (c =? 45)%N then -1 else 1 in
    match s2 with
    | [] => None
    | c2 :: _ =>
      if (c2 =? 95)%N then None
      else
        match scan_digits s2 0 false false with
        | Some (n, true, rest) =>
          match skip_ascii_space rest with
          | [] => Some (sign * n)
          | _ => None
          end
        | _ => None
        end
    end
  end.
Proof.
  assert (Hus : forall (s2 : pystr) (k : option Z),
    match s2 with
    | 95%N :: _ => None
    | _ => k
    end =
    match s2 with
    | [] => k
    | c2 :: _ => if (c2 =? 95)%N then None else k
    end).
  { intros [|[|p] t2] k; [reflexivity..|].
    do 7 (try (destruct p as [p|p|]; try reflexivity)). }
  unfold long_value. destruct (skip_ascii_space s) as [|c t]; [reflexivity|].
  destruct c as [|p]; [reflexivity|].
  do 7 (try (destruct p as [p|p|]; try reflexivity)).
  all: cbv beta iota zeta; rewrite Hus; cbn [N.eqb Pos.eqb orb]; cbv iota;
    destruct t as [|c2 t2]; reflexivity.
Qed.

Lemma ascii_digit_none c : isdecimal_cp c = false -> ascii_digit c = None.
Proof.
  intros Hd. unfold ascii_digit.
  destruct ((48 <=? c)%N && (c <=? 57)%N) eqn:Hb; [|reflexivity].
  unfold isdecimal_cp, todecimal in Hd.
  assert (Hsplit : decimal_ranges = (48, 57)%N :: tl decimal_ranges) by reflexivity.
  rewrite Hsplit in Hd.
  assert (Hfind : forall (p : N * N -> bool) x l,
            find p (x :: l) = if p x then Some x else find p l) by reflexivity.
  rewrite Hfind in Hd. cbn [fst snd] in Hd. rewrite Hb in Hd. discriminate.
Qed.

Lemma transform_no_digit s :
  Forall (fun c => isdecimal_cp c = false) s ->
  Forall (fun c => ascii_digit c = None) (transform_decimal_and_space s).
Proof.
  induction 1 as [|c t Hc _ IH]; [constructor|]. cbn [transform_decimal_and_space].
  destruct (c <? 127)%N; [constructor; [apply ascii_digit_none, Hc|exact IH]|].
  destruct (isspace_cp c); [constructor; [reflexivity|exact IH]|].
  unfold isdecimal_cp in Hc. destruct (todecimal c); [discriminate|].
  constructor; [reflexivity|constructor].
Qed.

Lemma skip_ascii_space_Forall (P : N -> Prop) s :
  Forall P s -> Forall P (skip_ascii_space s).
Proof.
  induction 1 as [|c t Hc Ht IH]; [constructor|]. cbn [skip_ascii_space].
  destruct (ascii_isspace c); [exact IH|constructor; assumption].
Qed.

(** Without a digit the scan reads no value. *)
Lemma scan_no_digit s :
  Forall (fun c => ascii_digit c = None) s ->
  forall acc prev_us,
    match scan_digits s acc prev_us false with
    | Some (_, true, _) => False
    | _ => True
    end.
Proof.
  induction 1 as [|c t Hc _ IH]; intros acc prev_us; cbn [scan_digits].
  - destruct prev_us; exact I.
  - destruct (c =? 95)%N.
    + destruct prev_us; [exact I|apply IH].
    + rewrite Hc. destruct prev_us; exact I.
Qed.

Lemma long_value_no_digit s :
  Forall (fun c => ascii_digit c = None) s -> long_value s = None.
Proof.
  intros Hs. rewrite long_value_cases.
  pose proof (skip_ascii_space_Forall _ s Hs) as H1.
  destruct (skip_ascii_space s) as [|c t]; [reflexivity|]. cbv zeta.
  assert (Forall (fun c => ascii_digit c = None)
            (if ((c =? 43) || (c =? 45))%N then t else c :: t)) as H2.
  { destruct ((c =? 43) || (c =? 45))%N; [inversion H1; assumption|exact H1]. }
  destruct (if ((c =? 43) || (c =? 45))%N then t else c :: t) as [|c2 t2]; [reflexivity|].
  destruct (c2 =? 95)%N; [reflexivity|].
  pose proof (scan_no_digit _ H2 0 false) as Hscan.
  destruct (scan_digits (c2 :: t2) 0 false false) as [[[n [|]] rest]|];
    [contradiction|reflexivity|reflexivity].
Qed.

(** X6. A text without a single decimal digit is no integer for
    [str_to_int_maybe], and the settings form refuses it under every key
    ending in [_id]: the reply asks for a number and neither the settings
    nor the settings file change. *)
Theorem X6_id_without_digit_refused
    (key : string) (new_val : pystr) (interaction : Interaction) (env : oracle) (s : State) :
  Forall (fun c => isdecimal_cp c = false) new_val ->
  endswith key "_id" = true ->
  str_to_int_maybe new_val = None /\
  refused (exec (GenericValueModal.on_submit key new_val interaction) env s) s
    msg_not_a_number.
Proof.
  intros Hno Hkey.
  assert (str_to_int_maybe new_val = None) as Hconv.
  { unfold str_to_int_maybe. apply int_value_none. unfold int_value.
    apply long_value_no_digit, transform_no_digit, Hno. }
  split; [exact Hconv|].
  apply settings_form_id_rejected; assumption.
Qed.

Lemma X6_witness :
  refused (exec (GenericValueModal.on_submit "staff_role_id" (lit "moderators")
                   (Sample.press Sample.server Sample.admin))
             Sample.all_ok (Sample.state default_settings None))
    (Sample.state default_settings None) msg_not_a_number.
Proof.
  apply (X6_id_without_digit_refused "staff_role_id" (lit "moderators")
           (Sample.press Sample.server Sample.admin) Sample.all_ok
           (Sample.state default_settings None)).
  - repeat constructor.
  - reflexivity.
Defined.

(** ** Identities typed into the add-moderator form *)

(** X9. An input in which every run of decimal digits is shorter than 17
    is not taken for an identity: the form answers that it could not
    recognise one, and nothing else happens. *)
Theorem X9_short_run_unrecognised
    (moderator : pystr) (modal_interaction : Interaction) (env : oracle) (s : State) :
  no_id_run (strip moderator) ->
  re_search_id (strip moderator) = None /\
  refused (exec (TicketTakenView.AddModeratorModal_on_submit moderator modal_interaction) env s)
    s msg_unrecognised.
Proof.
  intros Hno.
  assert (re_search_id (strip moderator) = None) as Hnone.
  { destruct (re_search_id (strip moderator)) as [m|] eqn:Hm; [|reflexivity].
    destruct (re_search_id_some _ _ Hm) as (pre & post & Hraw & Hdec & Hlen & _).
    specialize (Hno pre m post Hraw Hdec). lia. }
  split; [exact Hnone|]. apply add_moderator_unrecognised. exact Hnone.
Qed.

Lemma no_id_run_short s : (List.length s < 17)%nat -> no_id_run s.
Proof.
  intros Hlen pre d post Hs _. rewrite Hs, !length_app in Hlen. lia.
Qed.

Lemma X9_witness :
  refused (exec (TicketTakenView.AddModeratorModal_on_submit (lit "<@1234567890>")
                   (Sample.press Sample.server Sample.staff))
             Sample.all_ok (Sample.state Sample.with_staff (Some 2)))
    (Sample.state Sample.with_staff (Some 2)) msg_unrecognised.
Proof.
  apply (X9_short_run_unrecognised (lit "<@1234567890>")
           (Sample.press Sample.server Sample.staff) Sample.all_ok
           (Sample.state Sample.with_staff (Some 2))).
  apply no_id_run_short. vm_compute. lia.
Defined.

Lemma digits_of_uint_decimal d : decimal_run (digits_of_uint d).
Proof. induction d; constructor; first [reflexivity | assumption]. Qed.

Lemma take_digits_all n d c t :
  decimal_run d -> (List.length d <= n)%nat -> isdecimal_cp c = false ->
  take_digits n (d ++ c :: t) = d.
Proof.
  intros Hd. revert n. induction Hd as [|x d Hx _ IH]; intros n Hlen Hc.
  - destruct n; [reflexivity|]. cbn [app take_digits]. rewrite Hc. reflexivity.
  - destruct n; [cbn in Hlen; lia|]. cbn [app take_digits]. rewrite Hx.
    rewrite IH; [reflexivity|cbn in Hlen; lia|exact Hc].
Qed.

Lemma strip_mention m : strip (mention m) = mention m.
Proof.
  unfold strip, rstrip, mention. cbn [app lstrip].
  change (isspace_cp 60) with false. cbv iota.
  change (60%N :: 64%N :: str_of_int (user_id m) ++ [62%N])
    with ([60%N; 64%N] ++ str_of_int (user_id m) ++ [62%N]).
  rewrite !rev_app_distr. cbn [rev app lstrip].
  change (isspace_cp 62) with false. cbv iota.
  change (62%N :: rev (str_of_int (user_id m)) ++ [64%N; 60%N])
    with (rev [62%N] ++ rev (str_of_int (user_id m)) ++ rev [60%N; 64%N]).
  rewrite <- !rev_app_distr, rev_involutive, <- app_assoc. reflexivity.
Qed.

Lemma re_search_mention m :
  0 < user_id m ->
  (17 <= List.length (str_of_int (user_id m)) <= 20)%nat ->
  re_search_id (mention m) = Some (str_of_int (user_id m)).
Proof.
  intros Hpos Hlen. unfold mention. cbn [app].
  rewrite re_search_id_cons. cbn [take_digits]. change (isdecimal_cp 60) with false.
  cbv iota. cbn [List.length Nat.leb].
  rewrite re_search_id_cons. cbn [take_digits]. change (isdecimal_cp 64) with false.
  cbv iota. cbn [List.length Nat.leb].
  assert (decimal_run (str_of_int (user_id m))) as Hdec.
  { destruct (user_id m); [lia| |lia]. apply digits_of_uint_decimal. }
  destruct (str_of_int (user_id m)) as [|c t] eqn:Hstr; [cbn in Hlen; lia|].
  cbn [app]. rewrite re_search_id_cons.
  change (c :: t ++ [62%N]) with ((c :: t) ++ 62%N :: []).
  rewrite (take_digits_all 20 (c :: t) 62 [] Hdec); [|lia|reflexivity].
  destruct (Nat.leb_spec 17 (List.length (c :: t))); [reflexivity|lia].
Qed.

(** X8. The mention of a member reads back as that member: for a
    member of the guild whose identifier is positive and written with 17
    to 20 digits, submitting the member's mention finds the identifier
    and, on a platform that takes the calls, sets exactly that member's
    overwrite on the channel to view, send and history all granted, posts
    the notice and acknowledges. *)
Theorem X8_mention_round_trip
    (member : Member) (modal_interaction : Interaction) (env : oracle) (s : State) (ch : Z) :
  0 < user_id member ->
  (17 <= List.length (str_of_int (user_id member)) <= 20)%nat ->
  get_member (guild modal_interaction) (user_id member) = Some member ->
  channel modal_interaction = Some ch ->
  (forall n t po, env n (set_permissions ch t po) = Returned tt) ->
  (forall n c, env n (channel_send ch c None None) = Returned tt) ->
  (forall n, env n (send_message msg_added) = Returned tt) ->
  re_search_id (strip (mention member)) = Some (str_of_int (user_id member)) /\
  int_of_str (str_of_int (user_id member)) = Some (user_id member) /\
  calls_of (exec (TicketTakenView.AddModeratorModal_on_submit (mention member)
                    modal_interaction) env s) =
    [set_permissions ch (TMember (user_id member))
       {| view_channel := Some true; send_messages := Some true;
          read_message_history := Some true |};
     channel_send ch
       (mention member ++ lit " Вы были добавлены в тикет " ++ channel_mention ch) None None;
     send_message msg_added].
Proof.
  intros Hpos Hlen Hcache Hch Hperm Hsend Hack.
  pose proof (re_search_mention member Hpos Hlen) as Hm.
  rewrite <- (strip_mention member) in Hm at 1.
  assert (Hint : int_of_str (str_of_int (user_id member)) = Some (user_id member)).
  { apply int_of_str_of_int. unfold numeral_digits. rewrite Z.abs_eq by lia.
    unfold int_max_str_digits. lia. }
  split; [exact Hm|]. split; [exact Hint|].
  destruct (add_moderator_added (mention member) modal_interaction env s
              (str_of_int (user_id member)) (user_id member) member [] ch
              Hm Hint) as (e & _ & Hrun); auto.
  + left. split; [exact Hcache|reflexivity].
  + rewrite Hrun. reflexivity.
Qed.

Lemma X8_witness :
  let member := Sample.member 123456789012345678 [100] false in
  let server :=
    {| guild_roles := {[100]}; guild_members := {[ 123456789012345678 := member ]};
       guild_channels := ∅; default_role := 10; me := Sample.bot |} in
  calls_of (exec (TicketTakenView.AddModeratorModal_on_submit (mention member)
                    (Sample.press server Sample.staff))
              Sample.all_ok (Sample.state Sample.with_staff (Some 2))) =
    [set_permissions 500 (TMember 123456789012345678)
       {| view_channel := Some true; send_messages := Some true;
          read_message_history := Some true |};
     channel_send 500 (lit "<@123456789012345678> Вы были добавлены в тикет <#500>")
       None None;
     send_message msg_added].
Proof.
  intros member server.
  destruct (X8_mention_round_trip member (Sample.press server Sample.staff) Sample.all_ok
              (Sample.state Sample.with_staff (Some 2)) 500) as (_ & _ & Hcalls).
  - reflexivity.
  - vm_compute. lia.
  - vm_compute. reflexivity.
  - reflexivity.
  - reflexivity.
  - reflexivity.
  - reflexivity.
  - rewrite Hcalls. vm_compute. reflexivity.
Defined.

(** ** Who can see a new ticket channel *)

Lemma overwrite_of_dict_set_eq t po ow : overwrite_of t (dict_set t po ow) = Some po.
Proof.
  unfold overwrite_of. induction ow as [|[k v] ow IH]; cbn [dict_set find fst snd].
  - rewrite bool_decide_eq_true_2 by reflexivity. reflexivity.
  - destruct (decide (t = k)) as [<-|Hne]; cbn [find fst snd].
    + rewrite bool_decide_eq_true_2 by reflexivity. reflexivity.
    + rewrite bool_decide_eq_false_2 by congruence. exact IH.
Qed.

Lemma overwrite_of_dict_set_ne t t' po ow :
  t <> t' -> overwrite_of t' (dict_set t po ow) = overwrite_of t' ow.
Proof.
  intros Hne. unfold overwrite_of. induction ow as [|[k v] ow IH]; cbn [dict_set find fst snd].
  - rewrite bool_decide_eq_false_2 by exact Hne. reflexivity.
  - destruct (decide (t = k)) as [<-|Hk]; cbn [find fst snd].
    + rewrite !bool_decide_eq_false_2 by exact Hne. reflexivity.
    + destruct (bool_decide (k = t')); [reflexivity|exact IH].
Qed.

(** The calls of a coroutine come after those issued before it. *)
Lemma run_extends {A} (p : prog A) env s tr :
  exists rest, calls_of (run p env s tr) = tr ++ rest.
Proof.
  revert s tr. induction p as [a| |k IH|s' k IH|c k IH]; intros s tr; cbn [run].
  - exists []. cbn. rewrite app_nil_r. reflexivity.
  - exists []. cbn. rewrite app_nil_r. reflexivity.
  - apply IH.
  - apply IH.
  - destruct (IH (env (List.length tr) c) s (tr ++ [c])) as [rest Hrest].
    exists (c :: rest). rewrite Hrest, <- app_assoc. reflexivity.
Qed.

(** The channel the intake form asks for, when the fields are valid. *)
Lemma on_submit_creates author nick age purpose from_where read_rules interaction env s :
  length_between 3 50 (strip nick) -> age_ok (strip age) ->
  length_between 50 500 (strip purpose) -> length_between 1 50 (strip from_where) ->
  length_between 1 20 (strip read_rules) ->
  usable_id (dict_get (settings s) "staff_role_id") ->
  usable_id (dict_get (settings s) "ticket_category_id") ->
  let g := guild interaction in
  let base :=
    dict_set (TMember (user_id (me g))) full_access
      (dict_set (TMember (user_id author)) full_access
         (dict_set (TRole (default_role g)) deny_view [])) in
  exists category rest,
    calls_of (exec (TicketModal.on_submit author nick age purpose from_where read_rules
                      interaction) env s) =
    create_text_channel (firstn 90 (lit "ticket-" ++ user_name author))
      match granted_role g s with
      | Some role => dict_set (TRole role) full_access base
      | None => base
      end
      category (TicketModal.topic author) :: rest.
Proof.
  intros H1 H2 H3 H4 H5 Hstaff Hcat g base. subst g base.
  unfold exec, TicketModal.on_submit, granted_role. cbv zeta.
  apply length_check in H1. rewrite H1. apply age_check in H2. rewrite H2.
  apply length_check in H3. rewrite H3. apply length_check in H4. rewrite H4.
  apply length_check in H5. rewrite H5.
  cbn [run bind get_state]. unfold usable_id in *. fold deny_view.
  destruct (truthy (dict_get (settings s) "staff_role_id"));
    [unfold int_ at 1;
     destruct (int_of_value (dict_get (settings s) "staff_role_id")) as [sr|];
       [|exfalso; apply Hstaff; reflexivity]|];
    cbn [run bind];
    try (destruct (get_role (guild interaction) sr); cbn [run bind]).
  all: destruct (truthy (dict_get (settings s) "ticket_category_id"));
    [unfold int_;
     destruct (int_of_value (dict_get (settings s) "ticket_category_id")) as [cat|];
       [|exfalso; apply Hcat; reflexivity]|];
    cbn [run bind].
  all: rewrite run_bind, run_await; cbn [length].
  all: match goal with
       | |- context [create_text_channel ?n ?o ?c ?t] => exists c
       end.
  all: match goal with
       | |- context [?e 0%nat (create_text_channel ?n ?o ?c ?t)] =>
         destruct (e 0%nat (create_text_channel n o c t)) as [|ch]
       end.
  all: try (exists []; reflexivity).
  all: cbv iota;
       match goal with
       | |- context [run ?p ?e ?s0 ([] ++ [?c])] =>
         destruct (run_extends p e s0 ([] ++ [c])) as [rest Hrest]
       end; exists rest; rewrite Hrest; reflexivity.
Qed.

Lemma overwrite_of_dict_set_inv t k v po ow :
  overwrite_of t (dict_set k v ow) = Some po ->
  (t = k /\ po = v) \/ overwrite_of t ow = Some po.
Proof.
  destruct (decide (k = t)) as [<-|Hne].
  - rewrite overwrite_of_dict_set_eq. intros [= <-]. left. split; reflexivity.
  - rewrite overwrite_of_dict_set_ne by exact Hne. right. assumption.
Qed.

(** X10. The channel a valid intake form asks for is private.  Its name
    has at most 90 characters and its topic names the requester.  The
    requester and the bot can read and write in it, and so can the
    configured staff role when the guild has it; no one else is given
    access, and everyone else is denied the view, unless the configured
    staff role is the guild's default role itself. *)
Theorem X10_ticket_channel_private
    (author : Member) (nick age purpose from_where read_rules : pystr)
    (interaction : Interaction) (env : oracle) (s : State) :
  length_between 3 50 (strip nick) -> age_ok (strip age) ->
  length_between 50 500 (strip purpose) -> length_between 1 50 (strip from_where) ->
  length_between 1 20 (strip read_rules) ->
  usable_id (dict_get (settings s) "staff_role_id") ->
  usable_id (dict_get (settings s) "ticket_category_id") ->
  let g := guild interaction in
  exists name ow category rest,
    calls_of (exec (TicketModal.on_submit author nick age purpose from_where read_rules
                      interaction) env s) =
      create_text_channel name ow category (TicketModal.topic author) :: rest /\
    len name <= 90 /\
    overwrite_of (TMember (user_id author)) ow = Some full_access /\
    overwrite_of (TMember (user_id (me g))) ow = Some full_access /\
    (forall role, granted_role g s = Some role ->
       overwrite_of (TRole role) ow = Some full_access) /\
    (granted_role g s <> Some (default_role g) ->
       overwrite_of (TRole (default_role g)) ow = Some deny_view) /\
    (forall t po, overwrite_of t ow = Some po ->
       t = TRole (default_role g) /\ po = deny_view \/
       po = full_access /\
       (t = TMember (user_id author) \/ t = TMember (user_id (me g)) \/
        exists role, granted_role g s = Some role /\ t = TRole role)).
Proof.
  intros H1 H2 H3 H4 H5 Hstaff Hcat g.
  destruct (on_submit_creates author nick age purpose from_where read_rules interaction
              env s H1 H2 H3 H4 H5 Hstaff Hcat) as (category & rest & Hcalls).
  fold g in Hcalls.
  set (base := dict_set (TMember (user_id (me g))) full_access
                 (dict_set (TMember (user_id author)) full_access
                    (dict_set (TRole (default_role g)) deny_view []))) in Hcalls.
  assert (Hauthor : overwrite_of (TMember (user_id author)) base = Some full_access).
  { subst base. destruct (decide (user_id (me g) = user_id author)) as [->|Hne].
    - apply overwrite_of_dict_set_eq.
    - rewrite overwrite_of_dict_set_ne by congruence. apply overwrite_of_dict_set_eq. }
  assert (Hme : overwrite_of (TMember (user_id (me g))) base = Some full_access)
    by apply overwrite_of_dict_set_eq.
  assert (Hdefault : overwrite_of (TRole (default_role g)) base = Some deny_view).
  { subst base. rewrite !overwrite_of_dict_set_ne by discriminate.
    apply overwrite_of_dict_set_eq. }
  assert (Hbase : forall t po, overwrite_of t base = Some po ->
            t = TRole (default_role g) /\ po = deny_view \/
            po = full_access /\
            (t = TMember (user_id author) \/ t = TMember (user_id (me g)))).
  { intros t po Hin. subst base.
    apply overwrite_of_dict_set_inv in Hin as [[-> ->]|Hin]; [right; auto|].
    apply overwrite_of_dict_set_inv in Hin as [[-> ->]|Hin]; [right; auto|].
    apply overwrite_of_dict_set_inv in Hin as [[-> ->]|Hin]; [left; auto|].
    discriminate Hin. }
  eexists _, _, category, rest. split; [exact Hcalls|].
  split; [unfold len; pose proof (firstn_le_length 90 (lit "ticket-" ++ user_name author)); lia|].
  destruct (granted_role g s) as [role|].
  - split; [rewrite overwrite_of_dict_set_ne by discriminate; exact Hauthor|].
    split; [rewrite overwrite_of_dict_set_ne by discriminate; exact Hme|].
    split; [intros ? [= <-]; apply overwrite_of_dict_set_eq|].
    split.
    + intros Hne. rewrite overwrite_of_dict_set_ne by congruence. exact Hdefault.
    + intros t po Hin.
      apply overwrite_of_dict_set_inv in Hin as [[-> ->]|Hin].
      * right. split; [reflexivity|]. right. right. exists role. split; reflexivity.
      * destruct (Hbase t po Hin) as [?|[? [?|?]]]; auto.
  - split; [exact Hauthor|]. split; [exact Hme|].
    split; [discriminate|]. split; [intros _; exact Hdefault|].
    intros t po Hin. destruct (Hbase t po Hin) as [?|[? [?|?]]]; auto.
Qed.

Lemma X10_witness :
  exists name ow category rest,
    calls_of (exec (TicketModal.on_submit Sample.requester (lit "Steve") (lit "20")
                      (lit "I would like to build a railway station and a farm")
                      (lit "a friend") (lit "yes")
                      (Sample.press Sample.server Sample.requester))
                Sample.all_ok (Sample.state Sample.with_staff None)) =
      create_text_channel name ow category (TicketModal.topic Sample.requester) :: rest /\
    overwrite_of (TRole 10) ow = Some deny_view /\
    overwrite_of (TRole 100) ow = Some full_access.
Proof.
  destruct (X10_ticket_channel_private Sample.requester (lit "Steve") (lit "20")
              (lit "I would like to build a railway station and a farm")
              (lit "a friend") (lit "yes")
              (Sample.press Sample.server Sample.requester)
              Sample.all_ok (Sample.state Sample.with_staff None))
    as (name & ow & category & rest & Hcalls & _ & _ & _ & Hrole & Hdefault & _).
  - vm_compute. split; discriminate.
  - split; [vm_compute; split; discriminate|].
    assert (Hd : forallb isdigit_cp (strip (lit "20")) = true) by (vm_compute; reflexivity).
    rewrite forallb_forall in Hd. apply Forall_forall. intros x Hx. apply Hd.
    apply list_elem_of_In. exact Hx.
  - vm_compute. split; discriminate.
  - vm_compute. split; discriminate.
  - vm_compute. split; discriminate.
  - intros _. vm_compute. discriminate.
  - intros H. vm_compute in H. discriminate.
  - exists name, ow, category, rest. split; [exact Hcalls|]. split.
    + apply Hdefault. vm_compute. discriminate.
    + apply Hrole. vm_compute. reflexivity.
Defined.

(** ** The audit log *)

Lemma int_of_str_nil : int_of_str [] = None.
Proof. reflexivity. Qed.

Lemma logged_route s e :
  logged s e =
  set_loop_tasks (loop_tasks s ++ log_route (dict_get (settings s) "log_channel_id") e) s.
Proof.
  unfold logged, log_target, log_route. cbv zeta.
  assert (Hid : set_loop_tasks (loop_tasks s ++ []) s = s)
    by (rewrite app_nil_r; destruct s; reflexivity).
  destruct (dict_get (settings s) "log_channel_id") as [|n|t]; cbn [truthy int_of_value].
  - symmetry. exact Hid.
  - destruct (n =? 0); cbn [negb]; [symmetry; exact Hid|reflexivity].
  - destruct t as [|c t]; [rewrite int_of_str_nil; symmetry; exact Hid|].
    destruct (int_of_str (c :: t)); [reflexivity|symmetry; exact Hid].
Qed.

(** X11. [send_log_embed] never raises and awaits nothing, and it touches
    neither the settings, the settings file nor the views.  It puts one
    task on the loop, for the channel [int(log_channel_id)] and with the
    colour of the level, when [log_channel_id] is a non-zero integer or a
    string that [int] accepts; with the setting missing, null, zero, empty
    or not a number it does nothing at all. *)
Theorem X11_send_log_embed
    (level : Level) (title description : option pystr) (moderator : option Member)
    (owner_id channel_id : option Z) (reason : option pystr) (env : oracle) (s : State) :
  let r := exec (send_log_embed level title description moderator owner_id channel_id reason)
             env s in
  let e := log_embed level title description moderator owner_id channel_id reason in
  value_of r = Some tt /\ calls_of r = [] /\
  settings (state_of r) = settings s /\ settings_file (state_of r) = settings_file s /\
  views (state_of r) = views s /\
  loop_tasks (state_of r) =
    loop_tasks s ++ log_route (dict_get (settings s) "log_channel_id") e /\
  embed_color e =
    match level with
    | debug => 0x95A5A6
    | info => 0x2ECC71
    | warning => 0xE67E22
    | error => 0xE74C3C
    | critical => 0xC0392B
    end /\
  (settings s !! "log_channel_id" = None -> state_of r = s).
Proof.
  intros r e. subst r e. unfold exec. rewrite run_send_log_embed.
  cbn [value_of calls_of state_of fst snd].
  split; [reflexivity|]. split; [reflexivity|].
  split; [apply logged_settings|]. split; [apply logged_settings_file|].
  split; [apply logged_views|]. split; [rewrite logged_route; reflexivity|].
  split; [destruct level; reflexivity|].
  intros Hnone. unfold logged, log_target, dict_get. rewrite Hnone. reflexivity.
Qed.

(** X12. Setting the log channel from the settings form: once an input
    that reads as the integer [n] has been stored under [log_channel_id],
    every later log entry is queued for channel [n], and for no channel
    at all when [n] is zero. *)
Theorem X12_log_channel_from_form
    (new_val : pystr) (n : Z) (interaction : Interaction) (env env' : oracle) (s : State)
    (level : Level) (title description : option pystr) (moderator : option Member)
    (owner_id channel_id : option Z) (reason : option pystr) :
  str_to_int_maybe new_val = Some n ->
  let s1 := state_of (exec (GenericValueModal.on_submit "log_channel_id" new_val interaction)
                        env s) in
  let r := exec (send_log_embed level title description moderator owner_id channel_id reason)
             env' s1 in
  let e := log_embed level title description moderator owner_id channel_id reason in
  loop_tasks s1 = loop_tasks s /\
  loop_tasks (state_of r) = loop_tasks s ++ (if n =? 0 then [] else [(n, e)]).
Proof.
  intros Hconv s1 r e. subst s1 r e.
  destruct (settings_form_id_stored "log_channel_id" new_val interaction env s n eq_refl Hconv)
    as [-> _].
  split; [reflexivity|].
  unfold exec. rewrite run_send_log_embed. cbn [state_of fst snd].
  rewrite logged_route, stored_settings, dict_get_insert. reflexivity.
Qed.

Lemma X12_witness :
  loop_tasks (state_of
    (exec (send_log_embed info None (Some (lit "hello")) None None None None) Sample.all_ok
       (state_of (exec (GenericValueModal.on_submit "log_channel_id" (lit "50")
                          (Sample.press Sample.server Sample.admin)) Sample.all_ok
                    (Sample.state default_settings None))))) =
  [(50, log_embed info None (Some (lit "hello")) None None None None)].
Proof.
  apply (X12_log_channel_from_form (lit "50") 50 (Sample.press Sample.server Sample.admin)
           Sample.all_ok Sample.all_ok (Sample.state default_settings None)
           info None (Some (lit "hello")) None None None None).
  vm_compute. reflexivity.
Defined.

(** X13. The [test_log] command hands a debug-level entry naming the
    actor to the log and acknowledges with the same words whether or not a
    log channel is configured; it never touches the settings or the
    views.  The entry is queued before the acknowledgement is awaited, so
    it stays queued when the acknowledgement fails. *)
Theorem X13_test_log (interaction : Interaction) (env : oracle) (s : State) :
  let r := exec (test_log interaction) env s in
  calls_of r = [send_message msg_test_log] /\
  (value_of r = Some tt <-> env 0%nat (send_message msg_test_log) = Returned tt) /\
  settings (state_of r) = settings s /\ views (state_of r) = views s /\
  exists e,
    audit_entry debug (lit "Тестовый лог") e /\
    (exists v, In (lit "Модератор", v, true) (embed_fields e)) /\
    loop_tasks (state_of r) =
      loop_tasks s ++ log_route (dict_get (settings s) "log_channel_id") e.
Proof.
  intros r. subst r. unfold exec, test_log. fold msg_test_log.
  rewrite run_bind, run_send_log_embed. cbv iota. rewrite run_await_.
  cbn [value_of calls_of state_of fst snd length app].
  split; [reflexivity|]. split.
  - destruct (env 0%nat (send_message msg_test_log)) as [|[]];
      [split; intros H; discriminate H|split; reflexivity].
  - split; [apply logged_settings|]. split; [apply logged_views|].
    eexists. split; [|split; [|rewrite logged_route; reflexivity]].
    + split; vm_compute; reflexivity.
    + eexists. cbn [log_embed embed_fields log_fields app]. left. reflexivity.
Qed.

(** ** Starting up *)

Lemma run_startup env s tr :
  run startup env s tr =
  match settings_file s with
  | Holds d => (Some tt, set_settings d s, tr)
  | Damaged => (None, s, tr)
  | Missing =>
    if dumps default_settings s
    then (Some tt,
          set_settings default_settings (set_settings_file (Holds default_settings) s), tr)
    else (None, set_settings_file (left_on_disk default_settings s) s, tr)
  end.
Proof.
  unfold startup, load_settings. rewrite run_bind, run_bind. cbn [run get_state].
  destruct (settings_file s) eqn:Hfile.
  - rewrite run_bind, run_save_settings.
    destruct (dumps default_settings s) eqn:Hd; [|reflexivity].
    cbn [run modify]. unfold left_on_disk. unfold dumps in Hd.
    destruct (disk s); [|discriminate..]. rewrite Hd. reflexivity.
  - reflexivity.
  - reflexivity.
Qed.

Lemma encodable_default : encodable default_settings = true.
Proof.
  unfold encodable. apply bool_decide_eq_true_2. unfold default_settings.
  repeat (apply map_Forall_insert_2; [vm_compute; reflexivity|]).
  apply map_Forall_empty.
Qed.

(** X14. Starting without a settings file, on a file system that takes
    the write, puts the documented defaults into the file and works on
    them; starting again changes nothing.  On these defaults every
    identifier is null, so every press of the claim button is answered
    that the staff role is not configured, and no log entry is queued. *)
Theorem X14_first_run (env : oracle) (s : State) :
  settings_file s = Missing ->
  disk s = Works ->
  let s1 := state_of (exec startup env s) in
  value_of (exec startup env s) = Some tt /\
  calls_of (exec startup env s) = [] /\
  settings s1 = default_settings /\ settings_file s1 = Holds default_settings /\
  views s1 = views s /\
  state_of (exec startup env s1) = s1 /\
  ids_positive (settings s1) /\
  (forall self interaction env',
     refused (exec (TicketInitialView.take_button self interaction) env' s1) s1
       msg_no_staff_role) /\
  (forall level title description moderator owner_id channel_id reason env',
     state_of (exec (send_log_embed level title description moderator owner_id channel_id
                       reason) env' s1) = s1).
Proof.
  intros Hfile Hdisk s1.
  assert (Hrun : exec startup env s =
                 (Some tt,
                  {| settings := default_settings; settings_file := Holds default_settings;
                     disk := Works; views := views s; loop_tasks := loop_tasks s |}, [])).
  { unfold exec. rewrite run_startup, Hfile. unfold dumps. rewrite Hdisk, encodable_default.
    unfold set_settings, set_settings_file. cbn [settings_file disk views loop_tasks].
    rewrite Hdisk. reflexivity. }
  subst s1. rewrite Hrun. cbn [state_of calls_of value_of fst snd].
  set (s1 := {| settings := default_settings; settings_file := Holds default_settings;
                disk := Works; views := views s; loop_tasks := loop_tasks s |}).
  split; [reflexivity|]. split; [reflexivity|]. split; [reflexivity|]. split; [reflexivity|].
  split; [reflexivity|].
  split; [unfold exec; rewrite run_startup; reflexivity|].
  split; [exact ids_positive_default|]. split.
  - intros self interaction env'.
    destruct (take_button_no_staff_role self interaction env' s1) as [res Hres];
      [vm_compute; reflexivity|].
    rewrite Hres. split; reflexivity.
  - intros. unfold exec. rewrite run_send_log_embed. reflexivity.
Qed.

Lemma X14_witness :
  settings (state_of (exec startup Sample.all_ok
                        {| settings := ∅; settings_file := Missing; disk := Works;
                           views := ∅; loop_tasks := [] |})) = default_settings.
Proof.
  apply (X14_first_run Sample.all_ok
           {| settings := ∅; settings_file := Missing; disk := Works; views := ∅;
              loop_tasks := [] |}).
  - reflexivity.
  - reflexivity.
Defined.

Lemma encodable_insert d key v :
  encodable d = true -> encodable_value v = true -> encodable (<[key := v]> d) = true.
Proof.
  unfold encodable. rewrite !bool_decide_eq_true. intros Hd Hv.
  apply map_Forall_insert_2; assumption.
Qed.

Lemma encodable_insert_bad d key v :
  encodable_value v = false -> encodable (<[key := v]> d) = false.
Proof.
  intros Hv. unfold encodable. apply bool_decide_eq_false_2. intros Hall.
  specialize (Hall key v (lookup_insert_eq d key v)). cbv beta in Hall. congruence.
Qed.

(** With the file system taking writes and nothing in the settings or in
    the input that the codec refuses, the form leaves the file holding
    the settings in memory. *)
Lemma settings_form_synced key new_val interaction env s :
  settings_file s = Holds (settings s) ->
  disk s = Works -> encodable (settings s) = true ->
  forallb encodable_cp new_val = true ->
  let s1 := state_of (exec (GenericValueModal.on_submit key new_val interaction) env s) in
  settings_file s1 = Holds (settings s1) /\ disk s1 = Works /\ encodable (settings s1) = true.
Proof.
  intros Hfile Hdisk Henc Hnew s1. subst s1.
  assert (Hstored : forall v, encodable_value v = true ->
            settings_file (stored key v s) = Holds (settings (stored key v s)) /\
            disk (stored key v s) = Works /\ encodable (settings (stored key v s)) = true).
  { intros v Hv. pose proof (encodable_insert (settings s) key v Henc Hv) as Hins.
    split; [|split; [exact Hdisk|rewrite stored_settings; exact Hins]].
    apply stored_settings_file. unfold dumps. rewrite Hdisk. exact Hins. }
  destruct (endswith key "_id") eqn:Hkey.
  - destruct (str_to_int_maybe new_val) as [n|] eqn:Hconv.
    + destruct (settings_form_id_stored key new_val interaction env s n Hkey Hconv) as [-> _].
      apply Hstored. reflexivity.
    + destruct (settings_form_id_rejected key new_val interaction env s Hkey Hconv) as [-> _].
      auto.
  - destruct (settings_form_text_stored key new_val interaction env s Hkey) as [-> _].
    apply Hstored. exact Hnew.
Qed.

(** X15. What the settings form stored survives a restart.  With the
    file holding the settings, the file system taking writes and no
    surrogate in the settings or in the input, a process that starts
    again after the submission, with whatever it had in memory forgotten,
    reads from the file exactly the settings the form left, and leaves the
    file as it is. *)
Theorem X15_restart_reads_file
    (key : string) (new_val : pystr) (interaction : Interaction) (env env' : oracle)
    (s : State) (forgotten : gmap string value) :
  settings_file s = Holds (settings s) ->
  disk s = Works -> encodable (settings s) = true ->
  forallb encodable_cp new_val = true ->
  let s1 := state_of (exec (GenericValueModal.on_submit key new_val interaction) env s) in
  let restart := exec startup env' (set_settings forgotten s1) in
  value_of restart = Some tt /\
  settings (state_of restart) = settings s1 /\
  settings_file (state_of restart) = settings_file s1.
Proof.
  intros Hfile Hdisk Henc Hnew s1 restart.
  destruct (settings_form_synced key new_val interaction env s Hfile Hdisk Henc Hnew)
    as (Hs1 & _ & _).
  fold s1 in Hs1.
  assert (Hr : restart = (Some tt, set_settings (settings s1) (set_settings forgotten s1), [])).
  { subst restart. unfold exec. rewrite run_startup.
    cbn [settings_file set_settings]. rewrite Hs1. reflexivity. }
  rewrite Hr. repeat split.
Qed.

Lemma X15_witness :
  dict_get
    (settings (state_of (exec startup Sample.all_ok
       (set_settings ∅
          (state_of (exec (GenericValueModal.on_submit "staff_role_id" (lit "100")
                             (Sample.press Sample.server Sample.admin)) Sample.all_ok
                       (Sample.state default_settings None)))))))
    "staff_role_id" = VInt 100.
Proof.
  destruct (X15_restart_reads_file "staff_role_id" (lit "100")
              (Sample.press Sample.server Sample.admin) Sample.all_ok Sample.all_ok
              (Sample.state default_settings None) ∅) as (_ & Hsettings & _).
  - reflexivity.
  - reflexivity.
  - exact encodable_default.
  - reflexivity.
  - rewrite Hsettings. vm_compute. reflexivity.
Defined.

(** X24. A text with a surrogate code point wrecks the settings file.
    Submitted under a key that does not end in [_id], on a file system
    that takes writes, it is put into the settings in memory, the dump
    then raises: the actor gets no reply, the file is left cut short, and
    the next start of the process fails on it.  As long as the text stays
    in the settings, every later submission of the form fails the same
    way. *)
Theorem X24_surrogate_wrecks_file
    (key : string) (new_val : pystr) (interaction : Interaction) (env env' : oracle)
    (s : State) :
  endswith key "_id" = false ->
  disk s = Works ->
  forallb encodable_cp new_val = false ->
  let r := exec (GenericValueModal.on_submit key new_val interaction) env s in
  value_of r = None /\ calls_of r = [] /\
  settings (state_of r) !! key = Some (VStr new_val) /\
  settings_file (state_of r) = Damaged /\
  value_of (exec startup env' (state_of r)) = None /\
  (forall key' new_val' interaction' env'',
     key' <> key ->
     let r' := exec (GenericValueModal.on_submit key' new_val' interaction') env''
                 (state_of r) in
     calls_of r' = [] \/ calls_of r' = [send_message msg_not_a_number]).
Proof.
  intros Hkey Hdisk Hbad r.
  assert (Hd : forall d, d !! key = Some (VStr new_val) -> encodable d = false).
  { intros d Hin. unfold encodable. apply bool_decide_eq_false_2. intros Hall.
    specialize (Hall key _ Hin). cbv beta in Hall. cbn [encodable_value] in Hall.
    congruence. }
  destruct (settings_form_text_stored key new_val interaction env s Hkey)
    as (Hstate & Hcalls & Hvalue).
  cbv zeta in Hcalls, Hvalue.
  assert (Hdumps : dumps (<[key := VStr new_val]> (settings s)) s = false).
  { unfold dumps. rewrite Hdisk. apply Hd, lookup_insert_eq. }
  rewrite Hdumps in Hcalls. specialize (Hvalue Hdumps).
  assert (Hfile : settings_file (state_of r) = Damaged).
  { subst r. rewrite Hstate. unfold stored, left_on_disk.
    cbn [settings_file set_settings_file]. rewrite Hdisk.
    rewrite (Hd _ (lookup_insert_eq _ _ _)). reflexivity. }
  split; [exact Hvalue|]. split; [exact Hcalls|].
  split; [subst r; rewrite Hstate, stored_settings; apply lookup_insert_eq|].
  split; [exact Hfile|]. split.
  - unfold exec. rewrite run_startup, Hfile. reflexivity.
  - intros key' new_val' interaction' env'' Hne r'. subst r'.
    assert (Hin : settings (state_of r) !! key = Some (VStr new_val))
      by (subst r; rewrite Hstate, stored_settings; apply lookup_insert_eq).
    assert (Hno : forall v, dumps (<[key' := v]> (settings (state_of r))) (state_of r) = false).
    { intros v. unfold dumps. destruct (disk (state_of r)); [|reflexivity..].
      apply Hd. rewrite lookup_insert_ne by exact Hne. exact Hin. }
    destruct (endswith key' "_id") eqn:Hkey'.
    + destruct (str_to_int_maybe new_val') as [n|] eqn:Hconv.
      * destruct (settings_form_id_stored key' new_val' interaction' env'' (state_of r) n
                    Hkey' Hconv) as (_ & Hc & _).
        cbv zeta in Hc. rewrite Hno in Hc. left. exact Hc.
      * destruct (settings_form_id_rejected key' new_val' interaction' env'' (state_of r)
                    Hkey' Hconv) as [_ Hc]. right. exact Hc.
    + destruct (settings_form_text_stored key' new_val' interaction' env'' (state_of r)
                  Hkey') as (_ & Hc & _).
      cbv zeta in Hc. rewrite Hno in Hc. left. exact Hc.
Qed.

Lemma X24_witness :
  settings_file (state_of
    (exec (GenericValueModal.on_submit "accept_message" [72%N; 0xD800%N]
             (Sample.press Sample.server Sample.admin)) Sample.all_ok
       (Sample.state default_settings None))) = Damaged.
Proof.
  apply (X24_surrogate_wrecks_file "accept_message" [72%N; 0xD800%N]
           (Sample.press Sample.server Sample.admin) Sample.all_ok Sample.all_ok
           (Sample.state default_settings None)).
  - reflexivity.
  - reflexivity.
  - reflexivity.
Defined.

(** ** From the intake form to the claim *)

(** The intake form never writes the settings. *)
Lemma on_submit_settings author nick age purpose from_where read_rules interaction env s :
  settings (state_of (exec (TicketModal.on_submit author nick age purpose from_where
                              read_rules interaction) env s)) = settings s.
Proof.
  unfold exec, TicketModal.on_submit. cbv zeta.
  repeat match goal with
  | |- context [if negb ?b then _ else _] => destruct (negb b); [rewrite run_await_; reflexivity|]
  | |- context [if ?b || ?c then _ else _] => destruct (b || c); [rewrite run_await_; reflexivity|]
  end.
  cbn [run bind get_state].
  destruct (truthy (dict_get (settings s) "staff_role_id"));
    [unfold int_ at 1;
     destruct (int_of_value (dict_get (settings s) "staff_role_id")) as [sr|];
       [|reflexivity]|];
    cbn [run bind];
    try (destruct (get_role (guild interaction) sr); cbn [run bind]).
  all: destruct (truthy (dict_get (settings s) "ticket_category_id"));
    [unfold int_;
     destruct (int_of_value (dict_get (settings s) "ticket_category_id")) as [cat|];
       [|reflexivity]|];
    cbn [run bind].
  all: rewrite run_bind, run_await; cbn [length].
  all: match goal with
       | |- context [?e 0%nat (create_text_channel ?n ?o ?c ?t)] =>
         destruct (e 0%nat (create_text_channel n o c t)) as [|ch]
       end; [reflexivity|].
  all: cbn iota; cbn [run bind get_state modify].
  all: repeat first [progress run_simp | case_env]; reflexivity.
Qed.

(** X16. From the open button to the claim.  The button opens the intake
    form for the member who pressed it.  When the fields of that form are
    valid and the platform creates the channel, the form registers one new
    view, owned by that member and unclaimed, and leaves the views of all
    other tickets as they were; a press of the claim button of the new
    view by a holder of the staff role or an administrator then records
    that actor as the claimant. *)
Theorem X16_new_ticket_claimable
    (opener : Interaction) (nick age purpose from_where read_rules : pystr)
    (interaction : Interaction) (env0 env : oracle) (s : State) (ch : Z) :
  let author := user opener in
  length_between 3 50 (strip nick) -> age_ok (strip age) ->
  length_between 50 500 (strip purpose) -> length_between 1 50 (strip from_where) ->
  length_between 1 20 (strip read_rules) ->
  usable_id (dict_get (settings s) "staff_role_id") ->
  usable_id (dict_get (settings s) "ticket_category_id") ->
  (forall name overwrites category,
     env 0%nat (create_text_channel name overwrites category (TicketModal.topic author)) =
     Returned ch) ->
  let st := state_of (exec (TicketModal.on_submit author nick age purpose from_where
                              read_rules interaction) env s) in
  calls_of (exec (OpenTicketView.open_ticket opener) env0 s) =
    [send_modal (TicketModal author)] /\
  exists view (v : TicketInitialView),
    views s !! view = None /\ views st !! view = Some v /\
    owner v = author /\ taken_by v = None /\
    (forall self, self <> view -> views st !! self = views s !! self) /\
    (forall (press : Interaction) (env' : oracle) (role : Z),
       staff_role s = Some role -> holds_role_or_admin role press ->
       state_of (exec (TicketInitialView.take_button view press) env' st) =
         claimed view (user_id (user press)) st).
Proof.
  intros author H1 H2 H3 H4 H5 Hstaff Hcat Hcreated st.
  split; [unfold exec, OpenTicketView.open_ticket; rewrite run_await_; reflexivity|].
  pose proof (on_submit_settings author nick age purpose from_where read_rules interaction
                env s) as Hsettings. fold st in Hsettings.
  destruct (on_submit_accepted author nick age purpose from_where read_rules interaction env s
              H1 H2 H3 H4 H5 Hstaff Hcat)
    as (name & ov & cat & res & st' & calls & Hrun & Hcase).
  assert (st = st') as <- by (subst st; rewrite Hrun; reflexivity).
  cbv zeta in Hcase. rewrite Hcreated in Hcase.
  destruct Hcase as (e & view & rest & _ & _ & Hfresh & v & Hviews & Howner & Hopen).
  exists view, v. split; [exact Hfresh|].
  assert (Hv : views st !! view = Some v) by (rewrite Hviews; apply lookup_insert_eq).
  split; [exact Hv|]. split; [exact Howner|]. split; [exact Hopen|]. split.
  - intros self Hne. rewrite Hviews. apply lookup_insert_ne. congruence.
  - intros press env' role Hrole Hyes.
    assert (Hrole' : staff_role st = Some role)
      by (unfold staff_role in *; rewrite Hsettings; exact Hrole).
    destruct (take_button_claims view press env' st role v Hrole' Hyes Hv Hopen)
      as (res' & perms & _ & Hclaim).
    rewrite Hclaim. reflexivity.
Qed.

Lemma X16_witness :
  let opener := Sample.press Sample.server Sample.requester in
  let st := state_of (exec (TicketModal.on_submit (user opener) (lit "Steve") (lit "20")
                              (lit "I would like to build a railway station and a farm")
                              (lit "a friend") (lit "yes") opener)
                        Sample.all_ok (Sample.state Sample.with_staff None)) in
  exists view (v : TicketInitialView),
    views st !! view = Some v /\ owner v = Sample.requester /\
    state_of (exec (TicketInitialView.take_button view
                      (Sample.press Sample.server Sample.staff)) Sample.all_ok st) =
      claimed view 2 st.
Proof.
  intros opener st.
  destruct (X16_new_ticket_claimable opener (lit "Steve") (lit "20")
              (lit "I would like to build a railway station and a farm")
              (lit "a friend") (lit "yes") opener
              Sample.all_ok Sample.all_ok (Sample.state Sample.with_staff None) 500)
    as (_ & view & v & _ & Hv & Howner & _ & _ & Hclaim).
  - vm_compute. split; discriminate.
  - split; [vm_compute; split; discriminate|].
    assert (Hd : forallb isdigit_cp (strip (lit "20")) = true) by (vm_compute; reflexivity).
    rewrite forallb_forall in Hd. apply Forall_forall. intros x Hx. apply Hd.
    apply list_elem_of_In. exact Hx.
  - vm_compute. split; discriminate.
  - vm_compute. split; discriminate.
  - vm_compute. split; discriminate.
  - intros _. vm_compute. discriminate.
  - intros H. vm_compute in H. discriminate.
  - reflexivity.
  - exists view, v. split; [exact Hv|]. split; [exact Howner|].
    apply (Hclaim (Sample.press Sample.server Sample.staff) Sample.all_ok 100).
    + reflexivity.
    + exact sample_staff_allowed.
Defined.

(** ** Blank fields *)

Lemma lstrip_blank s : blank s -> lstrip s = [].
Proof. induction 1 as [|c t Hc _ IH]; [reflexivity|]. cbn [lstrip]. rewrite Hc. exact IH. Qed.

Lemma strip_blank s : blank s -> strip s = [].
Proof. intros Hs. unfold strip, rstrip. rewrite (lstrip_blank s Hs). reflexivity. Qed.

(** X17. A field of the intake form filled with whitespace only counts
    as empty, whatever its length: the submission is refused with the
    message of the first such field (the fields before it being valid),
    no channel is created and nothing changes. *)
Theorem X17_blank_field_refused
    (author : Member) (nick age purpose from_where read_rules : pystr)
    (interaction : Interaction) (env : oracle) (s : State) :
  let r := exec (TicketModal.on_submit author nick age purpose from_where read_rules
                   interaction) env s in
  (blank nick -> refused r s msg_nick) /\
  (length_between 3 50 (strip nick) -> blank age -> refused r s msg_age) /\
  (length_between 3 50 (strip nick) -> age_ok (strip age) -> blank purpose ->
     refused r s msg_purpose) /\
  (length_between 3 50 (strip nick) -> age_ok (strip age) ->
     length_between 50 500 (strip purpose) -> blank from_where ->
     refused r s msg_from_where) /\
  (length_between 3 50 (strip nick) -> age_ok (strip age) ->
     length_between 50 500 (strip purpose) -> length_between 1 50 (strip from_where) ->
     blank read_rules -> refused r s msg_read_rules).
Proof.
  assert (Hempty : forall lo hi f, 0 < lo -> blank f -> ~ length_between lo hi (strip f)).
  { intros lo hi f Hlo Hf. rewrite (strip_blank f Hf). unfold length_between, len.
    cbn [List.length]. lia. }
  cbv zeta. split; [|split; [|split; [|split]]].
  - intros Hb. apply on_submit_nick. apply Hempty; [lia|exact Hb].
  - intros H1 Hb. apply on_submit_age; [exact H1|].
    intros [Hlen _]. revert Hlen. apply Hempty; [lia|exact Hb].
  - intros H1 H2 Hb. apply on_submit_purpose; [exact H1|exact H2|].
    apply Hempty; [lia|exact Hb].
  - intros H1 H2 H3 Hb. apply on_submit_from_where; [exact H1|exact H2|exact H3|].
    apply Hempty; [lia|exact Hb].
  - intros H1 H2 H3 H4 Hb. apply on_submit_read_rules; [exact H1|exact H2|exact H3|exact H4|].
    apply Hempty; [lia|exact Hb].
Qed.

Lemma X17_witness :
  refused (exec (TicketModal.on_submit Sample.requester (lit "     ") (lit "20")
                   (lit "build") (lit "a friend") (lit "yes")
                   (Sample.press Sample.server Sample.requester))
             Sample.all_ok (Sample.state Sample.with_staff None))
    (Sample.state Sample.with_staff None) msg_nick.
Proof.
  apply (X17_blank_field_refused Sample.requester (lit "     ") (lit "20")
           (lit "build") (lit "a friend") (lit "yes")
           (Sample.press Sample.server Sample.requester)
           Sample.all_ok (Sample.state Sample.with_staff None)).
  repeat constructor.
Defined.

(** ** What [int] tolerates *)

Lemma transform_ascii s :
  Forall (fun c => (c < 127)%N) s -> transform_decimal_and_space s = s.
Proof.
  induction 1 as [|c t Hc _ IH]; [reflexivity|]. cbn [transform_decimal_and_space].
  apply N.ltb_lt in Hc. rewrite Hc, IH. reflexivity.
Qed.

Lemma ascii_isspace_lt c : ascii_isspace c = true -> (c < 127)%N.
Proof.
  unfold ascii_isspace. rewrite orb_true_iff, andb_true_iff, !N.leb_le, N.eqb_eq. lia.
Qed.

Lemma ascii_isspace_scan c :
  ascii_isspace c = true -> (c =? 95)%N = false /\ ascii_digit c = None.
Proof.
  unfold ascii_isspace, ascii_digit.
  rewrite orb_true_iff, andb_true_iff, !N.leb_le, N.eqb_eq. intros H. split.
  - apply N.eqb_neq. lia.
  - replace ((48 <=? c)%N && (c <=? 57)%N) with false; [reflexivity|].
    symmetry. apply andb_false_iff. left. apply N.leb_gt. lia.
Qed.

Lemma skip_ascii_space_padding ws r :
  padding ws -> skip_ascii_space (ws ++ r) = skip_ascii_space r.
Proof.
  induction 1 as [|c t Hc _ IH]; [reflexivity|]. cbn [app skip_ascii_space].
  rewrite Hc. exact IH.
Qed.

Lemma skip_ascii_space_app body c t w :
  skip_ascii_space body = c :: t -> skip_ascii_space (body ++ w) = c :: t ++ w.
Proof.
  induction body as [|x body IH]; [discriminate|]. cbn [app skip_ascii_space].
  destruct (ascii_isspace x); [exact IH|]. intros [= <- <-]. reflexivity.
Qed.

Lemma skip_ascii_space_nil rest w :
  skip_ascii_space rest = [] -> padding w -> skip_ascii_space (rest ++ w) = [].
Proof.
  intros Hrest Hw. induction rest as [|x rest IH].
  - cbn [app]. rewrite <- (app_nil_r w), skip_ascii_space_padding by exact Hw. reflexivity.
  - cbn [app skip_ascii_space] in *. destruct (ascii_isspace x); [auto|discriminate].
Qed.

(** The scan does not look past the padding. *)
Lemma scan_digits_app l w :
  padding w ->
  forall acc prev_us seen n sn rest,
    scan_digits l acc prev_us seen = Some (n, sn, rest) ->
    scan_digits (l ++ w) acc prev_us seen = Some (n, sn, rest ++ w).
Proof.
  intros Hw. induction l as [|x l IH]; intros acc prev_us seen n sn rest.
  - cbn [app scan_digits]. destruct prev_us; [discriminate|]. intros [= <- <- <-].
    destruct Hw as [|c t Hc _]; [reflexivity|]. cbn [scan_digits app].
    destruct (ascii_isspace_scan c Hc) as [-> ->]. reflexivity.
  - cbn [app scan_digits]. destruct (x =? 95)%N.
    + destruct prev_us; [discriminate|]. apply IH.
    + destruct (ascii_digit x); [apply IH|].
      destruct prev_us; [discriminate|]. intros [= <- <- <-]. reflexivity.
Qed.

Lemma long_value_pad_l ws body :
  padding ws -> long_value (ws ++ body) = long_value body.
Proof.
  intros Hws. unfold long_value. rewrite (skip_ascii_space_padding ws body Hws).
  reflexivity.
Qed.

Lemma long_value_pad_r body ws z :
  padding ws -> long_value body = Some z -> long_value (body ++ ws) = Some z.
Proof.
  intros Hws. rewrite !long_value_cases.
  destruct (skip_ascii_space body) as [|c t] eqn:Hskip; [discriminate|].
  rewrite (skip_ascii_space_app body c t ws Hskip). cbv zeta.
  assert (Hs2 : (if ((c =? 43) || (c =? 45))%N then t ++ ws else c :: t ++ ws) =
                (if ((c =? 43) || (c =? 45))%N then t else c :: t) ++ ws)
    by (destruct ((c =? 43) || (c =? 45))%N; reflexivity).
  rewrite Hs2.
  destruct (if ((c =? 43) || (c =? 45))%N then t else c :: t) as [|c2 t2] eqn:Hbody;
    [discriminate|].
  cbn [app]. destruct (c2 =? 95)%N; [discriminate|].
  destruct (scan_digits (c2 :: t2) 0 false false) as [[[n [|]] rest]|] eqn:Hscan;
    [|discriminate..].
  change (c2 :: t2 ++ ws) with ((c2 :: t2) ++ ws).
  rewrite (scan_digits_app _ ws Hws _ _ _ _ _ _ Hscan).
  destruct (skip_ascii_space rest) eqn:Hrest; [|discriminate].
  rewrite (skip_ascii_space_nil rest ws Hrest Hws). trivial.
Qed.

Lemma str_of_int_ascii z : Forall (fun c => (c < 127)%N) (str_of_int z).
Proof.
  assert (Hd : forall d, Forall (fun c => (c < 127)%N) (digits_of_uint d))
    by (induction d; constructor; first [reflexivity | assumption]).
  destruct z; cbn [str_of_int]; [repeat constructor|apply Hd|constructor; [reflexivity|apply Hd]].
Qed.

Lemma count_digits_padding w : padding w -> count_digits w = 0%nat.
Proof.
  intros [|c t Hc _]; [reflexivity|]. cbn [count_digits].
  destruct (ascii_isspace_scan c Hc) as [-> ->]. reflexivity.
Qed.

Lemma count_digits_app l w :
  Forall (fun c => (48 <= c <= 57)%N) l -> padding w ->
  count_digits (l ++ w) = List.length l.
Proof.
  intros Hl Hw. induction Hl as [|c t Hc _ IH].
  - apply count_digits_padding, Hw.
  - cbn [app count_digits List.length].
    replace (c =? 95)%N with false by (symmetry; apply N.eqb_neq; lia).
    unfold ascii_digit.
    replace ((48 <=? c)%N && (c <=? 57)%N) with true
      by (symmetry; apply andb_true_iff; split; apply N.leb_le; lia).
    rewrite IH. reflexivity.
Qed.

Lemma after_sign_padding ws r : padding ws -> after_sign (ws ++ r) = after_sign r.
Proof. intros Hws. unfold after_sign. rewrite skip_ascii_space_padding by exact Hws. reflexivity. Qed.

(** The digits [int] counts in a padded numeral are those of the
    numeral. *)
Lemma count_digits_numeral z ws :
  padding ws -> count_digits (after_sign (str_of_int z ++ ws)) = numeral_digits z.
Proof.
  intros Hws. unfold numeral_digits.
  assert (Hd : forall p,
    count_digits (after_sign (digits_of_uint (Pos.to_uint p) ++ ws)) =
      List.length (digits_of_uint (Pos.to_uint p)) /\
    count_digits (after_sign (45%N :: digits_of_uint (Pos.to_uint p) ++ ws)) =
      List.length (digits_of_uint (Pos.to_uint p))).
  { intros p.
    destruct (digits_of_uint_head _ (DecimalPos.Unsigned.to_uint_nonnil p))
      as (c & t & Heq & Hc).
    pose proof (digits_of_uint_ascii (Pos.to_uint p)) as Hascii.
    rewrite Heq in *. cbn [app].
    destruct (after_sign_digit c (t ++ ws) Hc) as [-> ->].
    change (c :: t ++ ws) with ((c :: t) ++ ws).
    rewrite (count_digits_app (c :: t) ws Hascii Hws). split; reflexivity. }
  destruct z as [|p|p].
  - change (str_of_int 0 ++ ws) with (48%N :: ws).
    destruct (after_sign_digit 48 ws) as [-> _]; [lia|].
    change (48%N :: ws) with ([48%N] ++ ws).
    rewrite count_digits_app; [reflexivity|repeat constructor; lia|exact Hws].
  - apply (Hd p).
  - apply (Hd p).
Qed.

Lemma int_of_str_padded ws1 ws2 z :
  padding ws1 -> padding ws2 ->
  (numeral_digits z <= int_max_str_digits)%nat ->
  int_of_str (ws1 ++ str_of_int z ++ ws2) = Some z.
Proof.
  intros H1 H2 Hz. unfold int_of_str. rewrite transform_ascii.
  - rewrite long_from_string_capped.
    + rewrite long_value_pad_l by exact H1. apply long_value_pad_r; [exact H2|].
      pose proof (int_value_of_int z) as Hv. unfold int_value in Hv.
      rewrite transform_ascii in Hv by apply str_of_int_ascii. exact Hv.
    + rewrite after_sign_padding by exact H1. rewrite count_digits_numeral by exact H2.
      exact Hz.
  - rewrite !Forall_app. split; [|split].
    + eapply Forall_impl; [exact H1|]. intros c. apply ascii_isspace_lt.
    + apply str_of_int_ascii.
    + eapply Forall_impl; [exact H2|]. intros c. apply ascii_isspace_lt.
Qed.

(** X7. The settings form does not trim its input, but [int] skips
    spaces, tabs and line breaks around a numeral: an identifier of at
    most 4300 digits, typed or pasted with such padding on either side,
    is stored under a key ending in [_id] as the integer it denotes. *)
Theorem X7_padded_id_stored
    (key : string) (ws1 ws2 : pystr) (z : Z) (interaction : Interaction)
    (env : oracle) (s : State) :
  endswith key "_id" = true ->
  padding ws1 -> padding ws2 ->
  (numeral_digits z <= int_max_str_digits)%nat ->
  let r := exec (GenericValueModal.on_submit key (ws1 ++ str_of_int z ++ ws2) interaction)
             env s in
  str_to_int_maybe (ws1 ++ str_of_int z ++ ws2) = Some z /\
  dict_get (settings (state_of r)) key = VInt z.
Proof.
  intros Hkey H1 H2 Hz r. subst r.
  pose proof (int_of_str_padded ws1 ws2 z H1 H2 Hz) as Hconv.
  split; [exact Hconv|].
  destruct (settings_form_id_stored key (ws1 ++ str_of_int z ++ ws2) interaction env s z
              Hkey Hconv) as [-> _].
  rewrite stored_settings. apply dict_get_insert.
Qed.

Lemma X7_witness :
  dict_get
    (settings (state_of
       (exec (GenericValueModal.on_submit "staff_role_id"
                ([32%N; 9%N] ++ str_of_int 100 ++ [10%N])
                (Sample.press Sample.server Sample.admin)) Sample.all_ok
          (Sample.state default_settings None))))
    "staff_role_id" = VInt 100.
Proof.
  apply (X7_padded_id_stored "staff_role_id" [32%N; 9%N] [10%N] 100
           (Sample.press Sample.server Sample.admin) Sample.all_ok
           (Sample.state default_settings None)).
  - reflexivity.
  - repeat constructor.
  - repeat constructor.
  - vm_compute. lia.
Defined.

(** ** When adding a moderator fails *)

(** X19. The add-moderator form, for a member of the guild cache, goes
    through the permission update, the notice and the acknowledgement in
    this order.  The first of them that fails ends the attempt: the actor
    is told that it failed, nothing is logged, and what was done before
    is not undone (a member whose notice could not be posted keeps the
    access).  No permission other than the member's is ever touched. *)
Theorem X19_add_moderator_failure
    (moderator m : pystr) (mid : Z) (member : Member) (modal_interaction : Interaction)
    (env : oracle) (s : State) (ch : Z) :
  re_search_id (strip moderator) = Some m ->
  int_of_str m = Some mid ->
  get_member (guild modal_interaction) mid = Some member ->
  channel modal_interaction = Some ch ->
  let r := exec (TicketTakenView.AddModeratorModal_on_submit moderator modal_interaction)
             env s in
  let perm := set_permissions ch (TMember (user_id member)) full_access in
  let notice := channel_send ch (added_notice member ch) None None in
  let failed := send_message msg_add_failed in
  match env 0%nat perm with
  | Raised => calls_of r = [perm; failed] /\ state_of r = s
  | Returned _ =>
    match env 1%nat notice with
    | Raised => calls_of r = [perm; notice; failed] /\ state_of r = s
    | Returned _ =>
      match env 2%nat (send_message msg_added) with
      | Raised => calls_of r = [perm; notice; send_message msg_added; failed] /\ state_of r = s
      | Returned _ =>
        calls_of r = [perm; notice; send_message msg_added] /\ value_of r = Some tt
      end
    end
  end.
Proof.
  intros Hm Hmid Hcache Hch r perm notice failed. subst r perm notice failed.
  unfold exec, TicketTakenView.AddModeratorModal_on_submit, msg_added, msg_add_failed,
    added_notice, TicketTakenView.resolve_member.
  cbv zeta. rewrite Hm, Hmid, Hch, Hcache. cbn [run bind].
  rewrite run_try_except, run_bind, run_await_. cbn [length app].
  destruct (env 0%nat _) as [|[]]; [rewrite run_await_; split; reflexivity|].
  rewrite run_bind, run_await_. cbn [length app].
  destruct (env 1%nat _) as [|[]]; [rewrite run_await_; split; reflexivity|].
  rewrite run_bind, run_await_. cbn [length app].
  destruct (env 2%nat _) as [|[]]; [rewrite run_await_; split; reflexivity|].
  rewrite run_try_except, run_send_log_embed. split; reflexivity.
Qed.

Lemma X19_witness :
  calls_of (exec (TicketTakenView.AddModeratorModal_on_submit
                    (lit "please add <@00000000000000003> thanks")
                    (Sample.press Sample.server Sample.staff))
              Sample.all_fail (Sample.state Sample.with_staff (Some 2))) =
    [set_permissions 500 (TMember 3) full_access; send_message msg_add_failed].
Proof.
  apply (X19_add_moderator_failure (lit "please add <@00000000000000003> thanks")
           (lit "00000000000000003") 3 Sample.staff'
           (Sample.press Sample.server Sample.staff) Sample.all_fail
           (Sample.state Sample.with_staff (Some 2)) 500).
  - vm_compute. reflexivity.
  - vm_compute. reflexivity.
  - vm_compute. reflexivity.
  - reflexivity.
Defined.

(** ** The settings menu *)

Lemma options_default key :
  In key SettingsSelect.options ->
  (endswith key "_id" = true /\ default_settings !! key = Some VNone) \/
  (endswith key "_id" = false /\ exists t, default_settings !! key = Some (VStr t) /\ t <> []).
Proof.
  unfold SettingsSelect.options. cbn [In].
  intros [<-|[<-|[<-|[<-|[<-|[<-|[<-|[<-|[]]]]]]]]].
  all: first
    [ left; split; vm_compute; reflexivity
    | right; split; [vm_compute; reflexivity|];
      eexists; split; [vm_compute; reflexivity|discriminate] ].
Qed.

(** X18. The settings menu and the defaults agree.  Every key the menu
    offers is a key of the defaults written on the first run; those
    ending in [_id], which the form reads as integers, are the ones whose
    default is null, and the others default to a text.  Choosing an option
    opens the form for that key and changes nothing, and a submission of
    that form never adds a key to the settings. *)
Theorem X18_menu_and_defaults
    (key : string) (new_val : pystr) (interaction : Interaction) (env env' : oracle)
    (s : State) :
  In key SettingsSelect.options ->
  dom (settings s) = dom default_settings ->
  let chosen := exec (SettingsSelect.callback key interaction) env s in
  let r := exec (GenericValueModal.on_submit key new_val interaction) env' s in
  is_Some (default_settings !! key) /\
  (endswith key "_id" = true <-> default_settings !! key = Some VNone) /\
  state_of chosen = s /\
  calls_of chosen = [send_modal (GenericValueModal key (lit "Изменение: " ++ py key))] /\
  dom (settings (state_of r)) = dom default_settings.
Proof.
  intros Hkey Hdom chosen r. subst chosen r.
  pose proof (options_default key Hkey) as Hdefault.
  assert (Hsome : is_Some (default_settings !! key)).
  { destruct Hdefault as [[_ ->]|[_ (t & -> & _)]]; eexists; reflexivity. }
  split; [exact Hsome|]. split.
  { destruct Hdefault as [[-> ->]|[-> (t & -> & _)]]; split; intros H;
      first [reflexivity | discriminate H]. }
  unfold exec at 1 2. unfold SettingsSelect.callback. rewrite run_await_.
  split; [reflexivity|]. split; [reflexivity|].
  assert (Hin : key ∈ dom (settings s)) by (rewrite Hdom; apply elem_of_dom; exact Hsome).
  assert (Hins : forall v, dom (<[key := v]> (settings s)) = dom default_settings).
  { intros v. rewrite dom_insert_L, subseteq_union_1_L; [exact Hdom|].
    apply singleton_subseteq_l. exact Hin. }
  destruct (endswith key "_id") eqn:Hid.
  - destruct (str_to_int_maybe new_val) as [n|] eqn:Hconv.
    + destruct (settings_form_id_stored key new_val interaction env' s n Hid Hconv) as [-> _].
      rewrite stored_settings. apply Hins.
    + destruct (settings_form_id_rejected key new_val interaction env' s Hid Hconv) as [-> _].
      exact Hdom.
  - destruct (settings_form_text_stored key new_val interaction env' s Hid) as [-> _].
    rewrite stored_settings. apply Hins.
Qed.

Lemma X18_witness :
  dom (settings (state_of
    (exec (GenericValueModal.on_submit "accept_message" (lit "Welcome!")
             (Sample.press Sample.server Sample.admin)) Sample.all_ok
       (Sample.state default_settings None)))) = dom default_settings.
Proof.
  apply (X18_menu_and_defaults "accept_message" (lit "Welcome!")
           (Sample.press Sample.server Sample.admin) Sample.all_ok Sample.all_ok
           (Sample.state default_settings None)).
  - unfold SettingsSelect.options. cbn [In]. do 6 right. left. reflexivity.
  - reflexivity.
Defined.

(** ** The permissions of a claimed ticket *)

(** The [try] block of [take_button], call by call: a failed update ends
    the block, and the block never fails. *)
Lemma run_restrict_channel_exact self interaction staff env s tr (v : TicketInitialView)
    ch role :
  views s !! self = Some v ->
  channel interaction = Some ch ->
  truthy staff = true -> int_of_value staff = Some role ->
  role ∈ guild_roles (guild interaction) ->
  let lock := set_permissions ch (TRole role) po_read_only in
  let actor := set_permissions ch (TMember (user_id (user interaction))) full_access in
  let n := List.length tr in
  run (try_except (TicketInitialView.restrict_channel self interaction staff) pass) env s tr =
  (Some tt, s,
   tr ++ lock ::
     match env n lock with
     | Raised => []
     | Returned _ =>
       actor ::
       match env (S n) actor with
       | Raised => []
       | Returned _ =>
         match get_member (guild interaction) (user_id (owner v)) with
         | Some owner_member =>
           [set_permissions ch (TMember (user_id owner_member)) full_access]
         | None => []
         end
       end
     end).
Proof.
  intros Hv Hch Htruthy Hint Hrole lock actor n. subst lock actor n.
  unfold TicketInitialView.restrict_channel. rewrite Hch, Htruthy.
  unfold int_. rewrite Hint. cbn [bind]. unfold get_role. rewrite decide_True by exact Hrole.
  fold po_read_only.
  rewrite run_try_except, run_bind, run_await_.
  destruct (env (List.length tr) _) as [|[]]; [reflexivity|].
  cbv iota. rewrite run_bind, run_await_. rewrite length_app. cbn [List.length].
  replace (List.length tr + 1)%nat with (S (List.length tr)) by lia.
  destruct (env (S (List.length tr)) _) as [|[]];
    [rewrite <- app_assoc; reflexivity|].
  cbv iota. rewrite run_bind, (run_self_ _ _ _ _ _ Hv). cbv iota.
  destruct (get_member (guild interaction) (user_id (owner v))) as [o|].
  - rewrite run_await_. rewrite <- !app_assoc. cbn [app].
    destruct (env _ _) as [|[]]; reflexivity.
  - cbn [run]. rewrite <- !app_assoc. reflexivity.
Qed.

Lemma take_button_claims_exact self interaction env s role (v : TicketInitialView) ch :
  dict_get (settings s) "staff_role_id" = VInt role -> role <> 0 ->
  role ∈ guild_roles (guild interaction) ->
  role ∈ user_roles (user interaction) \/ administrator (user interaction) = true ->
  views s !! self = Some v -> taken_by v = None ->
  channel interaction = Some ch ->
  let uid := user_id (user interaction) in
  exists res,
    exec (TicketInitialView.take_button self interaction) env s =
    (res, claimed self uid s,
     claim_updates env interaction role v ch ++
     [edit_message {| taken_ticket := initial_ticket v; taker_id := Some uid |}]).
Proof.
  intros Hstaff Hnz Hrole Hyes Hv Hopen Hch uid. subst uid.
  assert (Hholds : holds_role_or_admin role interaction)
    by (destruct Hyes; [left; split; assumption|right; assumption]).
  unfold exec, TicketInitialView.take_button.
  cbn [run bind get_state]. rewrite Hstaff.
  rewrite bool_decide_eq_false_2 by discriminate.
  unfold int_ at 1. cbn [int_of_value run bind].
  pose proof (allowed_iff role interaction) as Hall.
  destruct (if administrator (user interaction) then true else _);
    [|apply Hall in Hholds; discriminate].
  cbn [negb]. rewrite run_bind, (run_self_ _ _ _ _ _ Hv). cbn iota.
  rewrite Hopen. rewrite bool_decide_eq_false_2 by (intros H; apply H; reflexivity).
  rewrite run_bind. unfold TicketInitialView.set_taken_by at 1. cbn [run modify].
  fold (claimed self (user_id (user interaction)) s).
  pose proof (views_claimed self (user_id (user interaction)) s v Hv) as Hv'.
  rewrite run_bind.
  rewrite (run_restrict_channel_exact self interaction (VInt role) env
             (claimed self (user_id (user interaction)) s) [] _ ch role Hv' Hch);
    [|cbn [truthy]; apply negb_true_iff, Z.eqb_neq; exact Hnz|reflexivity|exact Hrole].
  cbv zeta. cbn iota. rewrite run_bind, (run_self_ _ _ _ _ _ Hv'). cbn iota.
  rewrite run_await_. cbn [taken_by initial_ticket owner app List.length].
  eexists. reflexivity.
Qed.

(** X20. What a successful claim does to the channel.  With the staff
    role a non-zero integer naming a role of the guild, the claim first
    takes the right to write away from the staff role, then gives it to
    the claimant, then to the requester if still in the guild, and last
    switches the message to the claimed view.  A permission update that
    fails ends these updates, but the claim stands and the view is
    switched all the same. *)
Theorem X20_claim_permissions
    (self : nat) (interaction : Interaction) (env : oracle) (s : State)
    (role : Z) (v : TicketInitialView) (ch : Z) :
  dict_get (settings s) "staff_role_id" = VInt role -> role <> 0 ->
  role ∈ guild_roles (guild interaction) ->
  role ∈ user_roles (user interaction) \/ administrator (user interaction) = true ->
  views s !! self = Some v -> taken_by v = None ->
  channel interaction = Some ch ->
  let r := exec (TicketInitialView.take_button self interaction) env s in
  let uid := user_id (user interaction) in
  let lock := set_permissions ch (TRole role) po_read_only in
  let actor := set_permissions ch (TMember uid) full_access in
  let switch := edit_message {| taken_ticket := initial_ticket v; taker_id := Some uid |} in
  state_of r = claimed self uid s /\
  (env 0%nat lock = Raised -> calls_of r = [lock; switch]) /\
  (env 0%nat lock = Returned tt -> env 1%nat actor = Raised ->
     calls_of r = [lock; actor; switch]) /\
  (env 0%nat lock = Returned tt -> env 1%nat actor = Returned tt ->
     calls_of r =
       [lock; actor] ++
       match get_member (guild interaction) (user_id (owner v)) with
       | Some owner_member =>
         [set_permissions ch (TMember (user_id owner_member)) full_access]
       | None => []
       end ++ [switch]).
Proof.
  intros Hstaff Hnz Hrole Hyes Hv Hopen Hch r uid lock actor switch.
  destruct (take_button_claims_exact self interaction env s role v ch
              Hstaff Hnz Hrole Hyes Hv Hopen Hch) as [res Hrun].
  subst r. rewrite Hrun. cbn [state_of calls_of fst snd]. unfold claim_updates.
  fold uid lock actor.
  split; [reflexivity|]. split; [|split].
  - intros ->. reflexivity.
  - intros -> ->. reflexivity.
  - intros -> ->. reflexivity.
Qed.

Lemma X20_witness :
  calls_of (exec (TicketInitialView.take_button 0 (Sample.press Sample.server Sample.staff))
              Sample.all_ok (Sample.state Sample.with_staff None)) =
    [set_permissions 500 (TRole 100) po_read_only;
     set_permissions 500 (TMember 2) full_access;
     set_permissions 500 (TMember 1) full_access;
     edit_message {| taken_ticket := Sample.ticket; taker_id := Some 2 |}].
Proof.
  destruct (X20_claim_permissions 0 (Sample.press Sample.server Sample.staff) Sample.all_ok
              (Sample.state Sample.with_staff None) 100
              {| initial_ticket := Sample.ticket; taken_by := None |} 500)
    as (_ & _ & _ & Hcalls).
  - reflexivity.
  - discriminate.
  - destruct sample_staff_allowed as [[H _]|H]; [exact H|discriminate H].
  - left. destruct sample_staff_allowed as [[_ H]|H]; [exact H|discriminate H].
  - reflexivity.
  - reflexivity.
  - reflexivity.
  - apply Hcalls; reflexivity.
Defined.

(** ** Settings the handlers can rely on *)

Lemma settings_form_ids_integer key new_val interaction env s :
  ids_integer (settings s) ->
  ids_integer (settings (state_of (exec (GenericValueModal.on_submit key new_val interaction)
                                     env s))).
Proof.
  intros Hinv. destruct (endswith key "_id") eqn:Hkey.
  - destruct (str_to_int_maybe new_val) as [n|] eqn:Hconv.
    + destruct (settings_form_id_stored key new_val interaction env s n Hkey Hconv) as [-> _].
      rewrite stored_settings. intros k Hk. destruct (decide (key = k)) as [<-|Hne].
      * rewrite dict_get_insert. right. exists n. reflexivity.
      * rewrite dict_get_insert_ne by exact Hne. apply Hinv, Hk.
    + destruct (settings_form_id_rejected key new_val interaction env s Hkey Hconv) as [-> _].
      exact Hinv.
  - destruct (settings_form_text_stored key new_val interaction env s Hkey) as [-> _].
    rewrite stored_settings. intros k Hk.
    rewrite dict_get_insert_ne by (apply (endswith_neq k key Hk Hkey)). apply Hinv, Hk.
Qed.

Lemma id_value_usable v : id_value v -> usable_id v.
Proof. intros [->|[n ->]]; intros H; [discriminate H|discriminate]. Qed.

Lemma submit_all_synced env interaction subs s :
  settings_file s = Holds (settings s) ->
  disk s = Works -> encodable (settings s) = true ->
  Forall (fun kv : string * pystr => forallb encodable_cp (snd kv) = true) subs ->
  settings_file (submit_all env interaction subs s) =
    Holds (settings (submit_all env interaction subs s)).
Proof.
  intros Hfile Hdisk Henc Hsubs. revert s Hfile Hdisk Henc. unfold submit_all.
  induction Hsubs as [|[key new_val] subs Hnew _ IH]; intros s Hfile Hdisk Henc.
  - exact Hfile.
  - cbn [fold_left].
    change (submit env interaction s (key, new_val))
      with (state_of (exec (GenericValueModal.on_submit key new_val interaction) env s)).
    destruct (settings_form_synced key new_val interaction env s Hfile Hdisk Henc Hnew)
      as (H1 & H2 & H3).
    apply IH; assumption.
Qed.

Lemma settings_form_views key new_val interaction env s :
  views (state_of (exec (GenericValueModal.on_submit key new_val interaction) env s)) =
  views s.
Proof.
  destruct (endswith key "_id") eqn:Hkey.
  - destruct (str_to_int_maybe new_val) as [n|] eqn:Hconv.
    + destruct (settings_form_id_stored key new_val interaction env s n Hkey Hconv)
        as [-> _]. reflexivity.
    + destruct (settings_form_id_rejected key new_val interaction env s Hkey Hconv)
        as [-> _]. reflexivity.
  - destruct (settings_form_text_stored key new_val interaction env s Hkey) as [-> _].
    reflexivity.
Qed.

(** X21. However many times the settings form is submitted, with
    whatever keys and inputs and whatever becomes of the writes to the
    file, the identifiers stay such that the handlers can use them:
    starting from settings whose [_id] fields are null or integers (the
    defaults are), every [_id] field is null or an integer afterwards, so
    [int] accepts each one that is set; and the views are untouched.
    When moreover the file held the settings at the start, the file
    system takes the writes and neither the settings nor the inputs
    contain a surrogate, the file holds the settings in memory at the
    end. *)
Theorem X21_ids_usable_after_updates
    (env : oracle) (interaction : Interaction) (subs : list (string * pystr)) (s : State) :
  ids_integer (settings s) ->
  let s' := submit_all env interaction subs s in
  ids_integer (settings s') /\
  (forall k, endswith k "_id" = true -> usable_id (dict_get (settings s') k)) /\
  views s' = views s /\
  (settings_file s = Holds (settings s) ->
   disk s = Works -> encodable (settings s) = true ->
   Forall (fun kv : string * pystr => forallb encodable_cp (snd kv) = true) subs ->
   settings_file s' = Holds (settings s')).
Proof.
  intros Hinv s'. subst s'.
  split; [|split; [|split]]; [| | |apply submit_all_synced].
  - unfold submit_all. revert s Hinv.
    induction subs as [|[key new_val] subs IH]; intros s Hinv; [exact Hinv|].
    cbn [fold_left]. apply IH.
    exact (settings_form_ids_integer key new_val interaction env s Hinv).
  - assert (Hfinal : ids_integer (settings (submit_all env interaction subs s))).
    { unfold submit_all. revert s Hinv.
      induction subs as [|[key new_val] subs IH]; intros s Hinv; [exact Hinv|].
      cbn [fold_left]. apply IH.
      exact (settings_form_ids_integer key new_val interaction env s Hinv). }
    intros k Hk. apply id_value_usable, Hfinal, Hk.
  - unfold submit_all. clear Hinv. revert s.
    induction subs as [|[key new_val] subs IH]; intros s; [reflexivity|].
    cbn [fold_left]. rewrite IH. apply settings_form_views.
Qed.

Lemma X21_witness :
  usable_id
    (dict_get
       (settings (submit_all Sample.all_ok (Sample.press Sample.server Sample.admin)
                    [("staff_role_id"%string, lit "100");
                     ("log_channel_id"%string, lit "none");
                     ("accept_message"%string, lit "Welcome!")]
                    (Sample.state default_settings None)))
       "staff_role_id").
Proof.
  apply (X21_ids_usable_after_updates Sample.all_ok (Sample.press Sample.server Sample.admin)
           [("staff_role_id"%string, lit "100");
            ("log_channel_id"%string, lit "none");
            ("accept_message"%string, lit "Welcome!")]
           (Sample.state default_settings None)).
  - exact (ids_positive_integer _ ids_positive_default).
  - reflexivity.
Defined.

(** ** The settings form on the event loop *)

(** X22. On the event loop the settings form needs a single turn: the
    dictionary is updated and the file written, or the write fails,
    before the only await, the acknowledgement or the refusal.  No other
    task can run between the update of the dictionary and the write of
    the file; after that turn the task has ended and the state is the one
    of the form run alone. *)
Theorem X22_settings_update_one_turn
    (key : string) (new_val : pystr) (interaction : Interaction)
    (env : oracle) (s : State) :
  let p := GenericValueModal.on_submit key new_val interaction in
  let r := turn (env 0%nat) (p, []) s in
  finished (fst r) = true /\
  snd r = state_of (exec p env s) /\
  snd (fst r) = calls_of (exec p env s).
Proof.
  intros p r. subst r p.
  unfold turn, exec, GenericValueModal.on_submit, save_settings.
  destruct (endswith key "_id"); [destruct (str_to_int_maybe new_val)|];
    cbn [advance bind modify get_state await_ run fst snd app List.length
         settings set_settings disk];
    try (destruct (disk s));
    cbn [advance bind modify get_state await_ run fst snd app List.length];
    try (destruct (encodable _));
    cbn [advance bind modify get_state await_ run fst snd app List.length];
    try (destruct (env 0%nat _) as [|[]]); repeat split.
Qed.

(** ** Digits that are no numbers *)

Lemma find_none_Forall {A} (f : A -> bool) l :
  Forall (fun x => f x = false) l -> find f l = None.
Proof. induction 1 as [|x l Hx _ IH]; [reflexivity|]. cbn [find]. rewrite Hx. exact IH. Qed.

Ltac out_of_range :=
  apply andb_false_iff;
  first [left; apply N.leb_gt; lia | right; apply N.leb_gt; lia].

(** A digit character that is no decimal digit lies beyond ASCII and is
    neither whitespace nor decimal. *)
Lemma other_digit_props c :
  in_ranges other_digit_ranges c = true ->
  (c <? 127)%N = false /\ isspace_cp c = false /\ todecimal c = None.
Proof.
  intros Hc. unfold in_ranges, other_digit_ranges in Hc. cbn [existsb fst snd] in Hc.
  repeat (apply orb_true_iff in Hc as [Hc|Hc];
          [apply andb_true_iff in Hc as [H1 H2]; apply N.leb_le in H1, H2|]);
    [..|discriminate].
  all: split; [apply N.ltb_ge; lia|].
  all: split;
    [unfold isspace_cp, in_ranges, whitespace_ranges; cbn [existsb fst snd];
     repeat (apply orb_false_iff; split); first [out_of_range | reflexivity]
    |unfold todecimal; rewrite find_none_Forall; [reflexivity|];
     unfold decimal_ranges; repeat (constructor; [cbn [fst snd]; out_of_range|]);
     constructor].
Qed.

(** X23. The age check takes digit characters that are no numbers.  An
    age of one or two characters such as superscript or circled digits
    (digit characters that are no decimal digits) is not numeric and [int]
    refuses it, yet with the other fields valid the form lets it pass and
    asks the platform for the ticket channel. *)
Theorem X23_age_digit_not_number
    (author : Member) (nick age purpose from_where read_rules : pystr)
    (interaction : Interaction) (env : oracle) (s : State) :
  length_between 3 50 (strip nick) ->
  length_between 1 2 (strip age) ->
  Forall (fun c => in_ranges other_digit_ranges c = true) (strip age) ->
  length_between 50 500 (strip purpose) -> length_between 1 50 (strip from_where) ->
  length_between 1 20 (strip read_rules) ->
  usable_id (dict_get (settings s) "staff_role_id") ->
  usable_id (dict_get (settings s) "ticket_category_id") ->
  ~ numeric (strip age) /\
  int_of_str (strip age) = None /\
  ~ age_violated (strip age) /\
  exists name overwrites category rest,
    calls_of (exec (TicketModal.on_submit author nick age purpose from_where read_rules
                      interaction) env s) =
    create_text_channel name overwrites category (TicketModal.topic author) :: rest.
Proof.
  intros H1 Hlen Hother H3 H4 H5 Hstaff Hcat.
  assert (Hok : age_ok (strip age)).
  { split; [exact Hlen|]. eapply Forall_impl; [exact Hother|].
    intros c Hc. unfold isdigit_cp. rewrite Hc. apply orb_true_r. }
  destruct (strip age) as [|c t] eqn:Hage.
  { unfold length_between, len in Hlen. cbn in Hlen. lia. }
  inversion Hother as [|? ? Hc _]; subst.
  destruct (other_digit_props c Hc) as (Hascii & Hspace & Hdec).
  split; [|split; [|split]].
  - intros Hnum. inversion Hnum as [|? ? Hd _]. apply N.ltb_ge in Hascii. lia.
  - apply int_value_none. unfold int_value. cbn [transform_decimal_and_space].
    rewrite Hascii, Hspace, Hdec. reflexivity.
  - intros Hbad. apply age_violated_iff in Hbad. contradiction.
  - rewrite <- Hage in Hok.
    destruct (on_submit_creates author nick age purpose from_where read_rules interaction
                env s H1 Hok H3 H4 H5 Hstaff Hcat) as (category & rest & Hcalls).
    eexists _, _, category, rest. exact Hcalls.
Qed.

Lemma X23_witness :
  exists name overwrites category rest,
    calls_of (exec (TicketModal.on_submit Sample.requester (lit "Steve") [0xB2%N]
                      (lit "I would like to build a railway station and a farm")
                      (lit "a friend") (lit "yes")
                      (Sample.press Sample.server Sample.requester))
                Sample.all_ok (Sample.state Sample.with_staff None)) =
    create_text_channel name overwrites category (TicketModal.topic Sample.requester) :: rest.
Proof.
  apply (X23_age_digit_not_number Sample.requester (lit "Steve") [0xB2%N]
           (lit "I would like to build a railway station and a farm")
           (lit "a friend") (lit "yes")
           (Sample.press Sample.server Sample.requester)
           Sample.all_ok (Sample.state Sample.with_staff None)).
  - vm_compute. split; discriminate.
  - vm_compute. split; discriminate.
  - repeat constructor.
  - vm_compute. split; discriminate.
  - vm_compute. split; discriminate.
  - vm_compute. split; discriminate.
  - intros _. vm_compute. discriminate.
  - intros H. vm_compute in H. discriminate.
Defined.
